(** * Funeral-Arrangement-App: a shallow embedding of the server code

    The development follows the TypeScript sources under [server/] and
    [shared/]:

    - [JsString]        the string helpers of the JavaScript runtime the code
                        relies on ([trim], [startsWith], [split], the regular
                        expressions written out as matchers);
    - [ImprovedPDF]     the markdown parser of [server/improvedPdfService.ts];
    - [EnhancedPDF]     the header stage of [EnhancedPDFService.markdownToHTML]
                        in [server/pdfService.ts];
    - [Js]              JSON values with the property access, truthiness and
                        string conversion of JavaScript;
    - [User] .. [BillingPeriod], [Store]  the tables of [shared/schema.ts];
    - [Externals], [World], [M]  the outside world (language model, clock,
                        libraries) and the effects of a request;
    - [DocumentService] [server/documentService.ts];
    - [Storage]         [server/storage.ts];
    - [Routes]          the middleware, seven handlers and the route table of
                        [server/routes.ts];
    - [Handlers]        three more handlers of [server/routes.ts];
    - [ImprovedLayout]  the direct-draw layout engine of
                        [server/improvedPdfService.ts];
    - [PlainPDF]        the sections and the layout loop of [PDFService] in
                        [server/pdfService.ts];
    - [Fixtures]        concrete worlds on which the model is run.

    The properties follow the definitions.  Strings are [string]s whose
    characters stand for code units below 256; a number that may be a
    fraction (a coordinate, a width) is a rational; a timestamp is the number
    of milliseconds since the epoch, in [Z].  A table is the list of its
    rows; a query throws when it is given an id that is not a number, and
    in [Handlers.deleteTranscript] also when an id lies outside the range
    of its column. *)

From Stdlib Require Import List String Ascii ZArith QArith Qround Bool Lia Lqa Arith.
Import ListNotations.

Local Close Scope Q_scope.
Local Close Scope Z_scope.
Local Open Scope nat_scope.
Local Open Scope list_scope.
Local Open Scope string_scope.
Set Warnings "-register-all".

(* ===================================================================== *)
(** ** String helpers of the runtime                                      *)
(* ===================================================================== *)

Module JsString.

Definition nl : string := String "010"%char EmptyString.

(** The class [\s] of a JavaScript regular expression and the characters
    [trim] strips, on code units below 256: tab, line feed, vertical tab,
    form feed, carriage return, space and the no-break space. *)
Definition is_space (c : ascii) : bool :=
  match nat_of_ascii c with
  | 9 | 10 | 11 | 12 | 13 | 32 | 160 => true
  | _ => false
  end.

(** Line terminators: [.] does not match them, and with the [m] flag [^]
    matches after one and [$] before one. *)
Definition is_line_terminator (c : ascii) : bool :=
  match nat_of_ascii c with
  | 10 | 13 => true
  | _ => false
  end.

Definition is_digit (c : ascii) : bool :=
  let n := nat_of_ascii c in (48 <=? n)%nat && (n <=? 57)%nat.

Definition is_hash (c : ascii) : bool := Ascii.eqb c "#"%char.

Fixpoint drop_while (p : ascii -> bool) (s : string) : string :=
  match s with
  | EmptyString => EmptyString
  | String c s' => if p c then drop_while p s' else s
  end.

Fixpoint rev_string (acc s : string) : string :=
  match s with
  | EmptyString => acc
  | String c s' => rev_string (String c acc) s'
  end.

Definition trimStart (s : string) : string := drop_while is_space s.

Definition trimEnd (s : string) : string :=
  rev_string EmptyString (drop_while is_space (rev_string EmptyString s)).

(** [String.prototype.trim]. *)
Definition trim (s : string) : string := trimEnd (trimStart s).

Definition is_some {A} (o : option A) : bool :=
  match o with Some _ => true | None => false end.

(** The remainder of [s] after the prefix [p], when [s] starts with [p]. *)
Fixpoint strip_prefix (p s : string) : option string :=
  match p, s with
  | EmptyString, _ => Some s
  | String a p', String b s' =>
      if Ascii.eqb a b then strip_prefix p' s' else None
  | String _ _, EmptyString => None
  end.

(** [s.startsWith(p)]. *)
Definition startsWith (p s : string) : bool := is_some (strip_prefix p s).

(** [s.split(sep)] for a separator of one character: the pieces between
    the separators, an empty input giving one empty piece. *)
Fixpoint split_on (sep : ascii) (cur s : string) : list string :=
  match s with
  | EmptyString => [rev_string EmptyString cur]
  | String c s' =>
      if Ascii.eqb c sep
      then rev_string EmptyString cur :: split_on sep EmptyString s'
      else split_on sep (String c cur) s'
  end.

Definition split (sep : ascii) (s : string) : list string :=
  split_on sep EmptyString s.

(** [s.split(/\s+/).filter(word => word.length > 0)]: the maximal runs
    of characters that are not white space. *)
Fixpoint words_from (cur s : string) : list string :=
  match s with
  | EmptyString =>
      match cur with
      | EmptyString => []
      | _ => [rev_string EmptyString cur]
      end
  | String c s' =>
      if is_space c
      then match cur with
           | EmptyString => words_from EmptyString s'
           | _ => rev_string EmptyString cur :: words_from EmptyString s'
           end
      else words_from (String c cur) s'
  end.

Definition words (s : string) : list string := words_from EmptyString s.

(** [sep.join] of a list of strings. *)
Fixpoint join (sep : string) (l : list string) : string :=
  match l with
  | [] => EmptyString
  | [x] => x
  | x :: rest => x ++ sep ++ join sep rest
  end.

(** A template literal of several lines: the lines joined by a line
    feed. *)
Definition text_of_lines (l : list string) : string := join nl l.


(** The remainder after a match of [^<p>\s+]: the prefix [p], then one or
    more white-space characters, all of them taken (the quantifier is
    greedy).  [None] when the expression does not match. *)
Definition strip_prefix_spaces (p s : string) : option string :=
  match strip_prefix p s with
  | Some (String c rest) =>
      if is_space c then Some (drop_while is_space rest) else None
  | _ => None
  end.

(** The remainder after a match of [^\d+\.\s]. *)
Definition strip_ordinal (s : string) : option string :=
  match s with
  | String c _ =>
      if is_digit c then
        match drop_while is_digit s with
        | String d (String w rest) =>
            if Ascii.eqb d "."%char && is_space w then Some rest else None
        | _ => None
        end
      else None
  | EmptyString => None
  end.

(** The remainder after a match of [^[-*]\s]. *)
Definition strip_bullet (s : string) : option string :=
  match s with
  | String c (String w rest) =>
      if (Ascii.eqb c "-"%char || Ascii.eqb c "*"%char) && is_space w
      then Some rest else None
  | _ => None
  end.

Fixpoint all_chars (p : ascii -> bool) (s : string) : bool :=
  match s with
  | EmptyString => true
  | String c s' => p c && all_chars p s'
  end.

Fixpoint last_char (s : string) : option ascii :=
  match s with
  | EmptyString => None
  | String c EmptyString => Some c
  | String _ s' => last_char s'
  end.

(** [s.endsWith(c)] for one character. *)
Definition endsWith_char (c : ascii) (s : string) : bool :=
  match last_char s with
  | Some d => Ascii.eqb d c
  | None => false
  end.

(** [s.replace(c, '')] for one character: its first occurrence goes. *)
Fixpoint remove_first (c : ascii) (s : string) : string :=
  match s with
  | EmptyString => EmptyString
  | String d s' => if Ascii.eqb d c then s' else String d (remove_first c s')
  end.

Definition is_upper (c : ascii) : bool :=
  let n := nat_of_ascii c in (65 <=? n)%nat && (n <=? 90)%nat.

Definition is_letter (c : ascii) : bool :=
  let n := nat_of_ascii c in
  is_upper c || ((97 <=? n)%nat && (n <=? 122)%nat).

End JsString.

(* ===================================================================== *)
(** ** server/improvedPdfService.ts: the markdown parser                  *)
(* ===================================================================== *)

Module ImprovedPDF.
Import JsString.

(** [ParsedContent['type']]; the members ['bold'] and ['italic'] of the
    union are never produced by the parser. *)
Inductive ContentType := header | paragraph | list_item | bold | italic | separator.

Record Styles := { fontSize : option nat; styleBold : option bool }.

Record ParsedContent := {
  type : ContentType;
  level : option nat;
  content : string;
  styles : option Styles
}.

Definition mkHeader (lvl size : nat) (text : string) : ParsedContent :=
  {| type := header; level := Some lvl; content := text;
     styles := Some {| fontSize := Some size; styleBold := Some true |} |}.

(** [line.replace(/^[-*]\s|^\d+\.\s/, '')]: the first alternative is tried
    before the second; a line neither matches is returned as it is. *)
Definition strip_list_marker (line : string) : string :=
  match strip_bullet line with
  | Some rest => rest
  | None => match strip_ordinal line with
            | Some rest => rest
            | None => line
            end
  end.

(** The body of the loop of [parseMarkdownContent] for one element of
    [content.split('\n')]: [None] for a line skipped by [continue]. *)
Definition parseLine (raw : string) : option ParsedContent :=
  let line := trim raw in
  if String.eqb line "" then None
  else Some
    match strip_prefix_spaces "###" line with
    | Some rest => mkHeader 3 14 rest
    | None =>
      match strip_prefix_spaces "##" line with
      | Some rest => mkHeader 2 16 rest
      | None =>
        match strip_prefix_spaces "#" line with
        | Some rest =>
            if negb (startsWith "##" line) then mkHeader 1 18 rest
            else (* not reached: [^#\s+] excludes [^##] *)
              {| type := paragraph; level := None; content := line;
                 styles := Some {| fontSize := Some 11; styleBold := None |} |}
        | None =>
          if startsWith "---" line || String.eqb line "___" then
            {| type := separator; level := None; content := "";
               styles := None |}
          else if startsWith "- " line || startsWith "* " line
                  || is_some (strip_ordinal line) then
            {| type := list_item; level := None;
               content := strip_list_marker line;
               styles := Some {| fontSize := Some 11; styleBold := None |} |}
          else
            {| type := paragraph; level := None; content := line;
               styles := Some {| fontSize := Some 11; styleBold := None |} |}
        end
      end
    end.

Fixpoint collect {A} (l : list (option A)) : list A :=
  match l with
  | [] => []
  | Some x :: rest => x :: collect rest
  | None :: rest => collect rest
  end.

(** [ImprovedPDFService.parseMarkdownContent]. *)
Definition parseMarkdownContent (text : string) : list ParsedContent :=
  collect (map parseLine (split "010"%char text)).

End ImprovedPDF.

(* ===================================================================== *)
(** ** server/pdfService.ts: the header stage of markdownToHTML           *)
(* ===================================================================== *)

Module EnhancedPDF.
Import JsString.

(** [html.replace(/\r\n/g, '\n')] and [html.replace(/\r/g, '\n')]. *)
Fixpoint replace_crlf (s : string) : string :=
  match s with
  | EmptyString => EmptyString
  | String c s' =>
      match s' with
      | String d s'' =>
          if Ascii.eqb c "013"%char && Ascii.eqb d "010"%char
          then String "010"%char (replace_crlf s'')
          else String c (replace_crlf s')
      | EmptyString => String c EmptyString
      end
  end.

Fixpoint replace_cr (s : string) : string :=
  match s with
  | EmptyString => EmptyString
  | String c s' =>
      String (if Ascii.eqb c "013"%char then "010"%char else c) (replace_cr s')
  end.

(** The two families of header expressions:
    [/^#{n}\s*(.*$)/gm] and [/^#..#([^#].*$)/gm] with [n] hashes. *)
Inductive HeaderRule := SpaceStar | NonHash.

Fixpoint hashes (n : nat) : string :=
  match n with
  | O => EmptyString
  | S k => String "#"%char (hashes k)
  end.

(** Whether the expression matches at the start of [s] (a position where
    [^] holds).  With [SpaceStar] the hashes are enough: [\s*] and [.*]
    match the empty string and [$] holds where [.*] stops.  With [NonHash]
    one more character, any but a hash, has to follow. *)
Definition matches_here (rule : HeaderRule) (n : nat) (s : string) : bool :=
  match strip_prefix (hashes n) s with
  | None => false
  | Some rest =>
      match rule with
      | SpaceStar => true
      | NonHash => match rest with
                   | String c _ => negb (is_hash c)
                   | EmptyString => false
                   end
      end
  end.

(** Where the scan of one global replacement stands. *)
Inductive Scan :=
| AtLineStart            (* [^] holds here *)
| InLine                 (* inside a line, no match under way *)
| SkipHashes (k : nat)   (* in a match, [k] hashes still to pass *)
| SkipSpaces             (* in a match, inside [\s*] *)
| CaptureFirst           (* in a match, at the character of [[^#]] *)
| Capture.               (* in a match, inside [.*] *)

Definition after_hashes (rule : HeaderRule) (k : nat) : Scan :=
  match k with
  | O => match rule with SpaceStar => SkipSpaces | NonHash => CaptureFirst end
  | S _ => SkipHashes k
  end.

Definition next_plain (c : ascii) : Scan :=
  if is_line_terminator c then AtLineStart else InLine.

(** One [html.replace(<expression>, '<hN>$1</hN>')] with the [g] and [m]
    flags, as a left-to-right scan: [opening] and [closing] are the tags
    that replace the match around its capture. *)
Fixpoint replace_header (rule : HeaderRule) (n : nat) (opening closing : string)
         (st : Scan) (s : string) : string :=
  match s with
  | EmptyString =>
      match st with
      | AtLineStart | InLine => EmptyString
      | _ => closing
      end
  | String c s' =>
      match st with
      | AtLineStart =>
          if matches_here rule n s
          then opening ++ replace_header rule n opening closing
                            (after_hashes rule (pred n)) s'
          else String c (replace_header rule n opening closing (next_plain c) s')
      | InLine =>
          String c (replace_header rule n opening closing (next_plain c) s')
      | SkipHashes k =>
          replace_header rule n opening closing (after_hashes rule (pred k)) s'
      | SkipSpaces =>
          if is_space c
          then replace_header rule n opening closing SkipSpaces s'
          else String c (replace_header rule n opening closing Capture s')
      | CaptureFirst =>
          String c (replace_header rule n opening closing Capture s')
      | Capture =>
          if is_line_terminator c
          then closing ++ String c (replace_header rule n opening closing AtLineStart s')
          else String c (replace_header rule n opening closing Capture s')
      end
  end.

Definition h_open (n : nat) : string :=
  "<h" ++ String (ascii_of_nat (48 + n)) EmptyString ++ ">".
Definition h_close (n : nat) : string :=
  "</h" ++ String (ascii_of_nat (48 + n)) EmptyString ++ ">".

Definition replace_h (rule : HeaderRule) (n : nat) (s : string) : string :=
  replace_header rule n (h_open n) (h_close n) AtLineStart s.

(** The first statements of [EnhancedPDFService.markdownToHTML]: the
    normalisation of line endings and the eight header replacements, in
    the order of the source. *)
Definition markdownToHTML_headers (text : string) : string :=
  let html := replace_cr (replace_crlf text) in
  let html := replace_h SpaceStar 4 html in
  let html := replace_h SpaceStar 3 html in
  let html := replace_h SpaceStar 2 html in
  let html := replace_h SpaceStar 1 html in
  let html := replace_h NonHash 4 html in
  let html := replace_h NonHash 3 html in
  let html := replace_h NonHash 2 html in
  let html := replace_h NonHash 1 html in
  html.

End EnhancedPDF.

(* ===================================================================== *)
(** ** JSON values as the code reads them                                 *)
(* ===================================================================== *)

Module Js.
Import JsString.

(** The values [JSON.parse] produces, and [undefined].  A number is kept
    as its rendering by [String(n)], which is all the code asks of it. *)
Inductive value :=
| Undefined
| Null
| Bool (b : bool)
| Num (repr : string)
| Str (s : string)
| Arr (items : list value)
| Obj (fields : list (string * value)).

(** An exception that was thrown: the [message] of the [Error]. *)
Definition Err := string.

(** [Boolean(v)]. *)
Definition truthy (v : value) : bool :=
  match v with
  | Undefined | Null => false
  | Bool b => b
  | Num r => negb (String.eqb r "0" || String.eqb r "NaN")
  | Str s => negb (String.eqb s "")
  | Arr _ | Obj _ => true
  end.

(** The message of the [TypeError] of a conversion that finds no
    primitive value. *)
Definition notPrimitive : Err := "Cannot convert object to primitive value".

(** Whether the object has a property of its own of this name. *)
Definition hasOwn (k : string) (fields : list (string * value)) : bool :=
  existsb (fun kv => String.eqb (fst kv) k) fields.

(** The conversions of the elements of a list, up to the first that
    throws. *)
Definition traverse {A B} (f : A -> Err + B) : list A -> Err + list B :=
  fix go (l : list A) : Err + list B :=
    match l with
    | [] => inr []
    | x :: rest =>
        match f x with
        | inl e => inl e
        | inr y => match go rest with
                   | inl e => inl e
                   | inr ys => inr (y :: ys)
                   end
        end
    end.

(** [String(v)], the conversion a template literal and [Array.join]
    apply.  An array joins its elements with a comma, [null] and
    [undefined] elements giving the empty string.  An object is printed
    by [Object.prototype.toString] unless it has a property of its own
    named [toString]: no value of this type is callable, [valueOf] gives
    the object back, and the conversion throws a [TypeError]. *)
Fixpoint toString (v : value) : Err + string :=
  match v with
  | Undefined => inr "undefined"
  | Null => inr "null"
  | Bool true => inr "true"
  | Bool false => inr "false"
  | Num r => inr r
  | Str s => inr s
  | Arr items =>
      match traverse (fun x => match x with
                               | Undefined | Null => inr EmptyString
                               | _ => toString x
                               end) items with
      | inl e => inl e
      | inr pieces => inr (join "," pieces)
      end
  | Obj fields =>
      if hasOwn "toString" fields then inl notPrimitive
      else inr "[object Object]"
  end.

(** [items.join(separator)]. *)
Definition arrayJoin (separator : string) (items : list value) : Err + string :=
  match traverse (fun x => match x with
                           | Undefined | Null => inr EmptyString
                           | _ => toString x
                           end) items with
  | inl e => inl e
  | inr pieces => inr (join separator pieces)
  end.

Fixpoint lookup (k : string) (fields : list (string * value)) : value :=
  match fields with
  | [] => Undefined
  | (k', v) :: rest => if String.eqb k k' then v else lookup k rest
  end.

(** [v.k] for the property names the code uses, none of which is a
    built-in property of strings, numbers or arrays: reading a property
    of [null] or [undefined] throws a [TypeError]. *)
Definition get (v : value) (k : string) : Err + value :=
  match v with
  | Undefined =>
      inl ("Cannot read properties of undefined (reading '" ++ k ++ "')")
  | Null =>
      inl ("Cannot read properties of null (reading '" ++ k ++ "')")
  | Obj fields => inr (lookup k fields)
  | _ => inr Undefined
  end.

(** [v?.k]. *)
Definition optGet (v : value) (k : string) : value :=
  match v with
  | Obj fields => lookup k fields
  | _ => Undefined
  end.

(** [v || d]. *)
Definition orElse (v d : value) : value := if truthy v then v else d.

End Js.

(* ===================================================================== *)
(** ** shared/schema.ts: the tables                                       *)
(* ===================================================================== *)

Local Open Scope Z_scope.

Module User.
Record t := {
  id : Z; email : string; password : string; name : string;
  funeralHome : option string; role : string;
  createdAt : Z; updatedAt : Z; billingPeriodStart : Z
}.
End User.

Module Transcript.
Record t := {
  id : Z; userId : Z; filename : string; content : string;
  fileSize : Z; uploadDate : Z; status : string
}.
End Transcript.

Module Arrangement.
(** The columns filled from the extracted data, which the handlers below
    copy unchanged. *)
Record Extracted := {
  deceasedName : option string; deceasedAge : option Z;
  dateOfDeath : option string; causeOfDeath : option string;
  serviceType : option string; serviceLocation : option string;
  serviceDate : option string; serviceTime : option string;
  arrangerName : option string; arrangerPhone : option string;
  arrangerEmail : option string; arrangerRelation : option string;
  casketType : option string; flowerPrefs : option string;
  specialRequests : option string
}.
Record t := {
  id : Z; transcriptId : Z; userId : Z;
  extracted : Extracted;
  generatedDoc : option string; docStatus : string;
  approvalStatus : string; approvedAt : option Z;
  aiProcessed : bool; extractedData : option string;
  createdAt : Z; updatedAt : Z
}.
End Arrangement.

Module PasswordReset.
Record t := {
  id : Z; email : string; token : string; expiresAt : Z; createdAt : Z
}.
End PasswordReset.

Module Document.
Record t := {
  id : Z; arrangementId : Z; type : string; title : string;
  content : option string; plainTextContent : option string;
  status : string; version : Z; createdAt : Z; updatedAt : Z
}.
End Document.

Module FuneralTask.
Record t := {
  id : Z; arrangementId : Z; type : string; title : string;
  description : option string; priority : string; dueDate : option Z;
  completed : bool; completedAt : option Z; assignedTo : option string;
  notes : option string; createdAt : Z
}.
End FuneralTask.

Module UsageMetric.
Record t := {
  id : Z; userId : Z; metricType : string; metricValue : Z;
  billingPeriodStart : Z; createdAt : Z
}.
End UsageMetric.

Module BillingPeriod.
Record t := {
  id : Z; userId : Z; periodStart : Z; periodEnd : option Z;
  role : string; transcriptsProcessed : Z; documentsGenerated : Z;
  isActive : bool; createdAt : Z
}.
End BillingPeriod.

(** A table: its rows in insertion order and the next value of the
    [serial] sequence of its [id] column. *)
Record Table (R : Type) := { rows : list R; serial : Z }.
Arguments rows {R} _.
Arguments serial {R} _.

Definition insert_row {R} (mk : Z -> R) (t : Table R) : R * Table R :=
  let r := mk (serial t) in
  (r, {| rows := (rows t ++ [r])%list; serial := serial t + 1 |}).

Definition with_rows {R} (t : Table R) (l : list R) : Table R :=
  {| rows := l; serial := serial t |}.

Record Store := {
  users : Table User.t;
  transcripts : Table Transcript.t;
  arrangements : Table Arrangement.t;
  passwordResets : Table PasswordReset.t;
  documents : Table Document.t;
  funeralTasks : Table FuneralTask.t;
  userUsageMetrics : Table UsageMetric.t;
  userBillingPeriods : Table BillingPeriod.t
}.

(* ===================================================================== *)
(** ** The outside world and the effects of the server code               *)
(* ===================================================================== *)

Export Js.

Inductive DocType := contract | summary | obituary | tasks | arranger_tasks | death_cert.

Definition docTypeName (t : DocType) : string :=
  match t with
  | contract => "contract"
  | summary => "summary"
  | obituary => "obituary"
  | tasks => "tasks"
  | arranger_tasks => "arranger_tasks"
  | death_cert => "death_cert"
  end.

(** How one request to the language model ends, as seen after
    [Promise.race([completionPromise, timeoutPromise])] and
    [result.response.text()]. *)
Inductive LLMOutcome :=
| LLMRejected (message : string)  (* the race rejects: the 15 s timer fired
                                     first, or the request threw *)
| LLMNoResponse                   (* [!result || !result.response] *)
| LLMText (content : string).     (* the text of the response *)

Definition timeoutMessage : string := "AI service timeout - request took too long".

(** [req.user], the payload of a verified token. *)
Record TokenPayload := { userId : Z; tokenEmail : string; tokenRole : string }.

(** What the code obtains from outside the repository: the language model,
    the clock, the libraries.  Every function of the model takes the
    externals as its first argument, so that a theorem holds whatever they
    answer. *)
Record Externals := {
  (** the outcome of the [k]-th request of the run, for its prompt and
      [maxOutputTokens] *)
  llm : nat -> string -> nat -> LLMOutcome;
  (** [new Date()] and [Date.now()] *)
  now : Z;
  (** [new Date().toLocaleDateString('en-US', ...)] *)
  formattedDate : string;
  (** [JSON.parse]: the value, or the message of its [SyntaxError] *)
  json_parse : string -> Err + value;
  (** [JSON.stringify(v, null, 2)] *)
  json_stringify : value -> string;
  (** the fixed text of the prompt of a document type around its
      interpolated pieces (the template literals of [getPromptForType]) *)
  prompt_template : DocType -> list string -> string;
  (** [PDFService.formatContent] and [addContentToPDF] on a fresh [jsPDF]
      document, then [doc.output]: the bytes, or the exception *)
  pdf_render : DocType -> string -> value -> Err + string;
  (** [Buffer.from(s).toString('base64')] and [Buffer.from(s, 'base64')] *)
  base64_encode : string -> string;
  base64_decode : string -> string;
  (** [jwt.verify]: the payload of a valid token *)
  jwt_verify : string -> option TokenPayload;
  (** [crypto.randomBytes(32).toString('hex')] *)
  random_token : string;
  (** whether SendGrid accepts a message to this address *)
  mail_accepted : string -> bool
}.

(** What a run changes: the database, the number of requests made to the
    language model, the mail handed to SendGrid. *)
Record World := {
  store : Store;
  llmCalls : nat;
  outbox : list (string * string)
}.

(** A computation of the server: it ends with a value or with a thrown
    exception, and the changes made before a [throw] stay made. *)
Definition M (A : Type) : Type := World -> (Err + A) * World.

Definition ret {A} (a : A) : M A := fun w => (inr a, w).
Definition throw {A} (e : Err) : M A := fun w => (inl e, w).
Definition bind {A B} (m : M A) (k : A -> M B) : M B :=
  fun w => match m w with
           | (inr a, w') => k a w'
           | (inl e, w') => (inl e, w')
           end.
(** [try { m } catch (error) { h(error.message) }]. *)
Definition try_catch {A} (m : M A) (h : Err -> M A) : M A :=
  fun w => match m w with
           | (inr a, w') => (inr a, w')
           | (inl e, w') => h e w'
           end.
(** A pure computation that may throw. *)
Definition lift {A} (r : Err + A) : M A := fun w => (r, w).
Definition getStore : M Store := fun w => (inr (store w), w).

Declare Scope m_scope.
Delimit Scope m_scope with M.
Notation "x <- m ;; k" := (bind m (fun x => k))
  (at level 61, m at next level, right associativity) : m_scope.
Notation "m ;;; k" := (bind m (fun _ => k))
  (at level 61, right associativity) : m_scope.
Local Open Scope m_scope.

(* ===================================================================== *)
(** ** server/documentService.ts                                          *)
(* ===================================================================== *)

Module DocumentService.
Import JsString.

Definition dq : string := String "034"%char EmptyString.

(** [arrangementData.arrangement?.<section>]: the first access throws on
    [null] and [undefined]. *)
Definition section (arrangementData : value) (name : string) : Err + value :=
  match get arrangementData "arrangement" with
  | inl e => inl e
  | inr a => inr (optGet a name)
  end.

(** [getDeceasedFullName]. *)
Definition getDeceasedFullName (arrangementData : value) : Err + string :=
  match section arrangementData "basic_information" with
  | inl e => inl e
  | inr basic =>
      let deceasedName := optGet basic "deceased_name" in
      if negb (truthy deceasedName) then inr EmptyString
      else arrayJoin " " (filter truthy
             [ optGet deceasedName "first"; optGet deceasedName "middle";
               optGet deceasedName "last"; optGet deceasedName "suffix" ])
  end.

Definition getFormattedDate (E : Externals) : string := formattedDate E.

Definition generatedLine (E : Externals) : string :=
  "<div style=" ++ dq ++ "text-align: right;" ++ dq ++ ">Generated: "
    ++ getFormattedDate E ++ "</div>".

(** [${v || 'TBD'}]. *)
Definition orTBD (v : value) : Err + string := toString (orElse v (Str "TBD")).

(** [getFallbackArrangerTasks]: the template literal converts its values
    to strings in order, and a conversion that throws ends the function. *)
Definition getFallbackArrangerTasks (E : Externals) (arrangementData : value)
  : Err + string :=
  match section arrangementData "basic_information" with
  | inl e => inl e
  | inr _ =>
  match section arrangementData "arrangements" with
  | inl e => inl e
  | inr a =>
  let arrangements := orElse a (Obj []) in
  match getDeceasedFullName arrangementData with
  | inl e => inl e
  | inr fullName =>
  match orTBD (optGet arrangements "service_date") with
  | inl e => inl e
  | inr serviceDate =>
  match orTBD (optGet arrangements "service_time") with
  | inl e => inl e
  | inr serviceTime =>
  match orTBD (optGet arrangements "funeral_service_place") with
  | inl e => inl e
  | inr servicePlace =>
    inr (text_of_lines [
      "# Family Arranger To-Do List";
      fullName;
      generatedLine E;
      EmptyString;
      "---";
      EmptyString;
      "## Immediate Tasks (Next 24 Hours)";
      "- [ ] Contact close family members and friends";
      "- [ ] Confirm service details: " ++ serviceDate ++ " at " ++ serviceTime;
      "- [ ] Verify venue: " ++ servicePlace;
      EmptyString;
      "## Pre-Service Tasks (2-4 Days Before)";
      "- [ ] Arrange catering for reception";
      "- [ ] Order flowers and arrangements";
      "- [ ] Prepare eulogy and readings";
      "- [ ] Coordinate family transportation";
      "- [ ] Send guest notifications";
      EmptyString;
      "## Day Before Service";
      "- [ ] Confirm all arrangements";
      "- [ ] Prepare memorial materials";
      "- [ ] Brief family on service order";
      EmptyString;
      "## Day of Service";
      "- [ ] Arrive early for setup";
      "- [ ] Coordinate with funeral director";
      "- [ ] Greet guests and manage reception";
      EmptyString;
      "## After Service";
      "- [ ] Send thank you notes";
      "- [ ] Handle final tasks";
      "- [ ] Coordinate memorial donations";
      EmptyString;
      "*Consult with your funeral director for additional requirements.*" ])
  end end end end end end.

(** [getFallbackTasks], likewise. *)
Definition getFallbackTasks (E : Externals) (arrangementData : value)
  : Err + string :=
  match section arrangementData "basic_information" with
  | inl e => inl e
  | inr b =>
  let basic := orElse b (Obj []) in
  match section arrangementData "arrangements" with
  | inl e => inl e
  | inr a =>
  let arrangements := orElse a (Obj []) in
  match getDeceasedFullName arrangementData with
  | inl e => inl e
  | inr fullName =>
  match toString (optGet (optGet basic "deceased_name") "first") with
  | inl e => inl e
  | inr first =>
  match toString (optGet (optGet basic "deceased_name") "last") with
  | inl e => inl e
  | inr last =>
  match orTBD (optGet arrangements "service_date") with
  | inl e => inl e
  | inr serviceDate =>
    inr (text_of_lines [
      "# Funeral Director Task Checklist";
      fullName;
      generatedLine E;
      EmptyString;
      "---";
      EmptyString;
      "## Immediate Tasks (24 Hours)";
      "- [ ] Complete death certificate coordination";
      "- [ ] Prepare legal documentation";
      "- [ ] Follow up with family consultation";
      "- [ ] Schedule facility arrangements";
      EmptyString;
      "## Pre-Service Tasks (1-3 Days)";
      "- [ ] Setup service arrangements";
      "- [ ] Confirm vendor services";
      "- [ ] Assign staff responsibilities";
      "- [ ] Prepare equipment and facilities";
      EmptyString;
      "## Day of Service";
      "- [ ] Coordinate service execution";
      "- [ ] Manage staff and logistics";
      "- [ ] Provide technical support";
      "- [ ] Oversee ceremonial duties";
      EmptyString;
      "## Post-Service";
      "- [ ] Complete documentation";
      "- [ ] Process final billing";
      "- [ ] Coordinate facility cleanup";
      "- [ ] Follow up with family";
      EmptyString;
      "Service Details: " ++ first ++ " " ++ last ++ " - " ++ serviceDate ])
  end end end end end end.

(** [getPromptForType]: the three sections are read first (which throws
    on [null]), then the template literal of the type is filled in. *)
Definition getPromptForType (E : Externals) (type : DocType)
           (arrangementData : value) (transcriptContent : string)
           (styleSpecifications : option (list string)) : Err + string :=
  match section arrangementData "basic_information" with
  | inl e => inl e
  | inr _ =>
  match section arrangementData "arrangements" with
  | inl e => inl e
  | inr _ =>
  match section arrangementData "informant" with
  | inl e => inl e
  | inr _ =>
  match getDeceasedFullName arrangementData with
  | inl e => inl e
  | inr fullName =>
      let styleInstruction :=
        match type, styleSpecifications with
        | obituary, Some (s :: rest) => [join ", " (s :: rest)]
        | _, _ => []
        end in
      inr (prompt_template E type
             ([ json_stringify E arrangementData; transcriptContent;
                fullName; getFormattedDate E ] ++ styleInstruction)%list)
  end end end end.

Definition maxOutputTokens (type : DocType) : nat :=
  match type with
  | arranger_tasks => 4000%nat
  | tasks => 3500%nat
  | _ => 3000%nat
  end.

(** [model.generateContent] raced against the timer. *)
Definition generateContent (E : Externals) (prompt : string) (budget : nat)
  : M LLMOutcome :=
  fun w => (inr (llm E (llmCalls w) prompt budget),
            {| store := store w; llmCalls := S (llmCalls w); outbox := outbox w |}).

(** [DocumentService.generateDocument]. *)
Definition generateDocument (E : Externals) (type : DocType)
           (arrangementData : value) (transcriptContent : string)
           (styleSpecifications : option (list string)) : M string :=
  try_catch
    (prompt <- lift (getPromptForType E type arrangementData transcriptContent
                       styleSpecifications) ;;
     result <- generateContent E prompt (maxOutputTokens type) ;;
     match result with
     | LLMRejected message => throw message
     | LLMNoResponse => throw "No response received from AI service"
     | LLMText content =>
         if String.eqb (trim content) EmptyString
         then throw ("Empty content received for " ++ docTypeName type ++ " document")
         else ret content
     end)
    (fun errorMessage =>
       match type with
       | arranger_tasks => lift (getFallbackArrangerTasks E arrangementData)
       | tasks => lift (getFallbackTasks E arrangementData)
       | _ => throw ("Failed to generate " ++ docTypeName type ++ " document: "
                       ++ errorMessage)
       end).

End DocumentService.

(* ===================================================================== *)
(** ** server/storage.ts                                                  *)
(* ===================================================================== *)

Module Storage.

(** [.orderBy(desc(column))], as a stable insertion sort. *)
Fixpoint insert_desc {R} (key : R -> Z) (x : R) (l : list R) : list R :=
  match l with
  | [] => [x]
  | y :: rest => if key y >? key x then y :: insert_desc key x rest
                 else x :: l
  end.

Definition orderByDesc {R} (key : R -> Z) (l : list R) : list R :=
  fold_right (insert_desc key) [] l.

(** [const [row] = await db.select()...]: the first row, if any. *)
Definition first {R} (l : list R) : option R := hd_error l.

(** [db.update(table).set(...).where(...).returning()]: every row the
    condition holds of is replaced. *)
Definition update_where {R} (cond : R -> bool) (f : R -> R) (l : list R) : list R :=
  map (fun r => if cond r then f r else r) l.

Definition getUser (s : Store) (id : Z) : option User.t :=
  first (filter (fun u => User.id u =? id) (rows (users s))).

Definition getUserByEmail (s : Store) (email : string) : option User.t :=
  first (filter (fun u => String.eqb (User.email u) email) (rows (users s))).

Definition getAllUsers (s : Store) : list User.t :=
  orderByDesc User.createdAt (rows (users s)).

Definition setRole (role : string) (stamp : Z) (u : User.t) : User.t :=
  {| User.id := User.id u; User.email := User.email u;
     User.password := User.password u; User.name := User.name u;
     User.funeralHome := User.funeralHome u; User.role := role;
     User.createdAt := User.createdAt u; User.updatedAt := stamp;
     User.billingPeriodStart := User.billingPeriodStart u |}.

Definition setRoleAndBilling (role : string) (stamp : Z) (u : User.t) : User.t :=
  {| User.id := User.id u; User.email := User.email u;
     User.password := User.password u; User.name := User.name u;
     User.funeralHome := User.funeralHome u; User.role := role;
     User.createdAt := User.createdAt u; User.updatedAt := stamp;
     User.billingPeriodStart := stamp |}.

Definition with_users (s : Store) (t : Table User.t) : Store :=
  {| users := t; transcripts := transcripts s; arrangements := arrangements s;
     passwordResets := passwordResets s; documents := documents s;
     funeralTasks := funeralTasks s; userUsageMetrics := userUsageMetrics s;
     userBillingPeriods := userBillingPeriods s |}.

Definition with_arrangements (s : Store) (t : Table Arrangement.t) : Store :=
  {| users := users s; transcripts := transcripts s; arrangements := t;
     passwordResets := passwordResets s; documents := documents s;
     funeralTasks := funeralTasks s; userUsageMetrics := userUsageMetrics s;
     userBillingPeriods := userBillingPeriods s |}.

Definition with_passwordResets (s : Store) (t : Table PasswordReset.t) : Store :=
  {| users := users s; transcripts := transcripts s; arrangements := arrangements s;
     passwordResets := t; documents := documents s;
     funeralTasks := funeralTasks s; userUsageMetrics := userUsageMetrics s;
     userBillingPeriods := userBillingPeriods s |}.

Definition with_documents (s : Store) (t : Table Document.t) : Store :=
  {| users := users s; transcripts := transcripts s; arrangements := arrangements s;
     passwordResets := passwordResets s; documents := t;
     funeralTasks := funeralTasks s; userUsageMetrics := userUsageMetrics s;
     userBillingPeriods := userBillingPeriods s |}.

Definition with_funeralTasks (s : Store) (t : Table FuneralTask.t) : Store :=
  {| users := users s; transcripts := transcripts s; arrangements := arrangements s;
     passwordResets := passwordResets s; documents := documents s;
     funeralTasks := t; userUsageMetrics := userUsageMetrics s;
     userBillingPeriods := userBillingPeriods s |}.

Definition with_userUsageMetrics (s : Store) (t : Table UsageMetric.t) : Store :=
  {| users := users s; transcripts := transcripts s; arrangements := arrangements s;
     passwordResets := passwordResets s; documents := documents s;
     funeralTasks := funeralTasks s; userUsageMetrics := t;
     userBillingPeriods := userBillingPeriods s |}.

Definition with_userBillingPeriods (s : Store) (t : Table BillingPeriod.t) : Store :=
  {| users := users s; transcripts := transcripts s; arrangements := arrangements s;
     passwordResets := passwordResets s; documents := documents s;
     funeralTasks := funeralTasks s; userUsageMetrics := userUsageMetrics s;
     userBillingPeriods := t |}.

(** [updateUserRole]: the first of the updated rows, [undefined] when no
    row has the id. *)
Definition updateUserRole (E : Externals) (s : Store) (userId : Z) (role : string)
  : option User.t * Store :=
  let hit := fun u => User.id u =? userId in
  let rows' := update_where hit (setRole role (now E)) (rows (users s)) in
  (first (filter hit rows'), with_users s (with_rows (users s) rows')).

(** [getTranscriptsByUserId] without a [limit], as the modelled handler
    calls it. *)
Definition getTranscriptsByUserId (s : Store) (userId : Z) : list Transcript.t :=
  orderByDesc Transcript.uploadDate
    (filter (fun t => Transcript.userId t =? userId) (rows (transcripts s))).

Definition getTranscriptById (s : Store) (id userId : Z) : option Transcript.t :=
  first (filter (fun t => (Transcript.id t =? id) && (Transcript.userId t =? userId))
                (rows (transcripts s))).

Definition getArrangementById (s : Store) (id : Z) : option Arrangement.t :=
  first (filter (fun a => Arrangement.id a =? id) (rows (arrangements s))).

(** The [updates] of the approval: [{ approvalStatus, approvedAt }]. *)
Definition setApproval (status : string) (stamp : Z) (a : Arrangement.t)
  : Arrangement.t :=
  {| Arrangement.id := Arrangement.id a;
     Arrangement.transcriptId := Arrangement.transcriptId a;
     Arrangement.userId := Arrangement.userId a;
     Arrangement.extracted := Arrangement.extracted a;
     Arrangement.generatedDoc := Arrangement.generatedDoc a;
     Arrangement.docStatus := Arrangement.docStatus a;
     Arrangement.approvalStatus := status;
     Arrangement.approvedAt := Some stamp;
     Arrangement.aiProcessed := Arrangement.aiProcessed a;
     Arrangement.extractedData := Arrangement.extractedData a;
     Arrangement.createdAt := Arrangement.createdAt a;
     Arrangement.updatedAt := Arrangement.updatedAt a |}.

(** [updateArrangement(id, updates)]. *)
Definition updateArrangement (s : Store) (id : Z)
           (updates : Arrangement.t -> Arrangement.t)
  : option Arrangement.t * Store :=
  let hit := fun a => Arrangement.id a =? id in
  let rows' := update_where hit updates (rows (arrangements s)) in
  (first (filter hit rows'), with_arrangements s (with_rows (arrangements s) rows')).

Definition createPasswordReset (E : Externals) (s : Store)
           (email token : string) (expiresAt : Z) : PasswordReset.t * Store :=
  let (r, t) := insert_row (fun i =>
      {| PasswordReset.id := i; PasswordReset.email := email;
         PasswordReset.token := token; PasswordReset.expiresAt := expiresAt;
         PasswordReset.createdAt := now E |}) (passwordResets s) in
  (r, with_passwordResets s t).

(** [createDocument] for the columns the handlers give; [version] and the
    two timestamps take their defaults. *)
Definition createDocument (E : Externals) (s : Store) (arrangementId : Z)
           (type title : string) (content plainTextContent : option string)
           (status : string) : Document.t * Store :=
  let (r, t) := insert_row (fun i =>
      {| Document.id := i; Document.arrangementId := arrangementId;
         Document.type := type; Document.title := title;
         Document.content := content;
         Document.plainTextContent := plainTextContent;
         Document.status := status; Document.version := 1;
         Document.createdAt := now E; Document.updatedAt := now E |})
      (documents s) in
  (r, with_documents s t).

Definition getDocumentById (s : Store) (id : Z) : option Document.t :=
  first (filter (fun d => Document.id d =? id) (rows (documents s))).

(** [deleteDocument]: [db.delete(documents).where(eq(documents.id, id))]. *)
Definition deleteDocument (s : Store) (id : Z) : Store :=
  with_documents s
    (with_rows (documents s)
       (filter (fun d => negb (Document.id d =? id)) (rows (documents s)))).

Definition createTask (E : Externals) (s : Store) (arrangementId : Z)
           (type title : string) (description : option string)
           (priority : string) (dueDate : option Z) : FuneralTask.t * Store :=
  let (r, t) := insert_row (fun i =>
      {| FuneralTask.id := i; FuneralTask.arrangementId := arrangementId;
         FuneralTask.type := type; FuneralTask.title := title;
         FuneralTask.description := description;
         FuneralTask.priority := priority; FuneralTask.dueDate := dueDate;
         FuneralTask.completed := false; FuneralTask.completedAt := None;
         FuneralTask.assignedTo := None; FuneralTask.notes := None;
         FuneralTask.createdAt := now E |}) (funeralTasks s) in
  (r, with_funeralTasks s t).

(** [trackUsageMetric]. *)
Definition trackUsageMetric (E : Externals) (s : Store) (userId : Z)
           (metricType : string) : Store :=
  match getUser s userId with
  | None => s
  | Some user =>
      let (_, t) := insert_row (fun i =>
        {| UsageMetric.id := i; UsageMetric.userId := userId;
           UsageMetric.metricType := metricType; UsageMetric.metricValue := 1;
           UsageMetric.billingPeriodStart := User.billingPeriodStart user;
           UsageMetric.createdAt := now E |}) (userUsageMetrics s) in
      with_userUsageMetrics s t
  end.

Definition createBillingPeriod (E : Externals) (s : Store) (userId periodStart : Z)
           (role : string) : BillingPeriod.t * Store :=
  let (r, t) := insert_row (fun i =>
      {| BillingPeriod.id := i; BillingPeriod.userId := userId;
         BillingPeriod.periodStart := periodStart; BillingPeriod.periodEnd := None;
         BillingPeriod.role := role; BillingPeriod.transcriptsProcessed := 0;
         BillingPeriod.documentsGenerated := 0; BillingPeriod.isActive := true;
         BillingPeriod.createdAt := now E |}) (userBillingPeriods s) in
  (r, with_userBillingPeriods s t).

(** [updateUserRoleAndResetBilling]: throws ['User not found'] when the
    update returns no row. *)
Definition updateUserRoleAndResetBilling (E : Externals) (s : Store) (userId : Z)
           (newRole : string) : (Err + User.t) * Store :=
  let hit := fun u => User.id u =? userId in
  let rows' := update_where hit (setRoleAndBilling newRole (now E)) (rows (users s)) in
  let s1 := with_users s (with_rows (users s) rows') in
  match first (filter hit rows') with
  | None => (inl "User not found", s1)
  | Some updatedUser =>
      (inr updatedUser, snd (createBillingPeriod E s1 userId (now E) newRole))
  end.

Definition with_transcripts (s : Store) (t : Table Transcript.t) : Store :=
  {| users := users s; transcripts := t; arrangements := arrangements s;
     passwordResets := passwordResets s; documents := documents s;
     funeralTasks := funeralTasks s; userUsageMetrics := userUsageMetrics s;
     userBillingPeriods := userBillingPeriods s |}.

(** [deleteTranscript(id, userId)]: the rows that carry both the id and
    the owner. *)
Definition deleteTranscript (s : Store) (id userId : Z) : Store :=
  with_transcripts s
    (with_rows (transcripts s)
       (filter (fun t => negb ((Transcript.id t =? id) && (Transcript.userId t =? userId)))
               (rows (transcripts s)))).

Definition getPasswordReset (s : Store) (token : string) : option PasswordReset.t :=
  first (filter (fun r => String.eqb (PasswordReset.token r) token)
                (rows (passwordResets s))).

Definition deletePasswordReset (s : Store) (token : string) : Store :=
  with_passwordResets s
    (with_rows (passwordResets s)
       (filter (fun r => negb (String.eqb (PasswordReset.token r) token))
               (rows (passwordResets s)))).

Definition setPassword (hashedPassword : string) (u : User.t) : User.t :=
  {| User.id := User.id u; User.email := User.email u;
     User.password := hashedPassword; User.name := User.name u;
     User.funeralHome := User.funeralHome u; User.role := User.role u;
     User.createdAt := User.createdAt u; User.updatedAt := User.updatedAt u;
     User.billingPeriodStart := User.billingPeriodStart u |}.

(** [updateUserPassword]. *)
Definition updateUserPassword (s : Store) (userId : Z) (hashedPassword : string)
  : Store :=
  with_users s
    (with_rows (users s)
       (update_where (fun u => User.id u =? userId) (setPassword hashedPassword)
                     (rows (users s)))).

Record UsageStats := { transcriptsProcessed : Z; documentsGenerated : Z }.

(** [metrics.filter(m => m.metricType === t).reduce((sum, m) => sum +
    m.metricValue, 0)]. *)
Definition sumOfType (metricType : string) (metrics : list UsageMetric.t) : Z :=
  fold_left (fun sum m => sum + UsageMetric.metricValue m)
            (filter (fun m => String.eqb (UsageMetric.metricType m) metricType) metrics)
            0.

(** [getUserUsageStats(userId, startDate, endDate)]: [start] and [end]
    are computed and then not used; the rows are those of the billing
    period of the user. *)
Definition getUserUsageStats (E : Externals) (s : Store) (userId : Z)
           (startDate endDate : option Z) : UsageStats :=
  match getUser s userId with
  | None => {| transcriptsProcessed := 0; documentsGenerated := 0 |}
  | Some user =>
      let start := match startDate with
                   | Some d => d
                   | None => User.billingPeriodStart user
                   end in
      let end_ := match endDate with Some d => d | None => now E end in
      let metrics :=
        filter (fun m => (UsageMetric.userId m =? userId)
                         && (UsageMetric.billingPeriodStart m
                             =? User.billingPeriodStart user))
               (rows (userUsageMetrics s)) in
      {| transcriptsProcessed := sumOfType "transcript_processed" metrics;
         documentsGenerated := sumOfType "document_generated" metrics |}
  end.

End Storage.

(* ===================================================================== *)
(** ** server/routes.ts                                                   *)
(* ===================================================================== *)

Module Routes.
Import JsString.

(** *** Requests and responses *)

Inductive Method := GET | POST | PUT | PATCH | DELETE.

Definition method_eqb (a b : Method) : bool :=
  match a, b with
  | GET, GET | POST, POST | PUT, PUT | PATCH, PATCH | DELETE, DELETE => true
  | _, _ => false
  end.

(** A request: the segments of its path, the [Authorization] header, and
    the two fields the modelled handlers read from a JSON body, each
    absent or a string.  [params] and [user] are filled in by the router
    and by [authenticateToken]. *)
Record Request := {
  method : Method;
  path : list string;
  authorization : option string;
  body_email : option string;
  body_role : option string;
  params : list (string * string);
  user : option TokenPayload
}.

Record SafeUser := {
  su_id : Z; su_email : string; su_name : string;
  su_funeralHome : option string; su_role : string;
  su_createdAt : Z; su_updatedAt : Z
}.

Record FailedDocument := { failedType : string; failedError : string }.

Inductive Body :=
| JsonMessage (message : string)
| JsonSafeUser (u : SafeUser)
| JsonRoleUpdated (message : string) (u : User.t)
| JsonApproved (message : string) (docs : list Document.t)
               (failedDocuments : option (list FailedDocument))
               (arrangement : option Arrangement.t)
| JsonReconciled (message : string) (transcriptsBackfilled documentsBackfilled : Z)
| PdfAttachment (contentDisposition : string) (bytes : string).

Record Response := { status : nat; body : Body }.

Definition json (code : nat) (b : Body) : Response := {| status := code; body := b |}.

(** *** [parseInt] *)

Definition digit_value (radix : Z) (c : ascii) : option Z :=
  let n := Z.of_nat (nat_of_ascii c) in
  let v := if (48 <=? n) && (n <=? 57) then Some (n - 48)
           else if (97 <=? n) && (n <=? 122) then Some (n - 87)
           else if (65 <=? n) && (n <=? 90) then Some (n - 55)
           else None in
  match v with
  | Some d => if d <? radix then Some d else None
  | None => None
  end.

(** The longest prefix of digits of the radix, read from the left;
    [None] when there is no digit. *)
Fixpoint read_digits (radix : Z) (acc : option Z) (s : string) : option Z :=
  match s with
  | EmptyString => acc
  | String c s' =>
      match digit_value radix c with
      | Some d => read_digits radix
                    (Some (match acc with Some a => a * radix + d | None => d end)) s'
      | None => acc
      end
  end.

Definition read_unsigned (s : string) : option Z :=
  match s with
  | String "0"%char (String x rest) =>
      if Ascii.eqb x "x"%char || Ascii.eqb x "X"%char
      then read_digits 16 None rest
      else read_digits 10 None s
  | _ => read_digits 10 None s
  end.

(** [parseInt(s)] without a radix; [None] stands for [NaN]. *)
Definition parseInt (s : string) : option Z :=
  match trimStart s with
  | String "-"%char rest => option_map Z.opp (read_unsigned rest)
  | String "+"%char rest => read_unsigned rest
  | t => read_unsigned t
  end.

Definition param (req : Request) (name : string) : string :=
  match find (fun kv => String.eqb (fst kv) name) (params req) with
  | Some kv => snd kv
  | None => EmptyString
  end.

(** An id handed to the database: Postgres refuses [NaN] for an integer
    column, and the query throws. *)
Definition dbId (n : option Z) : M Z :=
  match n with
  | Some i => ret i
  | None => throw "invalid input syntax for type integer: NaN"
  end.

(** *** The middleware *)

Definition with_user (req : Request) (u : TokenPayload) : Request :=
  {| method := method req; path := path req;
     authorization := authorization req;
     body_email := body_email req; body_role := body_role req;
     params := params req; user := Some u |}.

Definition with_params (req : Request) (ps : list (string * string)) : Request :=
  {| method := method req; path := path req;
     authorization := authorization req;
     body_email := body_email req; body_role := body_role req;
     params := ps; user := user req |}.

(** A middleware answers, or calls [next()] on the request. *)
Definition Middleware := Externals -> Request -> Response + Request.

(** [authenticateToken]. *)
Definition authenticateToken : Middleware := fun E req =>
  let token := match authorization req with
               | None => None
               | Some authHeader =>
                   if String.eqb authHeader EmptyString then None
                   else nth_error (split " "%char authHeader) 1
               end in
  match token with
  | None => inl (json 401 (JsonMessage "Access token required"))
  | Some t =>
      if String.eqb t EmptyString
      then inl (json 401 (JsonMessage "Access token required"))
      else match jwt_verify E t with
           | None => inl (json 403 (JsonMessage "Invalid or expired token"))
           | Some u => inr (with_user req u)
           end
  end.

(** [requireAdmin]. *)
Definition requireAdmin : Middleware := fun _ req =>
  match user req with
  | Some u => if String.eqb (tokenRole u) "admin" then inr req
              else inl (json 403 (JsonMessage "Admin access required"))
  | None => inl (json 403 (JsonMessage "Admin access required"))
  end.

(** The [catch] that closes every handler:
    [res.status(500).json({ message: error.message })]. *)
Definition guarded (m : M Response) : M Response :=
  try_catch m (fun e => ret (json 500 (JsonMessage e))).

Definition liftS {A} (f : Store -> A * Store) : M A :=
  fun w => let (a, s) := f (store w) in
           (inr a, {| store := s; llmCalls := llmCalls w; outbox := outbox w |}).

Definition modifyStore (f : Store -> Store) : M unit :=
  liftS (fun s => (tt, f s)).

Definition reqUserId (req : Request) : M Z :=
  match user req with
  | Some u => ret (userId u)
  | None => throw "Cannot read properties of undefined (reading 'userId')"
  end.

(** *** POST /api/auth/forgot-password *)

(** [sendPasswordResetEmail] of [server/email.ts]: [false] when SendGrid
    is not configured or refuses the message; it never throws. *)
Definition sendPasswordResetEmail (E : Externals) (email resetToken : string)
  : M bool :=
  fun w =>
    if mail_accepted E email
    then (inr true, {| store := store w; llmCalls := llmCalls w;
                       outbox := (outbox w ++ [(email, resetToken)])%list |})
    else (inr false, w).

Definition genericResetMessage : string :=
  "If an account with that email exists, we've sent a password reset link.".

Definition forgotPassword (E : Externals) (req : Request) : M Response :=
  guarded
    match body_email req with
    | None => ret (json 400 (JsonMessage "Email is required"))
    | Some email =>
        if String.eqb email EmptyString
        then ret (json 400 (JsonMessage "Email is required"))
        else
          s <- getStore ;;
          match Storage.getUserByEmail s email with
          | Some u =>
              let resetToken := random_token E in
              let expiresAt := now E + 60 * 60 * 1000 in
              liftS (fun s => Storage.createPasswordReset E s (User.email u)
                                resetToken expiresAt) ;;;
              sendPasswordResetEmail E (User.email u) resetToken ;;;
              ret tt
          | None => ret tt
          end ;;;
          ret (json 200 (JsonMessage genericResetMessage))
    end.

(** *** PUT /api/admin/users/:id/role (first registration) *)

Definition safeUser (u : User.t) : SafeUser :=
  {| su_id := User.id u; su_email := User.email u; su_name := User.name u;
     su_funeralHome := User.funeralHome u; su_role := User.role u;
     su_createdAt := User.createdAt u; su_updatedAt := User.updatedAt u |}.

Definition validRoles : list string := ["user"; "premium"; "admin"].

(** [a === b] for the result of [parseInt] and a number. *)
Definition same_number (a : option Z) (b : Z) : bool :=
  match a with Some i => i =? b | None => false end.

Definition updateRole (E : Externals) (req : Request) : M Response :=
  guarded
    (let userId := parseInt (param req "id") in
     match body_role req with
     | None => ret (json 400 (JsonMessage "Valid role is required (user, premium, admin)"))
     | Some role =>
         if String.eqb role EmptyString || negb (existsb (String.eqb role) validRoles)
         then ret (json 400 (JsonMessage "Valid role is required (user, premium, admin)"))
         else
           me <- reqUserId req ;;
           if same_number userId me && negb (String.eqb role "admin")
           then ret (json 400 (JsonMessage "Cannot change your own admin role"))
           else
             id <- dbId userId ;;
             updatedUser <- liftS (fun s => Storage.updateUserRole E s id role) ;;
             match updatedUser with
             | None => throw "Cannot read properties of undefined (reading 'id')"
             | Some u => ret (json 200 (JsonSafeUser (safeUser u)))
             end
     end).

(** *** PUT /api/admin/users/:userId/role (second registration) *)

Definition updateRoleAndResetBilling (E : Externals) (req : Request) : M Response :=
  guarded
    (let userId := parseInt (param req "userId") in
     match body_role req with
     | None => ret (json 400 (JsonMessage "Role is required"))
     | Some role =>
         if String.eqb role EmptyString
         then ret (json 400 (JsonMessage "Role is required"))
         else
           id <- dbId userId ;;
           r <- liftS (fun s => Storage.updateUserRoleAndResetBilling E s id role) ;;
           updatedUser <- lift r ;;
           ret (json 200 (JsonRoleUpdated "User role updated and billing period reset"
                            updatedUser))
     end).

(** *** POST /api/arrangements/:id/approve *)

Definition documentTypes : list DocType :=
  [contract; summary; obituary; tasks; arranger_tasks; death_cert].

(** [getDocumentTitle] of [routes.ts]. *)
Definition getDocumentTitle (type : DocType) (arrangementData : value) : string :=
  match type with
  | contract => "Funeral Services Contract"
  | summary => "Arrangement Summary"
  | obituary => "Obituary Draft"
  | tasks => "Tasks List"
  | arranger_tasks => "Arranger Task List"
  | death_cert => "Death Certificate Information"
  end.

Definition toUpperCase (c : ascii) : ascii :=
  let n := nat_of_ascii c in
  if ((97 <=? n) && (n <=? 122))%nat then ascii_of_nat (n - 32) else c.

(** [type.charAt(0).toUpperCase() + type.slice(1)]. *)
Definition capitalize (s : string) : string :=
  match s with
  | EmptyString => EmptyString
  | String c rest => String (toUpperCase c) rest
  end.

(** [JSON.parse(arrangement.extractedData || '{}')]. *)
Definition parseExtractedData (E : Externals) (a : Arrangement.t) : M value :=
  let text := match Arrangement.extractedData a with
              | Some t => if String.eqb t EmptyString then "{}" else t
              | None => "{}"
              end in
  lift (json_parse E text).

(** [PDFService.generatePDF] of [server/pdfService.ts]: a request to the
    language model of its own, then the rendering. *)
Definition generatePDF (E : Externals) (type : DocType) (arrangementData : value)
           (transcriptContent : string) : M string :=
  textContent <- DocumentService.generateDocument E type arrangementData
                   transcriptContent None ;;
  lift (pdf_render E type textContent arrangementData).

Definition trackDocumentGenerated (E : Externals) (uid : Z) : M unit :=
  modifyStore (fun s => Storage.trackUsageMetric E s uid "document_generated").

(** What the loop has pushed to [generatedDocuments] and to
    [failedDocuments]. *)
Definition Outcome : Type := list Document.t * list FailedDocument.

(** The [try] block of the loop body; its value is the created row. *)
Definition generateWithPDF (E : Externals) (uid arrangementId : Z)
           (arrangement : Arrangement.t) (transcript : Transcript.t)
           (type : DocType) : M Document.t :=
  data <- parseExtractedData E arrangement ;;
  plainTextContent <- DocumentService.generateDocument E type data
                        (Transcript.content transcript) None ;;
  data <- parseExtractedData E arrangement ;;
  pdfBuffer <- generatePDF E type data (Transcript.content transcript) ;;
  let base64Content := base64_encode E pdfBuffer in
  data <- parseExtractedData E arrangement ;;
  document <- liftS (fun s => Storage.createDocument E s arrangementId
                       (docTypeName type) (getDocumentTitle type data)
                       (Some base64Content) (Some plainTextContent) "generated") ;;
  trackDocumentGenerated E uid ;;;
  ret document.

(** The [try] block inside the [catch]: the text-only document. *)
Definition generateTextOnly (E : Externals) (uid arrangementId : Z)
           (arrangement : Arrangement.t) (transcript : Transcript.t)
           (type : DocType) : M Document.t :=
  data <- parseExtractedData E arrangement ;;
  textContent <- DocumentService.generateDocument E type data
                   (Transcript.content transcript) None ;;
  document <- liftS (fun s => Storage.createDocument E s arrangementId
                       (docTypeName type)
                       (capitalize (docTypeName type) ++ " Document (Text)")
                       (Some (base64_encode E textContent)) None "generated") ;;
  trackDocumentGenerated E uid ;;;
  ret document.

(** One turn of [for (const type of documentTypes)].  Nothing throws
    between a [push] and the end of its block, so the two arrays are
    threaded as values. *)
Definition approveOne (E : Externals) (uid arrangementId : Z)
           (arrangement : Arrangement.t) (transcript : Transcript.t)
           (acc : Outcome) (type : DocType) : M Outcome :=
  try_catch
    (document <- generateWithPDF E uid arrangementId arrangement transcript type ;;
     ret ((fst acc ++ [document])%list, snd acc))
    (fun error =>
       let failed := (snd acc ++ [{| failedType := docTypeName type;
                                     failedError := error |}])%list in
       try_catch
         (document <- generateTextOnly E uid arrangementId arrangement transcript type ;;
          ret ((fst acc ++ [document])%list, failed))
         (fun fallbackError => ret (fst acc, failed))).

Fixpoint approveLoop (E : Externals) (uid arrangementId : Z)
         (arrangement : Arrangement.t) (transcript : Transcript.t)
         (types : list DocType) (acc : Outcome) : M Outcome :=
  match types with
  | [] => ret acc
  | type :: rest =>
      acc' <- approveOne E uid arrangementId arrangement transcript acc type ;;
      approveLoop E uid arrangementId arrangement transcript rest acc'
  end.

(** [arrangementData: arrangement.extractedData]: the column itself, a
    string or [null], not its parse. *)
Definition rawExtractedData (a : Arrangement.t) : value :=
  match Arrangement.extractedData a with
  | Some t => Str t
  | None => Null
  end.

(** The block after the loop: one task record, its failure only logged. *)
Definition createFollowUpTask (E : Externals) (arrangementId : Z)
           (arrangement : Arrangement.t) (transcript : Transcript.t) : M unit :=
  try_catch
    (tasksContent <- DocumentService.generateDocument E tasks
                       (rawExtractedData arrangement)
                       (Transcript.content transcript) None ;;
     liftS (fun s => Storage.createTask E s arrangementId "task"
                       "Complete Funeral Arrangements" (Some tasksContent) "high"
                       (Some (now E + 7 * 24 * 60 * 60 * 1000))) ;;;
     ret tt)
    (fun error => ret tt).

(** [await storage.updateArrangement(arrangementId, { approvalStatus:
    'approved', approvedAt: new Date() })]. *)
Definition markApproved (E : Externals) (arrangementId : Z) : M unit :=
  liftS (fun s => Storage.updateArrangement s arrangementId
                    (Storage.setApproval "approved" (now E))) ;;;
  ret tt.

(** [l.length > 0 ? l : undefined]. *)
Definition unlessEmpty {A} (l : list A) : option (list A) :=
  match l with
  | [] => None
  | _ :: _ => Some l
  end.

(** What the handler does once the arrangement is marked: the loop over
    the document types, the task record, the answer. *)
Definition generateAll (E : Externals) (uid arrangementId : Z)
           (arrangement : Arrangement.t) (transcript : Transcript.t) : M Response :=
  out <- approveLoop E uid arrangementId arrangement transcript
           documentTypes ([], []) ;;
  createFollowUpTask E arrangementId arrangement transcript ;;;
  s' <- getStore ;;
  ret (json 200
         (JsonApproved "Arrangement approved and documents generated"
            (fst out) (unlessEmpty (snd out))
            (Storage.getArrangementById s' arrangementId))).

Definition approve (E : Externals) (req : Request) : M Response :=
  guarded
    (arrangementId <- dbId (parseInt (param req "id")) ;;
     s <- getStore ;;
     match Storage.getArrangementById s arrangementId with
     | None => ret (json 404 (JsonMessage "Arrangement not found"))
     | Some arrangement =>
         uid <- reqUserId req ;;
         match Storage.getTranscriptById s (Arrangement.transcriptId arrangement) uid with
         | None => ret (json 404 (JsonMessage "Transcript not found"))
         | Some transcript =>
             markApproved E arrangementId ;;;
             generateAll E uid arrangementId arrangement transcript
         end
     end).

(** *** GET /api/documents/:id/download *)

Definition download (E : Externals) (req : Request) : M Response :=
  guarded
    (documentId <- dbId (parseInt (param req "id")) ;;
     s <- getStore ;;
     match Storage.getDocumentById s documentId with
     | None => ret (json 404 (JsonMessage "Document not found"))
     | Some document =>
         let pdfBuffer :=
           base64_decode E (match Document.content document with
                            | Some c => c
                            | None => EmptyString
                            end) in
         ret (json 200
                (PdfAttachment
                   ("attachment; filename=" ++ DocumentService.dq
                      ++ Document.title document ++ ".pdf" ++ DocumentService.dq)
                   pdfBuffer))
     end).

(** *** DELETE /api/documents/:id *)

Definition deleteDocument (E : Externals) (req : Request) : M Response :=
  guarded
    (documentId <- dbId (parseInt (param req "id")) ;;
     modifyStore (fun s => Storage.deleteDocument s documentId) ;;;
     ret (json 200 (JsonMessage "Document deleted successfully"))).

(** *** POST /api/admin/reconcile-metrics *)

(** [transcripts.filter(t => t.status === 'processed')] on the result of
    [getTranscriptsByUserId]. *)
Definition processedTranscripts (s : Store) (u : User.t) : list Transcript.t :=
  filter (fun t => String.eqb (Transcript.status t) "processed")
         (Storage.getTranscriptsByUserId s (User.id u)).

(** The identifier [db] in [routes.ts].  The file imports [storage], the
    insertion schemas, the services and the libraries; it imports neither
    [db] nor [eq], [and] and the table objects, and declares none of
    them.  Evaluating [db] throws a [ReferenceError]. *)
Definition db {A} : M A := throw "db is not defined".

(** One turn of [for (const user of users)]; the pair counts the rows
    backfilled so far.  The turn reads the transcripts of the user and
    ends at [await db.select()...]: what follows in the body, the two
    loops over [storage.trackUsageMetric] and the second query, is never
    evaluated. *)
Definition reconcileUser (E : Externals) (totals : Z * Z) (u : User.t) : M (Z * Z) :=
  s <- getStore ;;
  let processed := processedTranscripts s u in
  db.

Fixpoint reconcileLoop (E : Externals) (l : list User.t) (totals : Z * Z)
  : M (Z * Z) :=
  match l with
  | [] => ret totals
  | u :: rest => totals' <- reconcileUser E totals u ;;
                 reconcileLoop E rest totals'
  end.

Definition reconcileMetrics (E : Externals) (req : Request) : M Response :=
  guarded
    (s <- getStore ;;
     totals <- reconcileLoop E (Storage.getAllUsers s) (0, 0) ;;
     ret (json 200 (JsonReconciled "Historical usage metrics reconciled successfully"
                      (fst totals) (snd totals)))).

(** *** The routes, in the order [registerRoutes] registers them *)

Definition Handler := Externals -> Request -> M Response.

(** A route: its method and path, its middleware, and its handler when
    the handler is modelled here. *)
Record Route := {
  r_method : Method;
  r_path : string;
  r_guards : list Middleware;
  r_handler : option Handler
}.

Definition route (m : Method) (p : string) (g : list Middleware)
           (h : option Handler) : Route :=
  {| r_method := m; r_path := p; r_guards := g; r_handler := h |}.

Definition auth : list Middleware := [authenticateToken].
Definition admin : list Middleware := [authenticateToken; requireAdmin].

Definition routeTable : list Route := [
  route POST "/api/auth/register" [] None;
  route POST "/api/auth/login" [] None;
  route GET "/api/auth/me" auth None;
  route POST "/api/auth/forgot-password" [] (Some forgotPassword);
  route POST "/api/auth/reset-password" [] None;
  route PUT "/api/auth/profile" auth None;
  route PUT "/api/auth/password" auth None;
  route GET "/api/admin/users" admin None;
  route PUT "/api/admin/users/:id/role" admin (Some updateRole);
  route GET "/api/transcripts" auth None;
  route POST "/api/transcripts/upload" auth None;
  route GET "/api/transcripts/:id" auth None;
  route DELETE "/api/transcripts/:id" auth None;
  route GET "/api/transcripts/search" auth None;
  route GET "/api/dashboard/stats" auth None;
  route GET "/api/dashboard/recent" auth None;
  route POST "/api/transcripts/:id/process" auth None;
  route GET "/api/arrangements/:transcriptId" auth None;
  route GET "/api/transcripts/:id/arrangement" auth None;
  route PUT "/api/transcripts/:id/arrangement" auth None;
  route PUT "/api/arrangements/:transcriptId" auth None;
  route POST "/api/arrangements/:id/approve" auth (Some approve);
  route POST "/api/arrangements/:id/regenerate-all" auth None;
  route GET "/api/arrangements/:id/documents" auth None;
  route GET "/api/documents/:id/content" auth None;
  route GET "/api/documents/:id/download" auth (Some download);
  route GET "/api/arrangements/:id/tasks" auth None;
  route POST "/api/documents/generate" auth None;
  route PATCH "/api/documents/:id" auth None;
  route DELETE "/api/documents/:id" auth (Some deleteDocument);
  route PATCH "/api/tasks/:id" auth None;
  route POST "/api/documents/enhanced-pdf" auth None;
  route POST "/api/documents/enhanced-pdf-from-text" auth None;
  route POST "/api/documents/generate-markdown" auth None;
  route POST "/api/admin/reconcile-metrics" admin (Some reconcileMetrics);
  route GET "/api/analytics/user/:userId/stats" auth None;
  route GET "/api/analytics/user/:userId/trends" auth None;
  route GET "/api/analytics/admin/all-users" admin None;
  route PUT "/api/admin/users/:userId/role" admin (Some updateRoleAndResetBilling)
].

(** The segments of a path written with slashes. *)
Definition segments (p : string) : list string :=
  filter (fun s => negb (String.eqb s EmptyString)) (split "/"%char p).

(** Matching the segments of a route against those of a request: a
    segment [:name] binds any segment, another one has to be equal. *)
Fixpoint matchPath (pattern actual : list string) : option (list (string * string)) :=
  match pattern, actual with
  | [], [] => Some []
  | p :: ps, a :: rest =>
      match p with
      | String ":"%char name =>
          option_map (cons (name, a)) (matchPath ps rest)
      | _ => if String.eqb p a then matchPath ps rest else None
      end
  | _, _ => None
  end.

Definition matches (req : Request) (r : Route) : bool :=
  method_eqb (method req) (r_method r)
  && is_some (matchPath (segments (r_path r)) (path req)).

Fixpoint runGuards (E : Externals) (gs : list Middleware) (req : Request)
  : Response + Request :=
  match gs with
  | [] => inr req
  | g :: rest => match g E req with
                 | inl resp => inl resp
                 | inr req' => runGuards E rest req'
                 end
  end.

(** The answer of a handler; an exception that escapes one would reach
    the default error handler of Express. *)
Definition respond (m : M Response) (w : World) : Response * World :=
  match m w with
  | (inr r, w') => (r, w')
  | (inl e, w') => (json 500 (JsonMessage e), w')
  end.

(** Express serves a request with the first route that matches it; no
    modelled handler calls [next()].  [None] when no route matches or the
    handler of the route is not modelled. *)
Definition serve (E : Externals) (req : Request) (w : World)
  : option (Response * World) :=
  match find (matches req) routeTable with
  | None => None
  | Some r =>
      let req := with_params req
                   (match matchPath (segments (r_path r)) (path req) with
                    | Some ps => ps
                    | None => []
                    end) in
      match runGuards E (r_guards r) req with
      | inl resp => Some (resp, w)
      | inr req' =>
          match r_handler r with
          | Some h => Some (respond (h E req') w)
          | None => None
          end
      end
  end.

End Routes.

(* ===================================================================== *)
(** ** server/routes.ts: three more handlers                              *)
(* ===================================================================== *)

(** The deletion of a transcript, the reset of a password and the
    regeneration of the documents.  What a handler reads from the body
    beyond the fields of [Request], and the libraries it calls beyond
    [Externals], are arguments. *)
Module Handlers.
Import JsString Routes.

(** *** DELETE /api/transcripts/:id *)

(** The range of the integer columns of [shared/schema.ts] ([serial],
    [integer]). *)
Definition int4 (i : Z) : bool := (-2147483648 <=? i) && (i <=? 2147483647).

(** A value bound to a parameter that is compared with an integer
    column: Postgres refuses one outside the range of the column and the
    query throws; [outOfRange i] is the message of that error. *)
Definition integerParameter (outOfRange : Z -> Err) (i : Z) : M Z :=
  if int4 i then ret i else throw (outOfRange i).

(** The arguments of [storage.deleteTranscript] are evaluated first; the
    query refuses [NaN] and the values out of range afterwards, the id of
    the transcript before the id of the user. *)
Definition deleteTranscript (E : Externals) (outOfRange : Z -> Err) (req : Request)
  : M Response :=
  guarded
    (let id := parseInt (param req "id") in
     uid <- reqUserId req ;;
     id <- dbId id ;;
     id <- integerParameter outOfRange id ;;
     uid <- integerParameter outOfRange uid ;;
     modifyStore (fun s => Storage.deleteTranscript s id uid) ;;;
     ret (json 200 (JsonMessage "Transcript deleted successfully"))).

(** *** POST /api/auth/reset-password *)

(** [token] and [password] are the two fields of the body, each absent or
    a string; [bcrypt_hash] is [bcrypt.hash(password, 10)]. *)
Definition resetPassword (E : Externals) (bcrypt_hash : string -> string)
           (token password : option string) : M Response :=
  guarded
    match token, password with
    | Some token, Some password =>
        if String.eqb token EmptyString || String.eqb password EmptyString
        then ret (json 400 (JsonMessage "Token and password are required"))
        else
          s <- getStore ;;
          match Storage.getPasswordReset s token with
          | None => ret (json 400 (JsonMessage "Invalid or expired reset token"))
          | Some resetRecord =>
              if now E >? PasswordReset.expiresAt resetRecord
              then ret (json 400 (JsonMessage "Invalid or expired reset token"))
              else
                match Storage.getUserByEmail s (PasswordReset.email resetRecord) with
                | None => ret (json 400 (JsonMessage "User not found"))
                | Some user =>
                    let hashedPassword := bcrypt_hash password in
                    modifyStore (fun s => Storage.updateUserPassword s (User.id user)
                                            hashedPassword) ;;;
                    modifyStore (fun s => Storage.deletePasswordReset s token) ;;;
                    ret (json 200 (JsonMessage "Password has been reset successfully"))
                end
          end
    | _, _ => ret (json 400 (JsonMessage "Token and password are required"))
    end.

(** *** POST /api/arrangements/:id/regenerate-all *)

(** [ImprovedPDFService.generatePDF]: a request to the language model of
    its own, then [createEnhancedPDF], whose bytes or exception [render]
    gives. *)
Definition improvedGeneratePDF (E : Externals)
           (render : DocType -> string -> value -> Err + string)
           (type : DocType) (arrangementData : value) (transcriptContent : string)
  : M string :=
  textContent <- DocumentService.generateDocument E type arrangementData
                   transcriptContent None ;;
  lift (render type textContent arrangementData).

(** The [try] block of the loop body; its value is the created row. *)
Definition regenerateOne (E : Externals)
           (render : DocType -> string -> value -> Err + string)
           (uid arrangementId : Z) (arrangement : Arrangement.t)
           (transcript : Transcript.t) (type : DocType) : M Document.t :=
  data <- parseExtractedData E arrangement ;;
  plainTextContent <- DocumentService.generateDocument E type data
                        (Transcript.content transcript) None ;;
  data <- parseExtractedData E arrangement ;;
  pdfBuffer <- improvedGeneratePDF E render type data (Transcript.content transcript) ;;
  let base64Content := base64_encode E pdfBuffer in
  data <- parseExtractedData E arrangement ;;
  document <- liftS (fun s => Storage.createDocument E s arrangementId
                       (docTypeName type) (getDocumentTitle type data)
                       (Some base64Content) (Some plainTextContent) "generated") ;;
  trackDocumentGenerated E uid ;;;
  ret document.

(** The loop: a type that fails is logged and passed over. *)
Fixpoint regenerateLoop (E : Externals)
         (render : DocType -> string -> value -> Err + string)
         (uid arrangementId : Z) (arrangement : Arrangement.t)
         (transcript : Transcript.t) (types : list DocType)
         (generatedDocuments : list Document.t) : M (list Document.t) :=
  match types with
  | [] => ret generatedDocuments
  | type :: rest =>
      generatedDocuments <-
        try_catch
          (document <- regenerateOne E render uid arrangementId arrangement
                         transcript type ;;
           ret (generatedDocuments ++ [document])%list)
          (fun error => ret generatedDocuments) ;;
      regenerateLoop E render uid arrangementId arrangement transcript rest
        generatedDocuments
  end.

(** The answer [{ message, documents }] has neither [failedDocuments] nor
    [arrangement]. *)
Definition regenerateAll (E : Externals)
           (render : DocType -> string -> value -> Err + string)
           (req : Request) : M Response :=
  guarded
    (arrangementId <- dbId (parseInt (param req "id")) ;;
     s <- getStore ;;
     match Storage.getArrangementById s arrangementId with
     | None => ret (json 404 (JsonMessage "Arrangement not found"))
     | Some arrangement =>
         uid <- reqUserId req ;;
         match Storage.getTranscriptById s (Arrangement.transcriptId arrangement) uid with
         | None => ret (json 404 (JsonMessage "Transcript not found"))
         | Some transcript =>
             generatedDocuments <-
               regenerateLoop E render uid arrangementId arrangement transcript
                 documentTypes [] ;;
             ret (json 200 (JsonApproved "All documents regenerated successfully"
                              generatedDocuments None None))
         end
     end).

End Handlers.

(* ===================================================================== *)
(** ** server/improvedPdfService.ts: the direct-draw layout engine        *)
(* ===================================================================== *)

Module ImprovedLayout.
Import JsString ImprovedPDF.
Local Open Scope Q_scope.

Inductive FontStyle := normal | boldface | italicface | bolditalic.

(** What the layout asks of [jsPDF]: the width of a text in the current
    font, and the wrapping of a text to a width. *)
Record Canvas := {
  getTextWidth : FontStyle -> Q -> string -> Q;
  splitTextToSize : FontStyle -> Q -> string -> Q -> list string
}.

(** The calls made on the document, in order. *)
Inductive Op :=
| AddPage
| SetFontSize (size : Q)
| SetFont (style : FontStyle)
| SetLineWidth (width : Q)
| Text (lines : list string) (x y : Q)
| Line (x1 y1 x2 y2 : Q).

(** The document: the calls made so far, the current font and size. *)
Record Doc := { ops : list Op; font : FontStyle; fontSize : Q }.

Definition emit (o : Op) (d : Doc) : Doc :=
  {| ops := (ops d ++ [o])%list; font := font d; fontSize := fontSize d |}.

Definition setFontSize (s : Q) (d : Doc) : Doc :=
  {| ops := (ops d ++ [SetFontSize s])%list; font := font d; fontSize := s |}.

Definition setFont (f : FontStyle) (d : Doc) : Doc :=
  {| ops := (ops d ++ [SetFont f])%list; font := f; fontSize := fontSize d |}.

Definition textWidth (C : Canvas) (d : Doc) (s : string) : Q :=
  getTextWidth C (font d) (fontSize d) s.

(** [a > b] on numbers. *)
Definition gt (a b : Q) : bool := negb (Qle_bool a b).

Record Segment := {
  text : string; segBold : bool; segItalic : bool; segUnderline : bool
}.

Definition plainSegment (t : string) : Segment :=
  {| text := t; segBold := false; segItalic := false; segUnderline := false |}.
Definition boldSegment (t : string) : Segment :=
  {| text := t; segBold := true; segItalic := false; segUnderline := false |}.

Definition is_star (c : ascii) : bool := Ascii.eqb c "*"%char.

Fixpoint take_while (p : ascii -> bool) (s : string) : string :=
  match s with
  | EmptyString => EmptyString
  | String c s' => if p c then String c (take_while p s') else EmptyString
  end.

(** The capture of [/\*\*([^*]+)\*\*/] when it matches at the start of
    [s]: two stars, every following character that is not a star (one at
    least), two stars. *)
Definition bold_here (s : string) : option string :=
  match s with
  | String a (String b rest) =>
      if is_star a && is_star b then
        let cap := take_while (fun c => negb (is_star c)) rest in
        match cap, drop_while (fun c => negb (is_star c)) rest with
        | String _ _, String x (String y _) =>
            if is_star x && is_star y then Some cap else None
        | _, _ => None
        end
      else None
  | _ => None
  end.

(** The text between two matches, pushed when it is not blank. *)
Definition flush (before_rev : string) : list Segment :=
  let t := rev_string EmptyString before_rev in
  if String.eqb (trim t) EmptyString then [] else [plainSegment t].

(** The loop [while ((match = boldRegex.exec(text)) !== null)] and the
    remainder after it, as one scan: [skip] characters of the match under
    way are still to pass, [before_rev] is the text since the last match,
    reversed. *)
Fixpoint scanBold (skip : nat) (before_rev : string) (s : string) : list Segment :=
  match s with
  | EmptyString => flush before_rev
  | String c s' =>
      match skip with
      | S k => scanBold k before_rev s'
      | O =>
          match bold_here s with
          | Some cap =>
              (flush before_rev ++ boldSegment cap
                 :: scanBold (String.length cap + 3) EmptyString s')%list
          | None => scanBold O (String c before_rev) s'
          end
      end
  end.

(** [parseInlineFormatting]. *)
Definition parseInlineFormatting (t : string) : list Segment :=
  match scanBold O EmptyString t with
  | [] => if String.eqb (trim t) EmptyString then [] else [plainSegment t]
  | segments => segments
  end.

(** The position of [renderFormattedText] and the document. *)
Record Pen := { currentX : Q; currentY : Q; doc : Doc }.

Definition segmentFont (seg : Segment) : FontStyle :=
  if segBold seg && segItalic seg then bolditalic
  else if segBold seg then boldface
  else if segItalic seg then italicface
  else normal.

(** The body of the loop over the words of a segment. *)
Definition renderWord (C : Canvas) (startX maxWidth lineHeight : Q)
           (seg : Segment) (word : string) (last : bool) (p : Pen) : Pen :=
  let fullWord := if last then word else (word ++ " ")%string in
  let wordWidth := textWidth C (doc p) fullWord in
  let wrap := gt (currentX p + wordWidth) (startX + maxWidth)
              && gt (currentX p) startX in
  let y := if wrap then currentY p + lineHeight else currentY p in
  let x := if wrap then startX else currentX p in
  let d := emit (Text [word] x y) (doc p) in
  let d := if segUnderline seg
           then emit (Line x (y + 1) (x + textWidth C d word) (y + 1)) d
           else d in
  let x := x + textWidth C d word in
  let x := if last then x else x + textWidth C d " " in
  {| currentX := x; currentY := y; doc := d |}.

Fixpoint renderWords (C : Canvas) (startX maxWidth lineHeight : Q)
         (seg : Segment) (ws : list string) (p : Pen) : Pen :=
  match ws with
  | [] => p
  | w :: rest =>
      renderWords C startX maxWidth lineHeight seg rest
        (renderWord C startX maxWidth lineHeight seg w
           (match rest with [] => true | _ => false end) p)
  end.

Definition renderSegment (C : Canvas) (startX maxWidth lineHeight : Q)
           (p : Pen) (seg : Segment) : Pen :=
  if String.eqb (trim (text seg)) EmptyString then p
  else
    let p := {| currentX := currentX p; currentY := currentY p;
                doc := setFont (segmentFont seg) (doc p) |} in
    renderWords C startX maxWidth lineHeight seg (words (text seg)) p.

(** [renderFormattedText]: the document after it and the [currentY] it
    returns. *)
Definition renderFormattedText (C : Canvas) (d : Doc) (segments : list Segment)
           (startX maxWidth yPosition lineHeight : Q) : Doc * Q :=
  let p := fold_left (renderSegment C startX maxWidth lineHeight) segments
             {| currentX := startX; currentY := yPosition; doc := d |} in
  (doc p, currentY p).

Definition lineHeight : Q := 15.
Definition bottomMargin : Q := 80.

(** [item.styles?.fontSize || 14]. *)
Definition headerFontSize (item : ParsedContent) : Q :=
  match styles item with
  | Some st => match ImprovedPDF.fontSize st with
               | Some O | None => 14
               | Some n => inject_Z (Z.of_nat n)
               end
  | None => 14
  end.

(** The test at the top of the loop body of [addFormattedContent]. *)
Definition needsNewPage (pageHeight yPosition : Q) : bool :=
  gt yPosition (pageHeight - bottomMargin).

Definition breakPage (margin pageHeight : Q) (st : Q * Doc) : Q * Doc :=
  if needsNewPage pageHeight (fst st)
  then (margin + 20, emit AddPage (snd st))
  else st.

(** The [switch (item.type)] of the loop body. *)
Definition placeItem (C : Canvas) (margin contentWidth : Q)
           (st : Q * Doc) (item : ParsedContent) : Q * Doc :=
  let (yPosition, d) := st in
  match ImprovedPDF.type item with
  | header =>
      let yPosition := yPosition + 15 in
      let d := setFont boldface (setFontSize (headerFontSize item) d) in
      let headerLines :=
        splitTextToSize C (font d) (fontSize d) (content item) contentWidth in
      let d := emit (Text headerLines margin yPosition) d in
      (yPosition + inject_Z (Z.of_nat (List.length headerLines)) * lineHeight + 15, d)
  | separator =>
      let yPosition := yPosition + 8 in
      let d := emit (SetLineWidth (1 # 2)) d in
      let d := emit (Line margin yPosition (margin + contentWidth) yPosition) d in
      (yPosition + 20, d)
  | list_item =>
      let d := setFontSize 11 d in
      let listSegments := parseInlineFormatting (content item) in
      let d := setFont normal d in
      let d := emit (Text ["•"%string] (margin + 10) yPosition) d in
      let (d, _) := renderFormattedText C d listSegments (margin + 25)
                      (contentWidth - 25) yPosition lineHeight in
      (yPosition + (lineHeight + 3), d)
  | paragraph =>
      let d := setFontSize 11 d in
      let segments := parseInlineFormatting (content item) in
      let (d, newY) := renderFormattedText C d segments margin contentWidth
                         yPosition lineHeight in
      (newY + 12, d)
  | bold | italic => (yPosition, d)
  end.

Definition layoutItem (C : Canvas) (margin contentWidth pageHeight : Q)
           (st : Q * Doc) (item : ParsedContent) : Q * Doc :=
  placeItem C margin contentWidth (breakPage margin pageHeight st) item.

(** [addFormattedContent]: the [yPosition] it returns and the document. *)
Definition addFormattedContent (C : Canvas) (d : Doc)
           (parsedContent : list ParsedContent)
           (margin contentWidth startY pageHeight : Q) : Q * Doc :=
  fold_left (layoutItem C margin contentWidth pageHeight) parsedContent (startY, d).

(** *** The quantities the specification speaks of *)

Definition isAddPage (o : Op) : bool :=
  match o with AddPage => true | _ => false end.

(** The page breaks of a stream of calls. *)
Definition pageBreaks (l : list Op) : nat := List.length (filter isAddPage l).

(** The [y] of every text placed. *)
Fixpoint placedYs (l : list Op) : list Q :=
  match l with
  | [] => []
  | Text _ _ y :: rest => y :: placedYs rest
  | _ :: rest => placedYs rest
  end.

Definition freshDoc : Doc := {| ops := []; font := normal; fontSize := 10 |}.

(** The height an item takes: how far it moves the cursor. *)
Definition itemHeight (C : Canvas) (margin contentWidth : Q) (item : ParsedContent) : Q :=
  fst (placeItem C margin contentWidth (0, freshDoc) item).

Definition totalHeight (C : Canvas) (margin contentWidth : Q)
           (items : list ParsedContent) : Q :=
  fold_right (fun item acc => itemHeight C margin contentWidth item + acc) 0 items.

(** The cursor at which each item starts, after the test for a new page. *)
Fixpoint startCursors (C : Canvas) (margin contentWidth pageHeight : Q)
         (st : Q * Doc) (items : list ParsedContent) : list Q :=
  match items with
  | [] => []
  | item :: rest =>
      fst (breakPage margin pageHeight st)
        :: startCursors C margin contentWidth pageHeight
             (layoutItem C margin contentWidth pageHeight st item) rest
  end.

(** The cursor with which each item arrives at the test. *)
Fixpoint arrivals (C : Canvas) (margin contentWidth pageHeight : Q)
         (st : Q * Doc) (items : list ParsedContent) : list Q :=
  match items with
  | [] => []
  | item :: rest =>
      fst st :: arrivals C margin contentWidth pageHeight
                  (layoutItem C margin contentWidth pageHeight st item) rest
  end.

(** The pagination property as the specification words it: when the
    total height exceeds one page, the page breaks number
    [ceil(total_height / page_height)] and no text is placed below the
    content height less the bottom margin. *)
Definition paginatesAsSpecified (C : Canvas) (items : list ParsedContent)
           (margin contentWidth startY pageHeight : Q) : Prop :=
  pageHeight < totalHeight C margin contentWidth items ->
  let out := ops (snd (addFormattedContent C freshDoc items margin contentWidth
                         startY pageHeight)) in
  Z.of_nat (pageBreaks out)
    = Qceiling (totalHeight C margin contentWidth items / pageHeight)
  /\ Forall (fun y => y <= pageHeight - bottomMargin) (placedYs out).

(** *** A concrete canvas and page *)

(** Every character six points wide, and no wrapping of headers. *)
Definition monospace : Canvas :=
  {| getTextWidth := fun _ _ s => 6 * inject_Z (Z.of_nat (String.length s));
     splitTextToSize := fun _ _ t _ => [t] |}.

(** The A4 page of [createEnhancedPDF], in points, and the cursor that
    [addDocumentHeader] returns when there is no name to print. *)
Definition a4Width : Q := 59528 # 100.
Definition a4Height : Q := 84189 # 100.
Definition pageMargin : Q := 50.
Definition a4ContentWidth : Q := a4Width - pageMargin * 2.
Definition headerEnd : Q := pageMargin + 20 + 30 + 20 + 20.

Definition listItem (t : string) : ParsedContent :=
  {| ImprovedPDF.type := list_item; level := None; content := t;
     styles := Some {| ImprovedPDF.fontSize := Some 11%nat; styleBold := None |} |}.

Definition fiftyItems : list ParsedContent := repeat (listItem "item") 50.

Definition longWord : string := "Lorem-ipsum-dolor-sit-amet-consectetur-adipiscing-elit".

(** One paragraph of sixty words, each more than half a line wide. *)
Definition longParagraph : list ParsedContent :=
  [{| ImprovedPDF.type := paragraph; level := None;
      content := join " " (repeat longWord 60);
      styles := Some {| ImprovedPDF.fontSize := Some 11%nat; styleBold := None |} |}].

(** *** The name printed in the header *)

(** [getDeceasedName]: the four parts go through a template literal, so a
    part that is missing is printed as the word [undefined], and a part
    that cannot be converted to a string ends the function with its
    [TypeError]. *)
Definition getDeceasedName (arrangementData : value) : Err + string :=
  let deceasedName :=
    optGet (optGet (optGet arrangementData "arrangement") "basic_information")
           "deceased_name" in
  if negb (truthy deceasedName) then inr EmptyString
  else
    match toString (optGet deceasedName "first") with
    | inl e => inl e
    | inr first =>
    match toString (optGet deceasedName "middle") with
    | inl e => inl e
    | inr middle =>
    match toString (optGet deceasedName "last") with
    | inl e => inl e
    | inr last =>
    match toString (optGet deceasedName "suffix") with
    | inl e => inl e
    | inr suffix =>
        inr (trim (first ++ " " ++ middle ++ " " ++ last ++ " " ++ suffix))
    end end end end.

End ImprovedLayout.

(* ===================================================================== *)
(** ** server/pdfService.ts: the sections and the layout of PDFService    *)
(* ===================================================================== *)

Module PlainPDF.
Import JsString ImprovedLayout.
Local Open Scope Q_scope.

(** *** parseSections *)

Record DocSection := { title : string; content : string }.

(** [/^[A-Z][A-Za-z\s]+$/]. *)
Definition titleCase (s : string) : bool :=
  match s with
  | String c (String d rest) =>
      is_upper c && all_chars (fun x => is_letter x || is_space x) (String d rest)
  | _ => false
  end.

(** The test for a line that opens a section. *)
Definition isSectionTitle (trimmedLine : string) : bool :=
  negb (String.eqb trimmedLine EmptyString)
  && (endsWith_char ":"%char trimmedLine || titleCase trimmedLine).

(** [s.trim()] is not the empty string. *)
Definition nonBlank (s : string) : bool := negb (String.eqb (trim s) EmptyString).

(** The body of [for (const line of lines)]: the sections pushed so far
    and [currentSection]. *)
Definition sectionStep (st : list DocSection * DocSection) (line : string)
  : list DocSection * DocSection :=
  let (sections, currentSection) := st in
  let trimmedLine := trim line in
  if isSectionTitle trimmedLine then
    ((if nonBlank (content currentSection)
      then (sections ++ [currentSection])%list else sections),
     {| title := remove_first ":"%char trimmedLine; content := EmptyString |})
  else if negb (String.eqb trimmedLine EmptyString) then
    (sections,
     {| title := title currentSection;
        content := ((if String.eqb (content currentSection) EmptyString
                     then EmptyString
                     else content currentSection ++ nl) ++ trimmedLine)%string |})
  else st.

(** [PDFService.parseSections]. *)
Definition parseSections (text : string) : list DocSection :=
  let (sections, currentSection) :=
    fold_left sectionStep (split "010"%char text)
              ([], {| title := EmptyString; content := EmptyString |}) in
  let sections := if nonBlank (content currentSection)
                  then (sections ++ [currentSection])%list else sections in
  match sections with
  | [] => [{| title := EmptyString; content := text |}]
  | _ :: _ => sections
  end.

(** *** addFormattedContent *)

(** An element of the array [PDFService.parseMarkdownContent] returns. *)
Record Part := {
  partText : string; partBold : bool; partItalic : bool;
  indent : nat; isHeader : bool; headerLevel : nat
}.

(** [Math.max(16 - part.headerLevel * 2, 12)]. *)
Definition headerSize (level : nat) : Q :=
  let size := 16 - inject_Z (Z.of_nat level) * 2 in
  if gt size 12 then size else 12.

(** [if (this.currentYPosition > pageHeight - margin) { doc.addPage();
    this.currentYPosition = margin; }], on [currentYPosition] and the
    document. *)
Definition newPageIfBelow (margin pageHeight : Q) (st : Q * Doc) : Q * Doc :=
  if gt (fst st) (pageHeight - margin)
  then (margin, emit AddPage (snd st))
  else st.

(** The body of [for (const line of lines)]. *)
Definition drawLine (margin pageHeight lineHeight leftMargin : Q)
           (st : Q * Doc) (line : string) : Q * Doc :=
  let (y, d) := newPageIfBelow margin pageHeight st in
  (y + lineHeight, emit (Text [line] leftMargin y) d).

(** The font and the size set for a part. *)
Definition partFont (part : Part) (d : Doc) : Doc :=
  if isHeader part
  then setFont boldface (setFontSize (headerSize (headerLevel part)) d)
  else
    let d := setFontSize 11 d in
    if partBold part then setFont boldface d
    else if partItalic part then setFont italicface d
    else setFont normal d.

(** The body of [for (const part of parts)]. *)
Definition addPart (C : Canvas) (margin maxWidth lineHeight pageHeight : Q)
           (st : Q * Doc) (part : Part) : Q * Doc :=
  let (y, d) := newPageIfBelow margin pageHeight st in
  let d := partFont part d in
  let leftMargin := margin + inject_Z (Z.of_nat (indent part)) * 10 in
  if String.eqb (partText part) EmptyString
     || String.eqb (trim (partText part)) EmptyString
  then
    if String.eqb (partText part) nl then (y + lineHeight * (1 # 2), d) else (y, d)
  else
    let lines := splitTextToSize C (font d) (fontSize d) (partText part)
                   (maxWidth - inject_Z (Z.of_nat (indent part)) * 10) in
    let (y, d) := fold_left (drawLine margin pageHeight lineHeight leftMargin)
                            lines (y, d) in
    if isHeader part then (y + lineHeight * (1 # 2), d) else (y, d).

(** The loop of [PDFService.addFormattedContent] over the parts of the
    content: the [currentYPosition] it leaves and the document. *)
Definition addFormattedParts (C : Canvas) (d : Doc) (parts : list Part)
           (margin maxWidth yPosition lineHeight pageHeight : Q) : Q * Doc :=
  fold_left (addPart C margin maxWidth lineHeight pageHeight) parts (yPosition, d).

End PlainPDF.

(* ===================================================================== *)
(** ** Concrete worlds, used to run the model                             *)
(* ===================================================================== *)

Module Fixtures.
Import JsString Routes.

Definition alice_token : TokenPayload :=
  {| userId := 1; tokenEmail := "alice@example.org"; tokenRole := "admin" |}.
Definition bob_token : TokenPayload :=
  {| userId := 2; tokenEmail := "bob@example.org"; tokenRole := "user" |}.

(** A world in which every outside party answers: the model returns a
    short document, the text of an empty object parses and no other text
    does, rendering and the encodings are the identity. *)
Definition E_ok : Externals :=
  {| llm := fun _ _ _ => LLMText "# Document";
     now := 5000;
     formattedDate := "November 3, 2026";
     json_parse := fun t => if String.eqb t "{}" then inr (Obj [])
                            else inl "Unexpected token d in JSON at position 1";
     json_stringify := fun _ => "{}";
     prompt_template := fun _ pieces => join nl pieces;
     pdf_render := fun _ t _ => inr t;
     base64_encode := fun t => t;
     base64_decode := fun t => t;
     jwt_verify := fun t => if String.eqb t "alice" then Some alice_token
                            else if String.eqb t "bob" then Some bob_token
                            else None;
     random_token := "c0ffee";
     mail_accepted := fun _ => true |}.

(** The same world with a language model whose every request times out. *)
Definition E_timeout : Externals :=
  {| llm := fun _ _ _ => LLMRejected timeoutMessage;
     now := now E_ok; formattedDate := formattedDate E_ok;
     json_parse := json_parse E_ok; json_stringify := json_stringify E_ok;
     prompt_template := prompt_template E_ok; pdf_render := pdf_render E_ok;
     base64_encode := base64_encode E_ok; base64_decode := base64_decode E_ok;
     jwt_verify := jwt_verify E_ok; random_token := random_token E_ok;
     mail_accepted := mail_accepted E_ok |}.

Definition alice : User.t :=
  {| User.id := 1; User.email := "alice@example.org"; User.password := "$2b$10$a";
     User.name := "Alice"; User.funeralHome := Some "Evergreen";
     User.role := "admin"; User.createdAt := 10; User.updatedAt := 10;
     User.billingPeriodStart := 10 |}.
Definition bob : User.t :=
  {| User.id := 2; User.email := "bob@example.org"; User.password := "$2b$10$b";
     User.name := "Bob"; User.funeralHome := None;
     User.role := "user"; User.createdAt := 20; User.updatedAt := 20;
     User.billingPeriodStart := 20 |}.

Definition transcript1 : Transcript.t :=
  {| Transcript.id := 1; Transcript.userId := 1; Transcript.filename := "call.txt";
     Transcript.content := "Director: good morning."; Transcript.fileSize := 23;
     Transcript.uploadDate := 30; Transcript.status := "processed" |}.

Definition noExtracted : Arrangement.Extracted :=
  {| Arrangement.deceasedName := None; Arrangement.deceasedAge := None;
     Arrangement.dateOfDeath := None; Arrangement.causeOfDeath := None;
     Arrangement.serviceType := None; Arrangement.serviceLocation := None;
     Arrangement.serviceDate := None; Arrangement.serviceTime := None;
     Arrangement.arrangerName := None; Arrangement.arrangerPhone := None;
     Arrangement.arrangerEmail := None; Arrangement.arrangerRelation := None;
     Arrangement.casketType := None; Arrangement.flowerPrefs := None;
     Arrangement.specialRequests := None |}.

Definition arrangement1 : Arrangement.t :=
  {| Arrangement.id := 1; Arrangement.transcriptId := 1; Arrangement.userId := 1;
     Arrangement.extracted := noExtracted;
     Arrangement.generatedDoc := None; Arrangement.docStatus := "draft";
     Arrangement.approvalStatus := "pending"; Arrangement.approvedAt := None;
     Arrangement.aiProcessed := true; Arrangement.extractedData := Some "{}";
     Arrangement.createdAt := 40; Arrangement.updatedAt := 40 |}.

Definition document1 : Document.t :=
  {| Document.id := 1; Document.arrangementId := 1; Document.type := "contract";
     Document.title := "Funeral Services Contract";
     Document.content := Some "JVBERi0x"; Document.plainTextContent := Some "# Contract";
     Document.status := "generated"; Document.version := 1;
     Document.createdAt := 50; Document.updatedAt := 50 |}.
Definition document2 : Document.t :=
  {| Document.id := 2; Document.arrangementId := 1; Document.type := "summary";
     Document.title := "Arrangement Summary";
     Document.content := Some "JVBERi0y"; Document.plainTextContent := Some "# Summary";
     Document.status := "generated"; Document.version := 1;
     Document.createdAt := 51; Document.updatedAt := 51 |}.

Definition task1 : FuneralTask.t :=
  {| FuneralTask.id := 1; FuneralTask.arrangementId := 1; FuneralTask.type := "task";
     FuneralTask.title := "Complete Funeral Arrangements";
     FuneralTask.description := None; FuneralTask.priority := "high";
     FuneralTask.dueDate := None; FuneralTask.completed := false;
     FuneralTask.completedAt := None; FuneralTask.assignedTo := None;
     FuneralTask.notes := None; FuneralTask.createdAt := 52 |}.

Definition table {R} (l : list R) : Table R :=
  {| rows := l; serial := Z.of_nat (List.length l) + 1 |}.

(** Alice owns a processed transcript, its arrangement, two documents and
    a task; Bob owns nothing. *)
Definition store0 : Store :=
  {| users := table [alice; bob];
     transcripts := table [transcript1];
     arrangements := table [arrangement1];
     passwordResets := table [];
     documents := table [document1; document2];
     funeralTasks := table [task1];
     userUsageMetrics := table [];
     userBillingPeriods := table [] |}.

Definition world0 : World := {| store := store0; llmCalls := 0%nat; outbox := [] |}.



(** A database without any user. *)
Definition emptyWorld : World :=
  {| store := Storage.with_users store0 (table []);
     llmCalls := 0%nat; outbox := [] |}.

Definition request (m : Method) (p : string) (token : option string)
           (email role : option string) : Request :=
  {| method := m; path := segments p;
     authorization := option_map (fun t => "Bearer " ++ t) token;
     body_email := email; body_role := role;
     params := []; user := None |}.

(** The request as a handler receives it from the router. *)
Definition routed (req : Request) (ps : list (string * string)) (u : TokenPayload)
  : Request := with_user (with_params req ps) u.

Definition approveRequest : Request :=
  routed (request POST "/api/arrangements/1/approve" (Some "alice") None None)
         [("id", "1")] alice_token.

(** Bob, who owns no transcript, asks for the first document of Alice. *)
Definition bobOnDocument1 (m : Method) (p : string) : Request :=
  routed (request m p (Some "bob") None None) [("id", "1")] bob_token.

Definition resetRequest : Request :=
  request POST "/api/auth/forgot-password" None (Some "bob@example.org") None.

Definition reconcileRequest : Request :=
  routed (request POST "/api/admin/reconcile-metrics" (Some "alice") None None)
         [] alice_token.

End Fixtures.


(* ===================================================================== *)
(** ** The vocabulary of the properties                                   *)
(* ===================================================================== *)

Section Vocabulary.
Import JsString Routes DocumentService Fixtures.

(** The ways a request to the model fails, with the message thrown inside
    [generateDocument]: the race rejects (the timer of 15 seconds fires
    with [timeoutMessage], or the request throws), there is no response,
    or the text is empty or blank. *)
Inductive LLMFailed (type : DocType) : LLMOutcome -> Err -> Prop :=
| failed_rejected m : LLMFailed type (LLMRejected m) m
| failed_no_response :
    LLMFailed type LLMNoResponse "No response received from AI service"
| failed_empty c :
    trim c = EmptyString ->
    LLMFailed type (LLMText c)
      ("Empty content received for " ++ docTypeName type ++ " document").

Definition afterOneCall (w : World) : World :=
  {| store := store w; llmCalls := S (llmCalls w); outbox := outbox w |}.

(** The value converts to a string: every string, number, boolean, [null]
    and [undefined] does, and every object that has no property of its
    own named [toString]. *)
Definition prints (v : value) : Prop := exists text, toString v = inr text.

(** The values the hardcoded list of a type converts to strings after the
    name of the deceased, in the order of its template literal. *)
Definition printedByFallback (type : DocType) (arrangementData : value)
  : list value :=
  let arrangement := optGet arrangementData "arrangement" in
  let basic := orElse (optGet arrangement "basic_information") (Obj []) in
  let arrangements := orElse (optGet arrangement "arrangements") (Obj []) in
  match type with
  | tasks =>
      [ optGet (optGet basic "deceased_name") "first";
        optGet (optGet basic "deceased_name") "last";
        orElse (optGet arrangements "service_date") (Str "TBD") ]
  | arranger_tasks =>
      [ orElse (optGet arrangements "service_date") (Str "TBD");
        orElse (optGet arrangements "service_time") (Str "TBD");
        orElse (optGet arrangements "funeral_service_place") (Str "TBD") ]
  | _ => []
  end.

(** The fallback as it is specified, for every arrangement data: once the
    prompt is built and the request for the task checklist has failed,
    [generateDocument] returns a text that is not empty and starts with
    the title of the checklist. *)
Definition fallsBackAsSpecified (E : Externals) (arrangementData : value)
           (transcriptContent : string) (w : World) : Prop :=
  forall prompt m,
    getPromptForType E tasks arrangementData transcriptContent None = inr prompt ->
    LLMFailed tasks (llm E (llmCalls w) prompt (maxOutputTokens tasks)) m ->
    exists text,
      fst (generateDocument E tasks arrangementData transcriptContent None w)
        = inr text
      /\ text <> EmptyString
      /\ startsWith "# Funeral Director Task Checklist" text = true.

(** Extracted data whose date of service is a string, as the declared
    type of the data has it. *)
Definition stringDate : value :=
  Obj [("arrangement",
        Obj [("arrangements", Obj [("service_date", Str "2024-05-03")])])].

(** Extracted data whose date of service is an object with a property
    named [toString]. *)
Definition objectDate : value :=
  Obj [("arrangement",
        Obj [("arrangements",
              Obj [("service_date", Obj [("toString", Num "1")])])])].

(** A computation that leaves the database as it is. *)
Definition keeps {A} (m : M A) : Prop :=
  forall w, store (snd (m w)) = store w.

(** From [w] to [w'] the rows [docs] were appended to [documents], and
    the users, the transcripts and the arrangements are as they were. *)
Definition added (docs : list Document.t) (w w' : World) : Prop :=
  rows (documents (store w')) = (rows (documents (store w)) ++ docs)%list
  /\ arrangements (store w') = arrangements (store w)
  /\ users (store w') = users (store w)
  /\ transcripts (store w') = transcripts (store w).

(** The row a successful turn of the loop stores. *)
Definition storedAs (type : DocType) (pdf : bool) (d : Document.t) : Prop :=
  Document.type d = docTypeName type
  /\ (if pdf then Document.plainTextContent d <> None
      else Document.plainTextContent d = None).

(** How one document type ends: a row with the PDF and no failure; a
    failure and a text-only row; a failure and no row. *)
Inductive TypeOutcome (type : DocType)
  : list Document.t -> list FailedDocument -> Prop :=
| outcome_pdf d :
    storedAs type true d -> TypeOutcome type [d] []
| outcome_text d e :
    storedAs type false d ->
    TypeOutcome type [d] [{| failedType := docTypeName type; failedError := e |}]
| outcome_none e :
    TypeOutcome type [] [{| failedType := docTypeName type; failedError := e |}].

(** The outcomes of a run of the loop, one pair of lists for each type. *)
Definition Outcomes (types : list DocType)
           (outs : list (list Document.t * list FailedDocument)) : Prop :=
  Forall2 (fun type o => TypeOutcome type (fst o) (snd o)) types outs.

Definition allDocs (outs : list (list Document.t * list FailedDocument)) :=
  List.concat (map fst outs).
Definition allFails (outs : list (list Document.t * list FailedDocument)) :=
  List.concat (map snd outs).

(** The text of a response of the model. *)
Definition answerOf (o : LLMOutcome) : string :=
  match o with
  | LLMText content => content
  | _ => EmptyString
  end.

(** The row the loop stores for a type when every outside party answers.
    [id] is the next value of the sequence of [documents] and [calls] the
    number of requests made before the turn: the plain text is the answer
    to the first request of the turn, the content the rendering of the
    answer to the second, in base 64. *)
Definition expectedDocument (E : Externals) (arrangementId : Z) (data : value)
           (transcriptContent : string) (id : Z) (calls : nat) (type : DocType)
  : Document.t :=
  let prompt := match getPromptForType E type data transcriptContent None with
                | inr p => p
                | inl _ => EmptyString
                end in
  let plainTextContent := answerOf (llm E calls prompt (maxOutputTokens type)) in
  let textContent := answerOf (llm E (S calls) prompt (maxOutputTokens type)) in
  let pdfBuffer := match pdf_render E type textContent data with
                   | inr bytes => bytes
                   | inl _ => EmptyString
                   end in
  {| Document.id := id; Document.arrangementId := arrangementId;
     Document.type := docTypeName type;
     Document.title := getDocumentTitle type data;
     Document.content := Some (base64_encode E pdfBuffer);
     Document.plainTextContent := Some plainTextContent;
     Document.status := "generated"; Document.version := 1;
     Document.createdAt := now E; Document.updatedAt := now E |}.

Fixpoint expectedDocuments (E : Externals) (arrangementId : Z) (data : value)
         (transcriptContent : string) (id : Z) (calls : nat)
         (types : list DocType) : list Document.t :=
  match types with
  | [] => []
  | type :: rest =>
      expectedDocument E arrangementId data transcriptContent id calls type
      :: expectedDocuments E arrangementId data transcriptContent
           (id + 1) (S (S calls)) rest
  end.

(** Every outside party answers: the extracted data of the arrangement
    parse to [data], the prompt of every type is built from them, every
    request to the model is answered with a text that is not blank, and
    every rendering gives its bytes. *)
Definition everyPartyAnswers (E : Externals) (a : Arrangement.t) (t : Transcript.t)
           (data : value) : Prop :=
  (forall w, parseExtractedData E a w = (inr data, w))
  /\ (forall type, exists prompt,
        getPromptForType E type data (Transcript.content t) None = inr prompt)
  /\ (forall k prompt budget, exists content,
        llm E k prompt budget = LLMText content /\ trim content <> EmptyString)
  /\ (forall type text, exists bytes, pdf_render E type text data = inr bytes).

Definition ofType (name : string) (d : Document.t) : bool :=
  String.eqb (Document.type d) name.

Definition markedWorld (E : Externals) (aid : Z) (w : World) : World :=
  {| store := snd (Storage.updateArrangement (store w) aid
                     (Storage.setApproval "approved" (now E)));
     llmCalls := llmCalls w; outbox := outbox w |}.

Definition approvedResponse (docs : list Document.t) (fails : list FailedDocument)
           (arrangement : option Arrangement.t) : Response :=
  json 200 (JsonApproved "Arrangement approved and documents generated" docs
              (unlessEmpty fails) arrangement).

(** A row of the usage metrics: of that user, of its billing period, of
    one metric type. *)
Definition rowOf (uid bps : Z) (metricType : string) (m : UsageMetric.t) : Prop :=
  UsageMetric.userId m = uid /\ UsageMetric.billingPeriodStart m = bps
  /\ UsageMetric.metricType m = metricType.

Definition promoteBob : Request :=
  request PUT "/api/admin/users/2/role" (Some "alice") None (Some "premium").


End Vocabulary.

Section PaginationVocabulary.
Import ImprovedLayout.

Definition breaksOf (d : Doc) : nat := pageBreaks (ops d).

End PaginationVocabulary.

(** *** The vocabulary of the further properties *)

Section ParserVocabulary.
Import JsString ImprovedPDF.

(** The members of [ParsedContent['type']] the parser produces. *)
Definition producedType (t : ContentType) : bool :=
  match t with
  | bold | italic => false
  | _ => true
  end.

Definition blankLine (raw : string) : bool := String.eqb (trim raw) EmptyString.

Definition head_char (s : string) : option ascii :=
  match s with
  | EmptyString => None
  | String c _ => Some c
  end.

End ParserVocabulary.

Section EnhancedVocabulary.
Import JsString.

(** A text without a line terminator. *)
Definition oneLine (s : string) : bool :=
  all_chars (fun c => negb (is_line_terminator c)) s.

(** The first character, if any, is neither a hash nor white space. *)
Definition startsPlain (s : string) : bool :=
  match s with
  | EmptyString => true
  | String c _ => negb (is_hash c) && negb (is_space c)
  end.

End EnhancedVocabulary.

Section AccountingVocabulary.
Import Routes.

(** The ids a [serial] column gives to [n] rows inserted from [start]. *)
Definition idsFrom (start : Z) (n : nat) : list Z :=
  map (fun k => start + Z.of_nat k) (seq 0 n).

(** From [s] to [s'] the usage metrics grew by [n] rows of the user, of
    its billing period and of type ['document_generated'] when the user
    has a row, and by none when it has not. *)
Definition metered (uid : Z) (n : nat) (s s' : Store) : Prop :=
  match Storage.getUser s uid with
  | Some usr =>
      exists more,
        rows (userUsageMetrics s') = (rows (userUsageMetrics s) ++ more)%list
        /\ List.length more = n
        /\ Forall (rowOf uid (User.billingPeriodStart usr) "document_generated") more
  | None => userUsageMetrics s' = userUsageMetrics s
  end.

(** From [w] to [w'] nothing was written, and [calls] requests at most
    were made to the model. *)
Definition quiet (calls : nat) (w w' : World) : Prop :=
  store w' = store w /\ outbox w' = outbox w
  /\ (llmCalls w <= llmCalls w' <= llmCalls w + calls)%nat.

Definition quietly (calls : nat) {A} (m : M A) : Prop :=
  forall w, quiet calls w (snd (m w)).

(** From [w] to [w'] the rows [docs] were stored with the next ids of the
    sequence, one usage metric was tracked for each of them, [calls]
    requests at most were made, and nothing else changed. *)
Definition ran (uid : Z) (docs : list Document.t) (calls : nat) (w w' : World) : Prop :=
  added docs w w'
  /\ metered uid (List.length docs) (store w) (store w')
  /\ funeralTasks (store w') = funeralTasks (store w)
  /\ passwordResets (store w') = passwordResets (store w)
  /\ userBillingPeriods (store w') = userBillingPeriods (store w)
  /\ outbox w' = outbox w
  /\ (llmCalls w <= llmCalls w' <= llmCalls w + calls)%nat
  /\ serial (documents (store w'))
     = serial (documents (store w)) + Z.of_nat (List.length docs)
  /\ map Document.id docs
     = idsFrom (serial (documents (store w))) (List.length docs).

(** How an attempt to store one document ends. *)
Definition attempt (uid : Z) (calls : nat) (r : Err + Document.t) (w w' : World) : Prop :=
  match r with
  | inl _ => quiet calls w w'
  | inr d => ran uid [d] calls w w'
  end.

(** The ids of the documents are distinct and below the next value of
    the sequence, as a [serial] primary key keeps them. *)
Definition documentIdsFresh (s : Store) : Prop :=
  NoDup (map Document.id (rows (documents s)))
  /\ Forall (fun d => Document.id d < serial (documents s)) (rows (documents s)).

End AccountingVocabulary.

Section FollowUpVocabulary.
Import Routes.

(** The task record the approval creates, with the id the sequence gives
    it and the text of the task list as its description. *)
Definition followUpTask (E : Externals) (aid id : Z) (tasksContent : string)
  : FuneralTask.t :=
  {| FuneralTask.id := id; FuneralTask.arrangementId := aid;
     FuneralTask.type := "task"; FuneralTask.title := "Complete Funeral Arrangements";
     FuneralTask.description := Some tasksContent;
     FuneralTask.priority := "high";
     FuneralTask.dueDate := Some (now E + 7 * 24 * 60 * 60 * 1000);
     FuneralTask.completed := false; FuneralTask.completedAt := None;
     FuneralTask.assignedTo := None; FuneralTask.notes := None;
     FuneralTask.createdAt := now E |}.

(** From [w1] to [w'] one request at most was made and one task record at
    most was stored, none when the extracted data of the arrangement is
    [null]; nothing else changed. *)
Definition followedUp (E : Externals) (aid : Z) (a : Arrangement.t) (w1 w' : World)
  : Prop :=
  outbox w' = outbox w1
  /\ (llmCalls w1 <= llmCalls w' <= llmCalls w1 + 1)%nat
  /\ (store w' = store w1
      \/ exists tasksContent,
           store w' = Storage.with_funeralTasks (store w1)
                        (snd (insert_row (fun i => followUpTask E aid i tasksContent)
                                         (funeralTasks (store w1)))))
  /\ (Arrangement.extractedData a = None -> w' = w1).

End FollowUpVocabulary.

Section DownloadVocabulary.
Import Routes.

(** The answer of the download for a document. *)
Definition attachment (E : Externals) (d : Document.t) : Response :=
  json 200
    (PdfAttachment
       ("attachment; filename=" ++ DocumentService.dq
          ++ Document.title d ++ ".pdf" ++ DocumentService.dq)
       (base64_decode E (match Document.content d with
                         | Some c => c
                         | None => EmptyString
                         end))).

End DownloadVocabulary.

Section MiddlewareVocabulary.
Import Routes.

(** The token [authenticateToken] reads from the request:
    [authHeader && authHeader.split(" ")[1]], when it is not empty. *)
Definition bearer (req : Request) (tok : string) : Prop :=
  exists authHeader,
    authorization req = Some authHeader
    /\ nth_error (JsString.split " "%char authHeader) 1 = Some tok
    /\ tok <> EmptyString.

End MiddlewareVocabulary.

Section BillingVocabulary.
Import Routes.



End BillingVocabulary.

Section LayoutVocabulary.
Import JsString ImprovedLayout.

(** What [parseInlineFormatting] gives: never an italic or an underlined
    segment; a bold segment holds the text between two pairs of stars,
    not empty and without a star; another segment is not blank. *)
Definition inlineSegment (seg : Segment) : Prop :=
  segItalic seg = false /\ segUnderline seg = false
  /\ (if segBold seg
      then text seg <> EmptyString
           /\ all_chars (fun c => negb (is_star c)) (text seg) = true
      else trim (text seg) <> EmptyString).

(** A call that neither underlines nor selects an italic font. *)
Definition uprightOp (o : Op) : bool :=
  match o with
  | SetFont italicface | SetFont bolditalic => false
  | Line _ _ _ _ => false
  | _ => true
  end.

(** No text of the document is placed below the page height less the
    margin. *)
Definition withinPage (margin pageHeight : Q) (st : Q * Doc) : Prop :=
  Forall (fun y => (y <= pageHeight - margin)%Q) (placedYs (ops (snd st))).

End LayoutVocabulary.

Section SectionsVocabulary.
Import JsString PlainPDF.

(** The lines of a text that [parseSections] keeps as content: trimmed,
    not empty, and not read as the title of a section. *)
Definition contentLines (text : string) : list string :=
  filter (fun l => negb (String.eqb l EmptyString) && negb (isSectionTitle l))
         (map trim (split "010"%char text)).

Definition sectionLines (s : DocSection) : list string :=
  split "010"%char (PlainPDF.content s).

(** The one section [parseSections] falls back to. *)
Definition wholeText (text : string) : DocSection :=
  {| PlainPDF.title := EmptyString; PlainPDF.content := text |}.

Definition curLines (s : DocSection) : list string :=
  if String.eqb (PlainPDF.content s) EmptyString then [] else sectionLines s.

Definition kept (l : string) : bool :=
  negb (String.eqb l EmptyString) && negb (isSectionTitle l).

(** What holds of the sections pushed and of the current one after any
    number of lines. *)
Definition sectionsInv (done : list string) (st : list DocSection * DocSection) : Prop :=
  (List.concat (map sectionLines (fst st)) ++ curLines (snd st))%list
    = filter kept (map trim done)
  /\ Forall (fun s => nonBlank (PlainPDF.content s) = true) (fst st)
  /\ (PlainPDF.content (snd st) = EmptyString
      \/ nonBlank (PlainPDF.content (snd st)) = true).

End SectionsVocabulary.

Section HeaderNameVocabulary.
Import JsString.

(** [s] holds [word] somewhere. *)
Definition holds (word s : string) : Prop :=
  exists before after, s = (before ++ word ++ after)%string.

End HeaderNameVocabulary.

Section FurtherFixtures.
Import JsString Routes Fixtures ImprovedLayout.

(** An arrangement whose extracted data was never written. *)
Definition bareArrangement : Arrangement.t :=
  {| Arrangement.id := 1; Arrangement.transcriptId := 1; Arrangement.userId := 1;
     Arrangement.extracted := noExtracted;
     Arrangement.generatedDoc := None; Arrangement.docStatus := "draft";
     Arrangement.approvalStatus := "pending"; Arrangement.approvedAt := None;
     Arrangement.aiProcessed := false; Arrangement.extractedData := None;
     Arrangement.createdAt := 40; Arrangement.updatedAt := 40 |}.

Definition bareWorld : World :=
  {| store := Storage.with_arrangements store0 (table [bareArrangement]);
     llmCalls := 0%nat; outbox := [] |}.

(** Alice, an administrator, asks for her own role to become user. *)
Definition selfDemotion : Request :=
  routed (request PUT "/api/admin/users/1/role" (Some "alice") None (Some "user"))
         [("id", "1")] alice_token.

Definition searchRequest : Request :=
  request GET "/api/transcripts/search" (Some "alice") None None.

(** A deletion without a token. *)
Definition anonymousDelete : Request :=
  request DELETE "/api/documents/1" None None None.

(** Bob asks for the transcript of Alice to be deleted. *)
Definition bobOnTranscript1 : Request :=
  routed (request DELETE "/api/transcripts/1" (Some "bob") None None)
         [("id", "1")] bob_token.

(** Alice asks for a transcript whose id no integer column holds. *)
Definition aliceOnTranscript99999999999 : Request :=
  routed (request DELETE "/api/transcripts/99999999999" (Some "alice") None None)
         [("id", "99999999999")] alice_token.

(** The message of Postgres for the id of that request. *)
Definition outOfRangeMessage (i : Z) : Err :=
  "value " ++ DocumentService.dq ++ "99999999999" ++ DocumentService.dq
    ++ " is out of range for type integer".

(** The clock half an hour after that of [E_ok]. *)
Definition halfAnHourLater : Externals :=
  {| llm := llm E_ok; now := now E_ok + 30 * 60 * 1000;
     formattedDate := formattedDate E_ok;
     json_parse := json_parse E_ok; json_stringify := json_stringify E_ok;
     prompt_template := prompt_template E_ok; pdf_render := pdf_render E_ok;
     base64_encode := base64_encode E_ok; base64_decode := base64_decode E_ok;
     jwt_verify := jwt_verify E_ok; random_token := "decaf";
     mail_accepted := mail_accepted E_ok |}.

(** The clock two hours after that of [E_ok]. *)
Definition twoHoursLater : Externals :=
  {| llm := llm E_ok; now := now E_ok + 2 * 60 * 60 * 1000;
     formattedDate := formattedDate E_ok;
     json_parse := json_parse E_ok; json_stringify := json_stringify E_ok;
     prompt_template := prompt_template E_ok; pdf_render := pdf_render E_ok;
     base64_encode := base64_encode E_ok; base64_decode := base64_decode E_ok;
     jwt_verify := jwt_verify E_ok; random_token := "decaf";
     mail_accepted := mail_accepted E_ok |}.


Definition sampleHash (password : string) : string := "$2b$10$" ++ password.

Definition identityRender (type : DocType) (text : string) (data : value)
  : Err + string := inr text.

(** Sixty lines of text for the layout of [PDFService], on its page: A4
    in millimetres, with a margin of 20 and lines 6 apart. *)
(** Extracted data whose name has a first and a last part only. *)
Definition twoPartName : value :=
  Obj [("arrangement",
        Obj [("basic_information",
              Obj [("deceased_name",
                    Obj [("first", Str "John"); ("last", Str "Doe")])])])].

Definition sixtyParts : list PlainPDF.Part :=
  repeat {| PlainPDF.partText := "Lorem ipsum"; PlainPDF.partBold := false;
            PlainPDF.partItalic := false; PlainPDF.indent := 0%nat;
            PlainPDF.isHeader := false; PlainPDF.headerLevel := 0%nat |} 60.

End FurtherFixtures.

(* ===================================================================== *)
(** * Properties                                                          *)
(* ===================================================================== *)

(** ** Headers with and without a space after the hashes *)

Section Headers.
Import JsString ImprovedPDF.

Lemma startsWith_append (p s : string) : startsWith p (p ++ s) = true.
Proof.
  unfold startsWith. induction p as [|a p IH]; simpl.
  - reflexivity.
  - rewrite Ascii.eqb_refl. exact IH.
Qed.

Lemma startsWith_nonempty (p s : string) :
  startsWith p s = true -> p <> EmptyString -> s <> EmptyString.
Proof.
  intros H Hp ->. destruct p; [contradiction | discriminate].
Qed.

(** With the space, the direct-draw parser gives a header of level 2. *)
Lemma improved_header_with_space :
  parseMarkdownContent "## Header" = [mkHeader 2 16 "Header"].
Proof. reflexivity. Qed.

(** C4, at the input the claim fails on: without the space, the parser of
    the direct-draw backend gives a paragraph that keeps the two hashes,
    not a header of level 2. *)
Theorem improved_header_without_space :
  parseMarkdownContent "##Header"
  = [{| type := paragraph; level := None; content := "##Header";
        styles := Some {| fontSize := Some 11%nat; styleBold := None |} |}].
Proof. reflexivity. Qed.

(** The HTML backend turns both lines into the same header of level 2. *)
Lemma enhanced_header_both :
  EnhancedPDF.markdownToHTML_headers "##Header" = "<h2>Header</h2>"
  /\ EnhancedPDF.markdownToHTML_headers "## Header" = "<h2>Header</h2>".
Proof. split; reflexivity. Qed.

(** The longer runs of hashes are tried first: a line that starts with
    two hashes is never a header of level 1. *)
Lemma improved_double_hash_not_level1 (raw : string) (item : ParsedContent) :
  startsWith "##" (trim raw) = true ->
  parseLine raw = Some item ->
  level item <> Some 1%nat.
Proof.
  unfold parseLine. generalize (trim raw) as line. intros line Hpre.
  destruct (String.eqb line EmptyString); [discriminate|].
  intros Hparse. injection Hparse as <-.
  destruct (strip_prefix_spaces "###" line); [simpl; congruence|].
  destruct (strip_prefix_spaces "##" line); [simpl; congruence|].
  assert (Hnone : strip_prefix_spaces "#" line = None).
  { revert Hpre. unfold startsWith.
    destruct line as [|a [|b r]]; cbn [strip_prefix is_some]; try discriminate.
    - destruct (Ascii.eqb "#" a); discriminate.
    - destruct (Ascii.eqb "#" a) eqn:Ea; [|discriminate].
      destruct (Ascii.eqb "#" b) eqn:Eb; [|discriminate].
      apply Ascii.eqb_eq in Ea, Eb. subst. reflexivity. }
  rewrite Hnone.
  destruct (startsWith "---" line || String.eqb line "___"); [simpl; congruence|].
  destruct (startsWith "- " line || startsWith "* " line || is_some (strip_ordinal line));
    simpl; congruence.
Qed.

End Headers.

(** ** The fallback of the document service *)

Section Fallback.
Import JsString DocumentService.

Lemma prompt_reads_arrangement E type data transcript styles prompt :
  getPromptForType E type data transcript styles = inr prompt ->
  exists a, get data "arrangement" = inr a.
Proof.
  unfold getPromptForType, section.
  destruct (get data "arrangement") as [e|a]; [discriminate | eauto].
Qed.

(** A failed conversion has one message. *)
Lemma toString_error : forall v e, toString v = inl e -> e = notPrimitive.
Proof.
  fix IH 1. intros [| |[|]|r|s|items|fields] e; cbn [toString]; try discriminate.
  - revert e. induction items as [|x rest IHrest]; intros e; cbn [traverse];
      [discriminate|].
    destruct (match x with
              | Undefined | Null => inr EmptyString
              | _ => toString x
              end) as [e'|piece] eqn:Hx.
    + intros H. injection H as <-.
      assert (Hx' : toString x = inl e')
        by (destruct x; try discriminate Hx; exact Hx).
      exact (IH x e' Hx').
    + destruct (traverse _ rest) as [e'|pieces] eqn:Hrest; [|discriminate].
      intros H. injection H as <-. now apply IHrest.
  - destruct (hasOwn "toString" fields); [|discriminate].
    intros H. now injection H as <-.
Qed.

Lemma prompt_names_the_deceased E type data transcript styles prompt :
  getPromptForType E type data transcript styles = inr prompt ->
  exists fullName, getDeceasedFullName data = inr fullName.
Proof.
  unfold getPromptForType.
  destruct (section data "basic_information"); [discriminate|].
  destruct (section data "arrangements"); [discriminate|].
  destruct (section data "informant"); [discriminate|].
  destruct (getDeceasedFullName data) as [e|fullName]; [discriminate | eauto].
Qed.

Lemma optGet_of_get data k a : get data k = inr a -> optGet data k = a.
Proof.
  destruct data; cbn; intros H; try discriminate; now injection H as <-.
Qed.

Lemma fallback_tasks_starts E data text :
  getFallbackTasks E data = inr text ->
  startsWith "# Funeral Director Task Checklist" text = true.
Proof.
  unfold getFallbackTasks.
  repeat match goal with
         | |- context [match ?x with inl _ => _ | inr _ => _ end] =>
             destruct x; [discriminate|]
         end.
  intros H. injection H as <-.
  unfold text_of_lines; cbn [join]; apply startsWith_append.
Qed.

Lemma fallback_arranger_starts E data text :
  getFallbackArrangerTasks E data = inr text ->
  startsWith "# Family Arranger To-Do List" text = true.
Proof.
  unfold getFallbackArrangerTasks.
  repeat match goal with
         | |- context [match ?x with inl _ => _ | inr _ => _ end] =>
             destruct x; [discriminate|]
         end.
  intros H. injection H as <-.
  unfold text_of_lines; cbn [join]; apply startsWith_append.
Qed.

(** The hardcoded checklist is returned when the values its template
    converts print, and only then. *)
Lemma fallback_tasks_returns E data a fullName :
  get data "arrangement" = inr a ->
  getDeceasedFullName data = inr fullName ->
  (Forall prints (printedByFallback tasks data) ->
   exists text, getFallbackTasks E data = inr text)
  /\ (~ Forall prints (printedByFallback tasks data) ->
      getFallbackTasks E data = inl notPrimitive).
Proof.
  intros Hget Hname. unfold printedByFallback, getFallbackTasks, orTBD, section.
  rewrite (optGet_of_get _ _ _ Hget), Hget, Hname.
  set (v1 := optGet (optGet (orElse (optGet a "basic_information") (Obj []))
                       "deceased_name") "first").
  set (v2 := optGet (optGet (orElse (optGet a "basic_information") (Obj []))
                       "deceased_name") "last").
  set (v3 := orElse (optGet (orElse (optGet a "arrangements") (Obj []))
                       "service_date") (Str "TBD")).
  split.
  - intros Hall.
    inversion_clear Hall as [|? ? [t1 H1] Hall2].
    inversion_clear Hall2 as [|? ? [t2 H2] Hall3].
    inversion_clear Hall3 as [|? ? [t3 H3] _].
    rewrite H1, H2, H3. eexists; reflexivity.
  - intros Hnot.
    destruct (toString v1) as [e1|t1] eqn:H1;
      [now rewrite (toString_error _ _ H1)|].
    destruct (toString v2) as [e2|t2] eqn:H2;
      [now rewrite (toString_error _ _ H2)|].
    destruct (toString v3) as [e3|t3] eqn:H3;
      [now rewrite (toString_error _ _ H3)|].
    exfalso. apply Hnot. repeat constructor; eexists; eassumption.
Qed.

Lemma fallback_arranger_returns E data a fullName :
  get data "arrangement" = inr a ->
  getDeceasedFullName data = inr fullName ->
  (Forall prints (printedByFallback arranger_tasks data) ->
   exists text, getFallbackArrangerTasks E data = inr text)
  /\ (~ Forall prints (printedByFallback arranger_tasks data) ->
      getFallbackArrangerTasks E data = inl notPrimitive).
Proof.
  intros Hget Hname.
  unfold printedByFallback, getFallbackArrangerTasks, orTBD, section.
  rewrite (optGet_of_get _ _ _ Hget), Hget, Hname.
  set (v1 := orElse (optGet (orElse (optGet a "arrangements") (Obj []))
                       "service_date") (Str "TBD")).
  set (v2 := orElse (optGet (orElse (optGet a "arrangements") (Obj []))
                       "service_time") (Str "TBD")).
  set (v3 := orElse (optGet (orElse (optGet a "arrangements") (Obj []))
                       "funeral_service_place") (Str "TBD")).
  split.
  - intros Hall.
    inversion_clear Hall as [|? ? [t1 H1] Hall2].
    inversion_clear Hall2 as [|? ? [t2 H2] Hall3].
    inversion_clear Hall3 as [|? ? [t3 H3] _].
    rewrite H1, H2, H3. eexists; reflexivity.
  - intros Hnot.
    destruct (toString v1) as [e1|t1] eqn:H1;
      [now rewrite (toString_error _ _ H1)|].
    destruct (toString v2) as [e2|t2] eqn:H2;
      [now rewrite (toString_error _ _ H2)|].
    destruct (toString v3) as [e3|t3] eqn:H3;
      [now rewrite (toString_error _ _ H3)|].
    exfalso. apply Hnot. repeat constructor; eexists; eassumption.
Qed.

(** A value that is neither an array nor an object prints. *)
Lemma scalar_prints v :
  match v with Arr _ | Obj _ => False | _ => True end -> prints v.
Proof.
  destruct v as [| |[|]|r|s|items|fields]; intros H; try contradiction;
    eexists; reflexivity.
Qed.

(** So does an object without a property named [toString]. *)
Lemma plain_object_prints fields :
  hasOwn "toString" fields = false -> prints (Obj fields).
Proof.
  intros H. exists "[object Object]". cbn [toString]. now rewrite H.
Qed.

(** What [generateDocument] does before its [catch] once the prompt is
    built and the request has failed. *)
Lemma generateDocument_failed E type data transcript styles w prompt m :
  getPromptForType E type data transcript styles = inr prompt ->
  LLMFailed type (llm E (llmCalls w) prompt (maxOutputTokens type)) m ->
  generateDocument E type data transcript styles w
  = match type with
    | arranger_tasks => (getFallbackArrangerTasks E data, afterOneCall w)
    | tasks => (getFallbackTasks E data, afterOneCall w)
    | _ => (inl ("Failed to generate " ++ docTypeName type ++ " document: " ++ m),
            afterOneCall w)
    end.
Proof.
  intros Hprompt Hfail.
  unfold generateDocument, try_catch, bind, lift, generateContent.
  rewrite Hprompt.
  destruct Hfail as [m | | c Hblank]; unfold throw;
    try rewrite Hblank; destruct type; reflexivity.
Qed.

(** A hardcoded list whose template meets a value that does not print
    throws the [TypeError] of the conversion out of the [catch]. *)
Lemma fallback_rethrows_what_does_not_print
      E type data transcript styles w prompt m :
  getPromptForType E type data transcript styles = inr prompt ->
  LLMFailed type (llm E (llmCalls w) prompt (maxOutputTokens type)) m ->
  type = tasks \/ type = arranger_tasks ->
  ~ Forall prints (printedByFallback type data) ->
  generateDocument E type data transcript styles w
  = (inl notPrimitive, afterOneCall w).
Proof.
  intros Hprompt Hfail Htype Hnot.
  pose proof (generateDocument_failed _ _ _ _ _ _ _ _ Hprompt Hfail) as Hrun.
  destruct (prompt_reads_arrangement _ _ _ _ _ _ Hprompt) as [a Ha].
  destruct (prompt_names_the_deceased _ _ _ _ _ _ Hprompt) as [fullName Hname].
  destruct Htype as [-> | ->]; rewrite Hrun.
  - now rewrite (proj2 (fallback_tasks_returns E data a fullName Ha Hname) Hnot).
  - now rewrite (proj2 (fallback_arranger_returns E data a fullName Ha Hname) Hnot).
Qed.

(** C2, amended: when the values the hardcoded list converts to strings
    print (as the strings of the declared type of the data do) and the
    request to the model fails (the timer of 15 seconds, an empty
    response, a thrown error), [generateDocument] returns for ['tasks']
    the hardcoded checklist, a non-empty text that starts with
    [# Funeral Director Task Checklist], and for ['arranger_tasks'] the
    hardcoded arranger list, in both cases after that one request and no
    other; for the four other types it throws again. *)
Theorem generateDocument_fallback
        E type data transcript styles w prompt m :
  getPromptForType E type data transcript styles = inr prompt ->
  LLMFailed type (llm E (llmCalls w) prompt (maxOutputTokens type)) m ->
  Forall prints (printedByFallback type data) ->
  match type with
  | tasks =>
      exists text,
        generateDocument E type data transcript styles w = (inr text, afterOneCall w)
        /\ getFallbackTasks E data = inr text
        /\ startsWith "# Funeral Director Task Checklist" text = true
        /\ text <> EmptyString
  | arranger_tasks =>
      exists text,
        generateDocument E type data transcript styles w = (inr text, afterOneCall w)
        /\ getFallbackArrangerTasks E data = inr text
        /\ startsWith "# Family Arranger To-Do List" text = true
        /\ text <> EmptyString
  | _ =>
      generateDocument E type data transcript styles w
      = (inl ("Failed to generate " ++ docTypeName type ++ " document: " ++ m),
         afterOneCall w)
  end.
Proof.
  intros Hprompt Hfail Hprints.
  pose proof (generateDocument_failed _ _ _ _ _ _ _ _ Hprompt Hfail) as Hrun.
  destruct (prompt_reads_arrangement _ _ _ _ _ _ Hprompt) as [a Ha].
  destruct (prompt_names_the_deceased _ _ _ _ _ _ Hprompt) as [fullName Hname].
  destruct type; try exact Hrun.
  - destruct (proj1 (fallback_tasks_returns E data a fullName Ha Hname) Hprints)
      as [text Htext].
    pose proof (fallback_tasks_starts E data text Htext) as Hpre.
    exists text. rewrite Hrun, Htext. repeat split; auto.
    eapply startsWith_nonempty; [exact Hpre | discriminate].
  - destruct (proj1 (fallback_arranger_returns E data a fullName Ha Hname) Hprints)
      as [text Htext].
    pose proof (fallback_arranger_starts E data text Htext) as Hpre.
    exists text. rewrite Hrun, Htext. repeat split; auto.
    eapply startsWith_nonempty; [exact Hpre | discriminate].
Qed.

End Fallback.

(** ** Password reset, download and deletion *)

Section PlainHandlers.
Import Routes.

(** C7: a request for a password reset that gives a non-empty email is
    answered with status 200 and the same generic message whatever the
    database holds, so whether or not an account has that email. *)
Theorem forgotPassword_generic E req email (w1 w2 : World) :
  body_email req = Some email ->
  email <> EmptyString ->
  fst (forgotPassword E req w1) = inr (json 200 (JsonMessage genericResetMessage))
  /\ fst (forgotPassword E req w1) = fst (forgotPassword E req w2).
Proof.
  intros Hbody Hne.
  assert (Hall : forall w, fst (forgotPassword E req w)
                           = inr (json 200 (JsonMessage genericResetMessage))).
  { intros w. unfold forgotPassword, guarded, try_catch, bind, getStore.
    rewrite Hbody.
    destruct (String.eqb email EmptyString) eqn:Heq.
    - apply String.eqb_eq in Heq. contradiction.
    - cbn. destruct (Storage.getUserByEmail (store w) email) as [u|]; cbn.
      + unfold sendPasswordResetEmail.
        destruct (mail_accepted E (User.email u)); reflexivity.
      + reflexivity. }
  split; [apply Hall | rewrite !Hall; reflexivity].
Qed.

Lemma filter_other_ids_length (l : list Document.t) (id : Z) (d : Document.t) :
  NoDup (map Document.id l) -> In d l -> Document.id d = id ->
  (List.length (filter (fun x => negb (Document.id x =? id)%Z) l) + 1
   = List.length l)%nat.
Proof.
  induction l as [|x l IH]; intros Hnd Hin Hid; [contradiction|].
  inversion Hnd as [|? ? Hnotin Hnd']; subst. cbn [filter map].
  destruct Hin as [->|Hin].
  - rewrite Z.eqb_refl. cbn [negb].
    rewrite (proj2 (filter_ext_in_iff _ (fun _ => true) l)).
    + rewrite filter_true. cbn. lia.
    + intros y Hy. apply negb_true_iff, Z.eqb_neq. intros Heq.
      apply Hnotin. rewrite <- Heq. now apply in_map.
  - destruct (Document.id x =? Document.id d) eqn:Heq.
    + apply Z.eqb_eq in Heq. exfalso. apply Hnotin. rewrite Heq. now apply in_map.
    + cbn [negb List.length]. rewrite <- (IH Hnd' Hin eq_refl). lia.
Qed.

Lemma first_filter_deleted (l : list Document.t) (id : Z) :
  Storage.first (filter (fun d => Document.id d =? id)
                        (filter (fun d => negb (Document.id d =? id)) l)) = None.
Proof.
  induction l as [|x l IH]; [reflexivity|]. cbn [filter].
  destruct (Document.id x =? id) eqn:Heq; cbn [negb filter]; [exact IH|].
  rewrite Heq. exact IH.
Qed.

Lemma deleteDocument_run E req w id :
  parseInt (param req "id") = Some id ->
  Routes.deleteDocument E req w
  = (inr (json 200 (JsonMessage "Document deleted successfully")),
     {| store := Storage.deleteDocument (store w) id;
        llmCalls := llmCalls w; outbox := outbox w |}).
Proof.
  intros Hid. unfold Routes.deleteDocument, guarded, try_catch, bind, dbId.
  rewrite Hid. reflexivity.
Qed.

(** C8: deleting a document removes the rows of [documents] that carry the
    id, one row when the id is that of an existing document, and leaves
    the other documents, in their order, and every other table as they
    were, the arrangements and the tasks among them. *)
Theorem deleteDocument_removes_only_that_row E req w id :
  parseInt (param req "id") = Some id ->
  let s := store w in
  let s' := store (snd (Routes.deleteDocument E req w)) in
  rows (documents s')
    = filter (fun d => negb (Document.id d =? id)) (rows (documents s))
  /\ (forall d, In d (rows (documents s'))
                <-> In d (rows (documents s)) /\ Document.id d <> id)
  /\ (forall d, NoDup (map Document.id (rows (documents s))) ->
                Storage.getDocumentById s id = Some d ->
                (List.length (rows (documents s')) + 1
                 = List.length (rows (documents s)))%nat)
  /\ arrangements s' = arrangements s
  /\ funeralTasks s' = funeralTasks s
  /\ users s' = users s /\ transcripts s' = transcripts s
  /\ passwordResets s' = passwordResets s
  /\ userUsageMetrics s' = userUsageMetrics s
  /\ userBillingPeriods s' = userBillingPeriods s.
Proof.
  intros Hid s s'. subst s s'. rewrite (deleteDocument_run E req w id Hid).
  cbn [snd store Storage.deleteDocument Storage.with_documents documents
       with_rows rows arrangements funeralTasks users transcripts
       passwordResets userUsageMetrics userBillingPeriods].
  split; [reflexivity|]. split.
  { intros d. rewrite filter_In, negb_true_iff, Z.eqb_neq. reflexivity. }
  split; [|repeat split].
  intros d Hnd Hget. unfold Storage.getDocumentById, Storage.first in Hget.
  assert (Hin : In d (filter (fun x => Document.id x =? id)
                             (rows (documents (store w))))).
  { destruct (filter _ _) as [|y l]; [discriminate|].
    injection Hget as ->. now left. }
  apply filter_In in Hin. destruct Hin as [Hin Heq]. apply Z.eqb_eq in Heq.
  exact (filter_other_ids_length _ id d Hnd Hin Heq).
Qed.

(** C10: the download and the deletion look the document up by its id
    and never read [req.user]: whoever the authenticated user is, the
    download answers with the bytes of the document and the deletion
    removes it. *)
Theorem document_endpoints_ignore_owner E req w (u : TokenPayload) id d :
  user req = Some u ->
  parseInt (param req "id") = Some id ->
  Storage.getDocumentById (store w) id = Some d ->
  download E req w
  = (inr (json 200
            (PdfAttachment
               ("attachment; filename=" ++ DocumentService.dq
                  ++ Document.title d ++ ".pdf" ++ DocumentService.dq)
               (base64_decode E (match Document.content d with
                                 | Some c => c
                                 | None => EmptyString
                                 end)))), w)
  /\ fst (Routes.deleteDocument E req w)
     = inr (json 200 (JsonMessage "Document deleted successfully"))
  /\ Storage.getDocumentById (store (snd (Routes.deleteDocument E req w))) id = None.
Proof.
  intros _ Hid Hget. split; [|split].
  - unfold download, guarded, try_catch, bind, dbId, getStore.
    rewrite Hid. cbn. rewrite Hget. reflexivity.
  - rewrite (deleteDocument_run E req w id Hid). reflexivity.
  - rewrite (deleteDocument_run E req w id Hid).
    apply first_filter_deleted.
Qed.

End PlainHandlers.

(** ** The role routes *)

Section RoleRoutes.
Import Routes Fixtures.

(** Both registrations of the role route match the same requests, and
    Express serves the first: the handler that resets the billing window
    is never reached. *)
Lemma role_route_is_first_registration req x :
  method req = PUT ->
  path req = ["api"; "admin"; "users"; x; "role"] ->
  find (matches req) routeTable
  = Some (route PUT "/api/admin/users/:id/role" admin (Some updateRole)).
Proof.
  intros Hm Hp. unfold matches. rewrite Hm, Hp. reflexivity.
Qed.

(** The handler that is served writes neither [billingPeriodStart] nor a
    row of [userBillingPeriods]. *)
Lemma updateRole_keeps_billing E req w :
  let s' := store (snd (updateRole E req w)) in
  userBillingPeriods s' = userBillingPeriods (store w)
  /\ map User.billingPeriodStart (rows (users s'))
     = map User.billingPeriodStart (rows (users (store w))).
Proof.
  unfold updateRole, guarded, try_catch, bind.
  destruct (body_role req) as [role|]; [|split; reflexivity].
  destruct (_ || _); [split; reflexivity|].
  unfold reqUserId. destruct (user req) as [u|]; [|split; reflexivity].
  cbn. destruct (_ && _); [split; reflexivity|].
  unfold dbId. destruct (parseInt (param req "id")) as [id|]; [|split; reflexivity].
  cbn.
  assert (Hmap : forall l,
    map User.billingPeriodStart
        (Storage.update_where (fun u0 => User.id u0 =? id)
                              (Storage.setRole role (now E)) l)
    = map User.billingPeriodStart l).
  { unfold Storage.update_where.
    induction l as [|x l IH]; [reflexivity|]. cbn [map].
    rewrite IH. destruct (User.id x =? id); reflexivity. }
  destruct (Storage.first _); cbn; (split; [reflexivity | apply Hmap]).
Qed.

(** C5, at an input the claim fails on: an administrator changes the role
    of user 2.  The request is answered with status 200 and the role is
    written, but the billing window of the user still starts at 20, not
    at the current time 5000, and no row of [userBillingPeriods] is
    inserted. *)
Theorem role_change_without_billing_reset :
  exists resp w',
    serve E_ok promoteBob world0 = Some (resp, w')
    /\ status resp = 200%nat
    /\ option_map User.role (Storage.getUser (store w') 2) = Some "premium"
    /\ option_map User.billingPeriodStart (Storage.getUser (store w') 2) = Some 20
    /\ now E_ok = 5000
    /\ rows (userBillingPeriods (store w')) = [].
Proof.
  eexists _, _. split; [vm_compute; reflexivity|].
  repeat split; reflexivity.
Qed.

(** The second registration, had it been reached, does what the
    specification describes. *)
Lemma second_registration_resets_billing :
  let req := routed promoteBob [("userId", "2")] alice_token in
  let w' := snd (updateRoleAndResetBilling E_ok req world0) in
  option_map User.billingPeriodStart (Storage.getUser (store w') 2) = Some (now E_ok)
  /\ List.length (rows (userBillingPeriods (store w'))) = 1%nat.
Proof. split; reflexivity. Qed.

End RoleRoutes.

(** ** The approval *)

Section Approval.
Import Routes DocumentService.

Lemma keeps_ret {A} (a : A) : keeps (ret a).
Proof. intros w; reflexivity. Qed.

Lemma keeps_throw {A} e : keeps (@throw A e).
Proof. intros w; reflexivity. Qed.

Lemma keeps_lift {A} (r : Err + A) : keeps (lift r).
Proof. intros w; reflexivity. Qed.

Lemma keeps_bind {A B} (m : M A) (k : A -> M B) :
  keeps m -> (forall a, keeps (k a)) -> keeps (bind m k).
Proof.
  intros Hm Hk w. unfold bind. specialize (Hm w).
  destruct (m w) as [[e|a] w1]; cbn in *; [exact Hm|].
  rewrite Hk. exact Hm.
Qed.

Lemma keeps_try_catch {A} (m : M A) (h : Err -> M A) :
  keeps m -> (forall e, keeps (h e)) -> keeps (try_catch m h).
Proof.
  intros Hm Hh w. unfold try_catch. specialize (Hm w).
  destruct (m w) as [[e|a] w1]; cbn in *; [|exact Hm].
  rewrite Hh. exact Hm.
Qed.

Lemma keeps_generateContent E prompt budget : keeps (generateContent E prompt budget).
Proof. intros w; reflexivity. Qed.

Create HintDb keeps.
Hint Resolve keeps_ret keeps_throw keeps_lift keeps_generateContent : keeps.

Lemma keeps_generateDocument E type data transcript styles :
  keeps (generateDocument E type data transcript styles).
Proof.
  unfold generateDocument. apply keeps_try_catch.
  - apply keeps_bind; [auto with keeps|]. intros prompt.
    apply keeps_bind; [auto with keeps|]. intros [m| |c]; auto with keeps.
    destruct (String.eqb _ _); auto with keeps.
  - intros e. destruct type; auto with keeps.
Qed.

Lemma keeps_parseExtractedData E a : keeps (parseExtractedData E a).
Proof. unfold parseExtractedData. auto with keeps. Qed.

Lemma keeps_generatePDF E type data transcript :
  keeps (generatePDF E type data transcript).
Proof.
  unfold generatePDF. apply keeps_bind; [apply keeps_generateDocument|].
  intros t. auto with keeps.
Qed.

Lemma added_same w w' : store w' = store w -> added [] w w'.
Proof. unfold added. intros ->. rewrite app_nil_r. auto. Qed.

Lemma added_trans l1 l2 w w1 w2 :
  added l1 w w1 -> added l2 w1 w2 -> added (l1 ++ l2)%list w w2.
Proof.
  intros (Hd1 & Ha1 & Hu1 & Ht1) (Hd2 & Ha2 & Hu2 & Ht2). unfold added.
  rewrite Hd2, Hd1, Ha2, Ha1, Hu2, Hu1, Ht2, Ht1, app_assoc. auto.
Qed.

Lemma trackUsageMetric_frame E s uid metricType :
  let s' := Storage.trackUsageMetric E s uid metricType in
  documents s' = documents s /\ arrangements s' = arrangements s
  /\ users s' = users s /\ transcripts s' = transcripts s
  /\ funeralTasks s' = funeralTasks s.
Proof.
  unfold Storage.trackUsageMetric. destruct (Storage.getUser s uid); cbn; auto 6.
Qed.

Lemma store_and_track E uid aid type title content plain (pdf : bool) w :
  (if pdf then plain <> None else plain = None) ->
  exists d w',
    bind (liftS (fun s => Storage.createDocument E s aid (docTypeName type) title
                            content plain "generated"))
         (fun document => bind (trackDocumentGenerated E uid)
                               (fun _ => ret document)) w
    = (inr d, w')
    /\ added [d] w w' /\ storedAs type pdf d.
Proof.
  intros Hplain. unfold bind, liftS, trackDocumentGenerated, modifyStore, liftS, ret.
  cbn -[Storage.trackUsageMetric]. eexists _, _. split; [reflexivity|]. split.
  - unfold added. cbn [store].
    match goal with
    | |- context [Storage.trackUsageMetric E ?s _ _] =>
        destruct (trackUsageMetric_frame E s uid "document_generated")
          as (Hd & Ha & Hu & Ht & _)
    end.
    cbn zeta in Hd, Ha, Hu, Ht. rewrite Hd, Ha, Hu, Ht. cbn. auto.
  - split; [reflexivity | exact Hplain].
Qed.

Lemma generateWithPDF_spec E uid aid a t type w :
  match generateWithPDF E uid aid a t type w with
  | (inl _, w') => store w' = store w
  | (inr d, w') => added [d] w w' /\ storedAs type true d
  end.
Proof.
  unfold generateWithPDF.
  unfold bind at 1. pose proof (keeps_parseExtractedData E a w) as H1.
  destruct (parseExtractedData E a w) as [[e|data1] w1]; cbn in H1; [exact H1|].
  unfold bind at 1.
  pose proof (keeps_generateDocument E type data1 (Transcript.content t) None w1) as H2.
  destruct (generateDocument _ _ _ _ _ w1) as [[e|plain] w2]; cbn in H2;
    [congruence|].
  unfold bind at 1. pose proof (keeps_parseExtractedData E a w2) as H3.
  destruct (parseExtractedData E a w2) as [[e|data2] w3]; cbn in H3; [congruence|].
  unfold bind at 1.
  pose proof (keeps_generatePDF E type data2 (Transcript.content t) w3) as H4.
  destruct (generatePDF _ _ _ _ w3) as [[e|pdf] w4]; cbn in H4; [congruence|].
  unfold bind at 1. pose proof (keeps_parseExtractedData E a w4) as H5.
  destruct (parseExtractedData E a w4) as [[e|data3] w5]; cbn in H5; [congruence|].
  destruct (store_and_track E uid aid type (getDocumentTitle type data3)
              (Some (base64_encode E pdf)) (Some plain) true w5)
    as (d & w' & Hrun & Hadd & Hst); [discriminate|].
  rewrite Hrun. split; [|exact Hst].
  replace [d] with ([] ++ [d])%list by reflexivity.
  eapply added_trans; [apply added_same|exact Hadd]. congruence.
Qed.

Lemma generateTextOnly_spec E uid aid a t type w :
  match generateTextOnly E uid aid a t type w with
  | (inl _, w') => store w' = store w
  | (inr d, w') => added [d] w w' /\ storedAs type false d
  end.
Proof.
  unfold generateTextOnly.
  unfold bind at 1. pose proof (keeps_parseExtractedData E a w) as H1.
  destruct (parseExtractedData E a w) as [[e|data1] w1]; cbn in H1; [exact H1|].
  unfold bind at 1.
  pose proof (keeps_generateDocument E type data1 (Transcript.content t) None w1) as H2.
  destruct (generateDocument _ _ _ _ _ w1) as [[e|textContent] w2]; cbn in H2;
    [congruence|].
  destruct (store_and_track E uid aid type
              (capitalize (docTypeName type) ++ " Document (Text)")
              (Some (base64_encode E textContent)) None false w2)
    as (d & w' & Hrun & Hadd & Hst); [reflexivity|].
  rewrite Hrun. split; [|exact Hst].
  replace [d] with ([] ++ [d])%list by reflexivity.
  eapply added_trans; [apply added_same|exact Hadd]. congruence.
Qed.

Lemma approveOne_spec E uid aid a t acc type w :
  exists docs fails w',
    approveOne E uid aid a t acc type w
      = (inr ((fst acc ++ docs)%list, (snd acc ++ fails)%list), w')
    /\ added docs w w'
    /\ TypeOutcome type docs fails.
Proof.
  unfold approveOne, try_catch, bind.
  pose proof (generateWithPDF_spec E uid aid a t type w) as H1.
  destruct (generateWithPDF E uid aid a t type w) as [[e|d] w1]; cbn in H1.
  - pose proof (generateTextOnly_spec E uid aid a t type w1) as H2.
    destruct (generateTextOnly E uid aid a t type w1) as [[e2|d] w2];
      cbn in H2; cbn.
    + exists [], [{| failedType := docTypeName type; failedError := e |}], w2.
      rewrite app_nil_r. split; [reflexivity|]. split; [|constructor].
      apply added_same. congruence.
    + destruct H2 as [Hadd Hst].
      exists [d], [{| failedType := docTypeName type; failedError := e |}], w2.
      split; [reflexivity|]. split; [|constructor; exact Hst].
      replace [d] with ([] ++ [d])%list by reflexivity.
      eapply added_trans; [apply added_same; exact H1 | exact Hadd].
  - destruct H1 as [Hadd Hst]. cbn.
    exists [d], [], w1. rewrite app_nil_r.
    split; [reflexivity|]. split; [exact Hadd | constructor; exact Hst].
Qed.

Lemma approveLoop_spec E uid aid a t types :
  forall acc w, exists outs w',
    approveLoop E uid aid a t types acc w
      = (inr ((fst acc ++ allDocs outs)%list, (snd acc ++ allFails outs)%list), w')
    /\ added (allDocs outs) w w'
    /\ Outcomes types outs.
Proof.
  induction types as [|type rest IH]; intros acc w.
  - exists [], w. cbn. rewrite !app_nil_r. split; [now destruct acc|].
    split; [apply added_same; reflexivity | constructor].
  - cbn [approveLoop]. unfold bind.
    destruct (approveOne_spec E uid aid a t acc type w)
      as (docs & fails & w1 & Hrun & Hadd & Hout).
    rewrite Hrun.
    destruct (IH ((fst acc ++ docs)%list, (snd acc ++ fails)%list) w1)
      as (outs & w2 & Hrun' & Hadd' & Houts).
    exists ((docs, fails) :: outs), w2. unfold allDocs, allFails in *. cbn.
    rewrite Hrun'. cbn. rewrite !app_assoc. split; [reflexivity|].
    split; [eapply added_trans; eassumption|].
    constructor; assumption.
Qed.

(** *** When every outside party answers *)

Lemma generateDocument_answers E type data transcript w prompt content :
  getPromptForType E type data transcript None = inr prompt ->
  llm E (llmCalls w) prompt (maxOutputTokens type) = LLMText content ->
  JsString.trim content <> EmptyString ->
  generateDocument E type data transcript None w = (inr content, afterOneCall w).
Proof.
  intros Hp Hl Hc. apply String.eqb_neq in Hc.
  unfold generateDocument, try_catch, bind, lift, generateContent.
  rewrite Hp, Hl, Hc. reflexivity.
Qed.

Lemma generateWithPDF_answers E uid aid a t type data w :
  everyPartyAnswers E a t data ->
  exists w',
    generateWithPDF E uid aid a t type w
    = (inr (expectedDocument E aid data (Transcript.content t)
              (serial (documents (store w))) (llmCalls w) type), w')
    /\ serial (documents (store w')) = serial (documents (store w)) + 1
    /\ llmCalls w' = S (S (llmCalls w)).
Proof.
  intros (Hparse & Hprompt & Hllm & Hrender).
  destruct (Hprompt type) as [prompt Hp].
  destruct (Hllm (llmCalls w) prompt (maxOutputTokens type)) as (plain & Hl1 & Hc1).
  destruct (Hllm (S (llmCalls w)) prompt (maxOutputTokens type)) as (text & Hl2 & Hc2).
  destruct (Hrender type text) as [bytes Hb].
  unfold generateWithPDF, expectedDocument.
  unfold bind at 1. rewrite Hparse.
  unfold bind at 1.
  rewrite (generateDocument_answers E type data _ w prompt plain Hp Hl1 Hc1).
  unfold bind at 1. rewrite Hparse.
  unfold bind at 1. unfold generatePDF. unfold bind at 1.
  rewrite (generateDocument_answers E type data _ (afterOneCall w) prompt text
             Hp Hl2 Hc2).
  unfold lift at 1. rewrite Hb.
  unfold bind at 1. rewrite Hparse.
  rewrite Hp, Hl1, Hl2. cbn [answerOf]. rewrite Hb.
  unfold bind, liftS, trackDocumentGenerated, modifyStore, liftS, ret.
  cbn -[Storage.trackUsageMetric].
  eexists. split; [reflexivity|]. cbn [store llmCalls].
  split; [|reflexivity].
  match goal with
  | |- context [Storage.trackUsageMetric E ?s _ _] =>
      destruct (trackUsageMetric_frame E s uid "document_generated") as (Hd & _)
  end.
  cbn zeta in Hd. rewrite Hd. reflexivity.
Qed.

Lemma approveLoop_answers E uid aid a t data types :
  everyPartyAnswers E a t data ->
  forall acc w, exists w',
    approveLoop E uid aid a t types acc w
    = (inr ((fst acc ++ expectedDocuments E aid data (Transcript.content t)
                          (serial (documents (store w))) (llmCalls w) types)%list,
            snd acc), w').
Proof.
  intros Hall. induction types as [|type rest IH]; intros acc w.
  - exists w. cbn. rewrite app_nil_r. now destruct acc.
  - cbn [approveLoop expectedDocuments]. unfold bind at 1.
    unfold approveOne, try_catch. unfold bind at 1.
    destruct (generateWithPDF_answers E uid aid a t type data w Hall)
      as (w1 & Hrun & Hserial & Hcalls).
    rewrite Hrun. unfold ret at 1.
    destruct (IH ((fst acc ++ [expectedDocument E aid data (Transcript.content t)
                                 (serial (documents (store w))) (llmCalls w)
                                 type])%list, snd acc) w1) as [w2 Hloop].
    rewrite Hloop, Hserial, Hcalls. cbn [fst snd].
    exists w2. now rewrite <- app_assoc.
Qed.

Lemma unlessEmpty_none {A} (l : list A) : unlessEmpty l = None -> l = [].
Proof. destruct l; [reflexivity | discriminate]. Qed.

(** The loop of the handler on all types, when every party answers. *)
Lemma generateAll_answers E uid aid a t data w docs fails arr w' :
  everyPartyAnswers E a t data ->
  generateAll E uid aid a t w = (inr (approvedResponse docs fails arr), w') ->
  fails = []
  /\ docs = expectedDocuments E aid data (Transcript.content t)
              (serial (documents (store w))) (llmCalls w) documentTypes.
Proof.
  intros Hall. unfold generateAll. unfold bind at 1.
  destruct (approveLoop_answers E uid aid a t data documentTypes Hall ([], []) w)
    as [w1 Hloop].
  rewrite Hloop. cbn [fst snd app]. unfold bind at 1.
  destruct (createFollowUpTask E aid a t w1) as [[e|[]] w2] eqn:Htask.
  - unfold createFollowUpTask, try_catch, bind in Htask.
    destruct (generateDocument E tasks (rawExtractedData a) (Transcript.content t)
                None w1) as [[e'|c] w3]; cbn in Htask; discriminate Htask.
  - unfold bind, getStore, ret, approvedResponse, json.
    intros H. injection H as Hd Hf _ _.
    split; [now apply unlessEmpty_none | now symmetry].
Qed.

End Approval.

Section ApprovalTheorems.
Import Routes DocumentService.

Lemma outcomes_length types outs :
  Outcomes types outs ->
  (List.length (allDocs outs) <= List.length types)%nat.
Proof.
  unfold allDocs. induction 1 as [|type o types outs Ho _ IH]; cbn; [lia|].
  rewrite length_app. destruct Ho; cbn; lia.
Qed.

Lemma outcomes_count types outs name :
  Outcomes types outs ->
  (List.length (filter (ofType name) (allDocs outs))
   <= List.length (filter (fun t => String.eqb (docTypeName t) name) types))%nat.
Proof.
  unfold allDocs. induction 1 as [|type o types outs Ho _ IH]; cbn; [lia|].
  rewrite filter_app, length_app.
  assert (Hone : (List.length (filter (ofType name) (fst o))
                  <= if String.eqb (docTypeName type) name then 1 else 0)%nat).
  { destruct Ho as [d [Ht _] | d e [Ht _] | e]; cbn; unfold ofType;
      try rewrite Ht; destruct (String.eqb (docTypeName type) name); cbn; lia. }
  destruct (String.eqb (docTypeName type) name); cbn; lia.
Qed.

Lemma outcomes_no_failure types outs :
  Outcomes types outs -> allFails outs = [] ->
  List.length (allDocs outs) = List.length types.
Proof.
  unfold allDocs, allFails.
  induction 1 as [|type o types outs Ho _ IH]; cbn; [reflexivity|].
  intros Hnil. apply app_eq_nil in Hnil. destruct Hnil as [Ho' Hrest].
  rewrite length_app, (IH Hrest).
  destruct Ho; cbn in *; try discriminate; reflexivity.
Qed.

Lemma outcomes_covered types outs type :
  Outcomes types outs -> In type types ->
  (exists d, In d (allDocs outs) /\ storedAs type true d)
  \/ In (docTypeName type) (map failedType (allFails outs)).
Proof.
  unfold allDocs, allFails.
  induction 1 as [|type' o types outs Ho _ IH]; cbn; [contradiction|].
  intros [->|Hin].
  - destruct Ho as [d Hst | d e Hst | e]; cbn.
    + left. exists d. split; [now left | exact Hst].
    + right. now left.
    + right. now left.
  - destruct (IH Hin) as [(d & Hd & Hst) | Hf].
    + left. exists d. split; [apply in_or_app; now right | exact Hst].
    + right. rewrite map_app. apply in_or_app. now right.
Qed.

Lemma getArrangementById_updated s id f a :
  (forall x, Arrangement.id (f x) = Arrangement.id x) ->
  Storage.getArrangementById s id = Some a ->
  Storage.getArrangementById (snd (Storage.updateArrangement s id f)) id = Some (f a).
Proof.
  intros Hf. unfold Storage.getArrangementById, Storage.updateArrangement,
    Storage.update_where, Storage.first. cbn.
  induction (rows (arrangements s)) as [|x l IH]; cbn; [discriminate|].
  destruct (Arrangement.id x =? id) eqn:Hx; cbn.
  - rewrite Hf, Hx. cbn. congruence.
  - rewrite Hx. exact IH.
Qed.

Lemma markApproved_run E aid w :
  markApproved E aid w = (inr tt, markedWorld E aid w).
Proof. reflexivity. Qed.

Lemma createFollowUpTask_spec E aid a t w :
  exists w', createFollowUpTask E aid a t w = (inr tt, w') /\ added [] w w'.
Proof.
  unfold createFollowUpTask, try_catch, bind.
  pose proof (keeps_generateDocument E tasks (rawExtractedData a)
                (Transcript.content t) None w) as H1.
  destruct (generateDocument E tasks (rawExtractedData a) (Transcript.content t) None w)
    as [[e|tasksContent] w1]; cbn in H1; cbn.
  - exists w1. split; [reflexivity | now apply added_same].
  - eexists. split; [reflexivity|]. unfold added. cbn. rewrite H1, app_nil_r. auto.
Qed.

Lemma generateAll_spec E uid aid a t w :
  exists outs w',
    generateAll E uid aid a t w
      = (inr (approvedResponse (allDocs outs) (allFails outs)
                (Storage.getArrangementById (store w') aid)), w')
    /\ added (allDocs outs) w w'
    /\ Outcomes documentTypes outs.
Proof.
  unfold generateAll, bind.
  destruct (approveLoop_spec E uid aid a t documentTypes ([], []) w)
    as (outs & w1 & Hrun & Hadd & Houts).
  rewrite Hrun. cbn [fst snd app].
  destruct (createFollowUpTask_spec E aid a t w1) as (w2 & Hrun2 & Hadd2).
  rewrite Hrun2. exists outs, w2. split; [reflexivity|].
  split; [|exact Houts].
  rewrite <- (app_nil_r (allDocs outs)). eapply added_trans; eassumption.
Qed.

Lemma approve_run E req w (u : TokenPayload) aid a t :
  user req = Some u ->
  parseInt (param req "id") = Some aid ->
  Storage.getArrangementById (store w) aid = Some a ->
  Storage.getTranscriptById (store w) (Arrangement.transcriptId a) (userId u) = Some t ->
  approve E req w
  = guarded (generateAll E (userId u) aid a t) (markedWorld E aid w).
Proof.
  intros Hu Hid Ha Ht.
  unfold approve, guarded, try_catch, bind, dbId, getStore, reqUserId.
  rewrite Hid, Hu. cbn. rewrite Ha. cbn. rewrite Ht. reflexivity.
Qed.

Lemma approved_in_marked E aid w a :
  Storage.getArrangementById (store w) aid = Some a ->
  Storage.getArrangementById (store (markedWorld E aid w)) aid
  = Some (Storage.setApproval "approved" (now E) a).
Proof.
  intros Ha. apply getArrangementById_updated; [reflexivity | exact Ha].
Qed.

Lemma getArrangementById_same s s' id :
  arrangements s' = arrangements s ->
  Storage.getArrangementById s' id = Storage.getArrangementById s id.
Proof. unfold Storage.getArrangementById. now intros ->. Qed.

Lemma one_type_of_each (type : DocType) :
  List.length (filter (fun t => String.eqb (docTypeName t) (docTypeName type))
                      documentTypes) = 1%nat.
Proof. destruct type; reflexivity. Qed.

Lemma every_type_listed (type : DocType) : In type documentTypes.
Proof. destruct type; cbn; auto 7. Qed.

Lemma expectedDocuments_types E aid data transcript types :
  forall id calls,
    map Document.type (expectedDocuments E aid data transcript id calls types)
    = map docTypeName types.
Proof.
  induction types as [|type rest IH]; intros id calls; cbn; [reflexivity|].
  now rewrite IH.
Qed.

(** C1: when the arrangement exists and its transcript belongs to the
    requesting user, the approval answers with status 200 and does not
    throw.  The arrangement then has [approvalStatus] ['approved'] and
    [approvedAt] the current time.  The rows [docs] of the answer are the
    rows added to [documents]: six at most, one at most of each type,
    six when no type failed.  A type that has no row with its PDF is
    named in [failedDocuments].  When every outside party answers (the
    extracted data parse, every request to the model gives a text that
    is not blank, every rendering gives its bytes) no type fails and the
    rows are the six expected ones, one of each type in the order of the
    loop: the plain text of a row is the answer to the first request of
    its turn, its content the rendering of the answer to the second. *)
Theorem approve_generates_documents E req w (u : TokenPayload) aid a t :
  user req = Some u ->
  parseInt (param req "id") = Some aid ->
  Storage.getArrangementById (store w) aid = Some a ->
  Storage.getTranscriptById (store w) (Arrangement.transcriptId a) (userId u) = Some t ->
  exists docs fails w',
    let approved := Storage.setApproval "approved" (now E) a in
    approve E req w = (inr (approvedResponse docs fails (Some approved)), w')
    /\ Storage.getArrangementById (store w') aid = Some approved
    /\ Arrangement.approvalStatus approved = "approved"
    /\ Arrangement.approvedAt approved = Some (now E)
    /\ rows (documents (store w')) = (rows (documents (store w)) ++ docs)%list
    /\ (List.length docs <= 6)%nat
    /\ (forall type,
          (List.length (filter (ofType (docTypeName type)) docs) <= 1)%nat)
    /\ (fails = [] -> List.length docs = 6%nat)
    /\ (forall type,
          (exists d, In d docs /\ Document.type d = docTypeName type
                     /\ Document.plainTextContent d <> None)
          \/ In (docTypeName type) (map failedType fails))
    /\ (forall data,
          everyPartyAnswers E a t data ->
          fails = []
          /\ docs = expectedDocuments E aid data (Transcript.content t)
                      (serial (documents (store w))) (llmCalls w) documentTypes
          /\ map Document.type docs = map docTypeName documentTypes
          /\ List.length docs = 6%nat).
Proof.
  intros Hu Hid Ha Ht.
  rewrite (approve_run E req w u aid a t Hu Hid Ha Ht).
  destruct (generateAll_spec E (userId u) aid a t (markedWorld E aid w))
    as (outs & w' & Hrun & (Hdocs & Harr & _ & _) & Houts).
  exists (allDocs outs), (allFails outs), w'. cbn zeta.
  assert (Hfinal : Storage.getArrangementById (store w') aid
                   = Some (Storage.setApproval "approved" (now E) a)).
  { rewrite (getArrangementById_same _ _ aid Harr).
    now apply approved_in_marked. }
  unfold guarded, try_catch. rewrite Hrun, Hfinal.
  split; [reflexivity|]. split; [reflexivity|].
  split; [reflexivity|]. split; [reflexivity|].
  split; [exact Hdocs|].
  split; [exact (outcomes_length _ _ Houts)|].
  split.
  { intros type. rewrite <- (one_type_of_each type).
    now apply outcomes_count. }
  split; [exact (outcomes_no_failure _ _ Houts)|].
  split.
  { intros type.
    destruct (outcomes_covered _ _ type Houts (every_type_listed type))
      as [(d & Hd & Hty & Hpdf) | Hf]; [left | right; exact Hf].
    exists d. auto. }
  intros data Hall.
  destruct (generateAll_answers E (userId u) aid a t data _ _ _ _ _ Hall Hrun)
    as [Hfails Hexp].
  split; [exact Hfails|]. split; [exact Hexp|].
  rewrite Hexp. split; [apply expectedDocuments_types | reflexivity].
Qed.


End ApprovalTheorems.

(** ** The reconciliation of the usage metrics *)

Section UsageTracking.
Import Routes.

Lemma track_found E s uid metricType usr :
  Storage.getUser s uid = Some usr ->
  exists m,
    rowOf uid (User.billingPeriodStart usr) metricType m
    /\ rows (userUsageMetrics (Storage.trackUsageMetric E s uid metricType))
       = (rows (userUsageMetrics s) ++ [m])%list
    /\ users (Storage.trackUsageMetric E s uid metricType) = users s
    /\ transcripts (Storage.trackUsageMetric E s uid metricType) = transcripts s
    /\ arrangements (Storage.trackUsageMetric E s uid metricType) = arrangements s
    /\ documents (Storage.trackUsageMetric E s uid metricType) = documents s.
Proof.
  intros Hget. unfold Storage.trackUsageMetric. rewrite Hget. cbn.
  eexists. split; [|repeat split; reflexivity]. repeat split.
Qed.

Lemma getUser_same s s' id :
  users s' = users s -> Storage.getUser s' id = Storage.getUser s id.
Proof. unfold Storage.getUser. now intros ->. Qed.

End UsageTracking.

(** ** The reconciliation of the usage metrics *)

Section Reconcile.
Import Routes.

(** A turn of the loop ends at the first query: it throws and has written
    nothing. *)
Lemma reconcileUser_throws E totals u w :
  reconcileUser E totals u w = (inl "db is not defined", w).
Proof. reflexivity. Qed.

Lemma reconcileLoop_run E (l : list User.t) totals w :
  reconcileLoop E l totals w
  = match l with
    | [] => (inr totals, w)
    | _ :: _ => (inl "db is not defined", w)
    end.
Proof. destruct l; reflexivity. Qed.

(** The answer of every run, and the world it leaves. *)
Lemma reconcileMetrics_run E req w :
  reconcileMetrics E req w
  = (inr match Storage.getAllUsers (store w) with
         | [] => json 200 (JsonReconciled
                             "Historical usage metrics reconciled successfully" 0 0)
         | _ :: _ => json 500 (JsonMessage "db is not defined")
         end, w).
Proof.
  unfold reconcileMetrics, guarded, try_catch, bind, getStore.
  rewrite reconcileLoop_run. destruct (Storage.getAllUsers (store w)); reflexivity.
Qed.

(** C6: a second run of the reconciliation right after a first one
    changes nothing: it inserts no usage-metric row and, when it answers
    with status 200, reports zero rows backfilled.  No run inserts a row:
    the turn of a user ends at the first query of the handler, on [db],
    which [routes.ts] does not import, before [trackUsageMetric] is
    called; so the rows backfilled for a user, none, never exceed its
    processed transcripts or its documents.  A run on a database with a
    user answers with status 500, and with status 200 and two zeroes on a
    database without users. *)
Theorem reconcile_twice_adds_nothing E req1 req2 w :
  let w1 := snd (reconcileMetrics E req1 w) in
  snd (reconcileMetrics E req2 w1) = w1
  /\ rows (userUsageMetrics (store (snd (reconcileMetrics E req2 w1))))
     = rows (userUsageMetrics (store w1))
  /\ (forall m t d,
        fst (reconcileMetrics E req2 w1) = inr (json 200 (JsonReconciled m t d)) ->
        t = 0 /\ d = 0)
  /\ w1 = w
  /\ (forall totals u w0,
        reconcileUser E totals u w0 = (inl "db is not defined", w0))
  /\ (forall req w0,
        fst (reconcileMetrics E req w0)
        = inr match Storage.getAllUsers (store w0) with
              | [] => json 200 (JsonReconciled
                                  "Historical usage metrics reconciled successfully"
                                  0 0)
              | _ :: _ => json 500 (JsonMessage "db is not defined")
              end).
Proof.
  cbn zeta. rewrite !reconcileMetrics_run. cbn [fst snd].
  split; [reflexivity|]. split; [reflexivity|]. split.
  - intros m t d Hresp. destruct (Storage.getAllUsers (store w)); [|discriminate].
    injection Hresp as _ <- <-. split; reflexivity.
  - split; [reflexivity|]. split; [intros; apply reconcileUser_throws|].
    intros req w0. now rewrite reconcileMetrics_run.
Qed.

End Reconcile.

(** ** The pagination of the direct-draw backend *)

Section Pagination.
Import ImprovedPDF ImprovedLayout.
Local Open Scope Q_scope.

Lemma pageBreaks_app l1 l2 :
  pageBreaks (l1 ++ l2) = (pageBreaks l1 + pageBreaks l2)%nat.
Proof. unfold pageBreaks. now rewrite filter_app, length_app. Qed.

Lemma breaks_emit o d :
  breaksOf (emit o d) = (breaksOf d + if isAddPage o then 1 else 0)%nat.
Proof. unfold breaksOf, emit. cbn [ops]. rewrite pageBreaks_app. destruct o; reflexivity. Qed.

Lemma breaks_setFont f d : breaksOf (setFont f d) = breaksOf d.
Proof. unfold breaksOf, setFont. cbn [ops]. rewrite pageBreaks_app. cbn. lia. Qed.

Lemma breaks_setFontSize z d : breaksOf (setFontSize z d) = breaksOf d.
Proof. unfold breaksOf, setFontSize. cbn [ops]. rewrite pageBreaks_app. cbn. lia. Qed.

Lemma breaks_renderWord C startX maxWidth lh seg word last p :
  breaksOf (doc (renderWord C startX maxWidth lh seg word last p)) = breaksOf (doc p).
Proof.
  unfold renderWord. cbn [doc].
  destruct (segUnderline seg); rewrite ?breaks_emit; cbn; lia.
Qed.

Lemma breaks_renderWords C startX maxWidth lh seg ws :
  forall p, breaksOf (doc (renderWords C startX maxWidth lh seg ws p)) = breaksOf (doc p).
Proof.
  induction ws as [|w rest IH]; intros p; [reflexivity|].
  cbn [renderWords]. rewrite IH. apply breaks_renderWord.
Qed.

Lemma breaks_renderSegment C startX maxWidth lh p seg :
  breaksOf (doc (renderSegment C startX maxWidth lh p seg)) = breaksOf (doc p).
Proof.
  unfold renderSegment. destruct (String.eqb _ _); [reflexivity|].
  rewrite breaks_renderWords. cbn [doc]. apply breaks_setFont.
Qed.

Lemma breaks_renderFormattedText C d segments startX maxWidth y lh :
  breaksOf (fst (renderFormattedText C d segments startX maxWidth y lh)) = breaksOf d.
Proof.
  unfold renderFormattedText. cbn [fst].
  change d with (doc {| currentX := startX; currentY := y; doc := d |}) at 2.
  generalize {| currentX := startX; currentY := y; doc := d |} as p.
  induction segments as [|seg rest IH]; intros p; [reflexivity|].
  cbn [fold_left]. rewrite IH. apply breaks_renderSegment.
Qed.

(** The [switch] adds no page: pages are added by the test before it. *)
Lemma breaks_placeItem C margin contentWidth st item :
  breaksOf (snd (placeItem C margin contentWidth st item)) = breaksOf (snd st).
Proof.
  destruct st as [y d]. unfold placeItem. cbn [snd].
  destruct (ImprovedPDF.type item); cbn [snd].
  - rewrite breaks_emit, breaks_setFont, breaks_setFontSize. cbn. lia.
  - pose proof (breaks_renderFormattedText C (setFontSize 11 d)
                  (parseInlineFormatting (content item)) margin contentWidth
                  y lineHeight) as H.
    destruct (renderFormattedText _ _ _ _ _ _ _) as [d' newY]. cbn [fst snd] in *.
    rewrite H. apply breaks_setFontSize.
  - pose proof (breaks_renderFormattedText C
                  (emit (Text ["•"%string] (margin + 10) y)
                        (setFont normal (setFontSize 11 d)))
                  (parseInlineFormatting (content item)) (margin + 25)
                  (contentWidth - 25) y lineHeight) as H.
    destruct (renderFormattedText _ _ _ _ _ _ _) as [d' newY]. cbn [fst snd] in *.
    rewrite H, breaks_emit, breaks_setFont, breaks_setFontSize. cbn. lia.
  - reflexivity.
  - reflexivity.
  - rewrite !breaks_emit. cbn. lia.
Qed.

Lemma breaks_breakPage margin pageHeight st :
  breaksOf (snd (breakPage margin pageHeight st))
  = (breaksOf (snd st) + if needsNewPage pageHeight (fst st) then 1 else 0)%nat.
Proof.
  unfold breakPage. destruct (needsNewPage pageHeight (fst st)); cbn [snd].
  - rewrite breaks_emit. reflexivity.
  - lia.
Qed.

Lemma start_within margin pageHeight st :
  margin + 20 <= pageHeight - bottomMargin ->
  fst (breakPage margin pageHeight st) <= pageHeight - bottomMargin.
Proof.
  intros Hfit. unfold breakPage, needsNewPage, gt.
  destruct (Qle_bool (fst st) (pageHeight - bottomMargin)) eqn:Hle; cbn [negb fst].
  - now apply Qle_bool_iff.
  - exact Hfit.
Qed.

Lemma layout_from C items (margin contentWidth pageHeight : Q) :
  margin + 20 <= pageHeight - bottomMargin ->
  forall st,
    let out := fold_left (layoutItem C margin contentWidth pageHeight) items st in
    breaksOf (snd out)
      = (breaksOf (snd st)
         + List.length (filter (needsNewPage pageHeight)
                          (arrivals C margin contentWidth pageHeight st items)))%nat
    /\ (breaksOf (snd out) <= breaksOf (snd st) + List.length items)%nat
    /\ Forall (fun y => y <= pageHeight - bottomMargin)
              (startCursors C margin contentWidth pageHeight st items).
Proof.
  intros Hfit. induction items as [|item rest IH]; intros st.
  - cbn [fold_left arrivals startCursors filter List.length].
    rewrite Nat.add_0_r. repeat split; [apply Nat.le_refl | constructor].
  - cbn [fold_left arrivals startCursors filter List.length].
    destruct (IH (layoutItem C margin contentWidth pageHeight st item))
      as (Hcount & Hbound & Hstarts).
    assert (Hstep : breaksOf (snd (layoutItem C margin contentWidth pageHeight st item))
                    = (breaksOf (snd st)
                       + if needsNewPage pageHeight (fst st) then 1 else 0)%nat).
    { unfold layoutItem. now rewrite breaks_placeItem, breaks_breakPage. }
    rewrite Hstep in Hcount, Hbound.
    split; [|split].
    + rewrite Hcount. destruct (needsNewPage pageHeight (fst st)); cbn [List.length]; lia.
    + destruct (needsNewPage pageHeight (fst st)); lia.
    + constructor; [now apply start_within | exact Hstarts].
Qed.

(** C3, as the code has it: pages are broken between items only.  A page
    is added exactly for the items that arrive with the cursor beyond the
    page height less 80, one page at most for each item; and on a page on
    which the top margin lies above that limit, every item starts with
    the cursor at the limit or above it. *)
Theorem pages_break_between_items
        C d items (margin contentWidth startY pageHeight : Q) :
  margin + 20 <= pageHeight - bottomMargin ->
  let out := addFormattedContent C d items margin contentWidth startY pageHeight in
  pageBreaks (ops (snd out))
    = (pageBreaks (ops d)
       + List.length (filter (needsNewPage pageHeight)
                        (arrivals C margin contentWidth pageHeight (startY, d) items)))%nat
  /\ (pageBreaks (ops (snd out)) <= pageBreaks (ops d) + List.length items)%nat
  /\ Forall (fun y => y <= pageHeight - bottomMargin)
            (startCursors C margin contentWidth pageHeight (startY, d) items).
Proof.
  intros Hfit.
  exact (layout_from C items margin contentWidth pageHeight Hfit (startY, d)).
Qed.

(** C3 as it is stated fails: fifty list items on an A4 page are 900
    points high, which is more than the page; the specification asks for
    [ceil(900 / 841.89) = 2] page breaks and the engine makes one. *)
Lemma fifty_items_break_once :
  ~ paginatesAsSpecified monospace fiftyItems pageMargin a4ContentWidth
      headerEnd a4Height.
Proof.
  unfold paginatesAsSpecified. intros H.
  assert (Htall : a4Height < totalHeight monospace pageMargin a4ContentWidth fiftyItems)
    by (vm_compute; reflexivity).
  destruct (H Htall) as [Hbreaks _].
  vm_compute in Hbreaks. discriminate Hbreaks.
Qed.

(** Inside a paragraph no page is added: sixty wide words are placed on
    sixty lines of one page, the last of them at [y = 1025], far below
    the limit and below the page itself. *)
Lemma long_paragraph_leaves_the_page :
  let out := ops (snd (addFormattedContent monospace freshDoc longParagraph
                         pageMargin a4ContentWidth headerEnd a4Height)) in
  pageBreaks out = 0%nat
  /\ Exists (fun y => a4Height < y) (placedYs out).
Proof.
  split; [vm_compute; reflexivity|].
  apply Exists_exists. exists 1025. split; [|vm_compute; reflexivity].
  vm_compute. repeat (first [left; reflexivity | right]).
Qed.

End Pagination.

(** ** Further properties of the code *)

Section StringFacts.
Import JsString.

Lemma last_char_rev_string (s acc : string) :
  last_char (rev_string acc s)
  = match acc with
    | EmptyString => head_char s
    | String _ _ => last_char acc
    end.
Proof.
  revert acc. induction s as [|c s IH]; intros acc; cbn [rev_string].
  - destruct acc; reflexivity.
  - rewrite IH. destruct acc as [|a acc]; reflexivity.
Qed.

Lemma head_drop_while p s c :
  head_char (drop_while p s) = Some c -> p c = false.
Proof.
  induction s as [|a s IH]; cbn; [discriminate|].
  destruct (p a) eqn:Hp; [exact IH|]. cbn. congruence.
Qed.

(** What [trim] returns does not end in white space. *)
Lemma last_char_trim raw c : last_char (trim raw) = Some c -> is_space c = false.
Proof.
  unfold trim, trimEnd. rewrite last_char_rev_string.
  apply head_drop_while.
Qed.

Lemma strip_prefix_some p s rest :
  strip_prefix p s = Some rest -> s = (p ++ rest)%string.
Proof.
  revert s. induction p as [|a p IH]; intros s; cbn.
  - congruence.
  - destruct s as [|b s]; [discriminate|].
    destruct (Ascii.eqb a b) eqn:Hab; [|discriminate].
    apply Ascii.eqb_eq in Hab. subst b. intros H. rewrite (IH _ H). reflexivity.
Qed.

Lemma last_char_app p t :
  t <> EmptyString -> last_char (p ++ t) = last_char t.
Proof.
  intros Ht. induction p as [|a p IH]; [reflexivity|].
  cbn [append last_char]. rewrite IH.
  destruct (p ++ t)%string eqn:Hpt; [|reflexivity].
  destruct p; cbn in Hpt; [contradiction | discriminate].
Qed.

Lemma drop_while_all p s :
  drop_while p s = EmptyString -> all_chars p s = true.
Proof.
  induction s as [|a s IH]; cbn; [reflexivity|].
  destruct (p a); [exact IH | discriminate].
Qed.

Lemma last_char_all p s c :
  all_chars p s = true -> last_char s = Some c -> p c = true.
Proof.
  induction s as [|a s IH]; cbn [all_chars last_char]; [discriminate|].
  intros Hall. apply andb_true_iff in Hall. destruct Hall as [Ha Hs].
  destruct s as [|b s]; [congruence | exact (IH Hs)].
Qed.

Lemma last_char_some s : s <> EmptyString -> exists c, last_char s = Some c.
Proof.
  induction s as [|a s IH]; [contradiction|]. intros _.
  destruct s as [|b s]; [eexists; reflexivity|].
  destruct IH as [c Hc]; [discriminate|]. exists c. exact Hc.
Qed.

(** After [^<p>\s+] on a trimmed line something is left, and it does not
    start with white space. *)
Lemma strip_prefix_spaces_trimmed p raw rest :
  strip_prefix_spaces p (trim raw) = Some rest ->
  rest <> EmptyString
  /\ forall c, head_char rest = Some c -> is_space c = false.
Proof.
  unfold strip_prefix_spaces.
  destruct (strip_prefix p (trim raw)) as [[|c t]|] eqn:Hp; try discriminate.
  destruct (is_space c) eqn:Hc; [|discriminate].
  intros H. injection H as <-. split.
  - intros Hnil. apply strip_prefix_some in Hp.
    destruct (last_char_some (String c t)) as [z Hz]; [discriminate|].
    assert (Hsp : is_space z = true).
    { apply (last_char_all is_space (String c t)); [|exact Hz].
      cbn [all_chars]. rewrite Hc. now apply drop_while_all. }
    assert (Hlast : last_char (trim raw) = Some z).
    { rewrite Hp, last_char_app; [exact Hz | discriminate]. }
    apply last_char_trim in Hlast. congruence.
  - intros z. apply head_drop_while.
Qed.

End StringFacts.

Section ParserProperties.
Import JsString ImprovedPDF.

Lemma parseLine_blank raw :
  parseLine raw = None <-> blankLine raw = true.
Proof.
  unfold parseLine, blankLine.
  destruct (String.eqb (trim raw) EmptyString); split; congruence.
Qed.

Lemma parseLine_produced raw item :
  parseLine raw = Some item -> producedType (type item) = true.
Proof.
  unfold parseLine. destruct (String.eqb (trim raw) EmptyString); [discriminate|].
  intros H. injection H as <-.
  destruct (strip_prefix_spaces "###" (trim raw)); [reflexivity|].
  destruct (strip_prefix_spaces "##" (trim raw)); [reflexivity|].
  destruct (strip_prefix_spaces "#" (trim raw)).
  { destruct (negb _); reflexivity. }
  destruct (_ || _); [reflexivity|].
  destruct (_ || _); reflexivity.
Qed.

(** X1: the direct-draw parser gives one item for every line of the text
    that is not blank, in the order of the lines, and never an item of
    type bold or italic. *)
Theorem parse_one_item_per_line (text : string) :
  List.length (parseMarkdownContent text)
  = List.length (filter (fun raw => negb (blankLine raw)) (split "010"%char text))
  /\ Forall (fun item => producedType (type item) = true) (parseMarkdownContent text)
  /\ parseMarkdownContent text
     = collect (map parseLine (filter (fun raw => negb (blankLine raw))
                                      (split "010"%char text))).
Proof.
  unfold parseMarkdownContent.
  induction (split "010"%char text) as [|raw l (IH1 & IH2 & IH3)];
    [cbn; auto|].
  cbn [map collect filter].
  destruct (parseLine raw) as [item|] eqn:Hp.
  - assert (Hb : blankLine raw = false).
    { destruct (blankLine raw) eqn:Hb; [|reflexivity].
      apply parseLine_blank in Hb. congruence. }
    rewrite Hb. cbn [negb map collect List.length]. rewrite Hp.
    split; [now rewrite IH1|]. split; [|now rewrite <- IH3].
    constructor; [exact (parseLine_produced raw item Hp) | exact IH2].
  - apply parseLine_blank in Hp. rewrite Hp. cbn [negb]. auto.
Qed.

(** X2: a header the direct-draw parser gives has level 1, 2 or 3, with
    the bold font at 18, 16 or 14 points, and its text is not empty and
    does not start with white space. *)
Theorem parsed_header_shape (raw : string) (item : ParsedContent) :
  parseLine raw = Some item ->
  type item = header ->
  (item = mkHeader 1 18 (content item)
   \/ item = mkHeader 2 16 (content item)
   \/ item = mkHeader 3 14 (content item))
  /\ content item <> EmptyString
  /\ forall c, head_char (content item) = Some c -> is_space c = false.
Proof.
  unfold parseLine. destruct (String.eqb (trim raw) EmptyString); [discriminate|].
  intros H. injection H as <-.
  destruct (strip_prefix_spaces "###" (trim raw)) as [rest|] eqn:H3.
  { intros _. split; [auto | exact (strip_prefix_spaces_trimmed _ _ _ H3)]. }
  destruct (strip_prefix_spaces "##" (trim raw)) as [rest|] eqn:H2.
  { intros _. split; [auto | exact (strip_prefix_spaces_trimmed _ _ _ H2)]. }
  destruct (strip_prefix_spaces "#" (trim raw)) as [rest|] eqn:H1.
  { destruct (negb _); [|discriminate].
    intros _. split; [auto | exact (strip_prefix_spaces_trimmed _ _ _ H1)]. }
  destruct (_ || _); [discriminate|].
  destruct (_ || _); discriminate.
Qed.

End ParserProperties.

Section ParserText.
Import JsString ImprovedPDF.

Lemma drop_while_suffix p s : exists pre, s = (pre ++ drop_while p s)%string.
Proof.
  induction s as [|a s [pre IH]]; [exists EmptyString; reflexivity|].
  cbn. destruct (p a).
  - exists (String a pre). cbn. now rewrite <- IH.
  - exists EmptyString. reflexivity.
Qed.

Lemma strip_bullet_trimmed raw rest :
  strip_bullet (trim raw) = Some rest -> rest <> EmptyString.
Proof.
  unfold strip_bullet.
  destruct (trim raw) as [|c [|w t]] eqn:Hline; try discriminate.
  destruct (_ && is_space w) eqn:Hc; [|discriminate].
  apply andb_true_iff in Hc. destruct Hc as [_ Hw].
  intros H. injection H as <-. intros ->.
  assert (Hlast : last_char (trim raw) = Some w) by now rewrite Hline.
  apply last_char_trim in Hlast. congruence.
Qed.

Lemma strip_ordinal_trimmed raw rest :
  strip_ordinal (trim raw) = Some rest -> rest <> EmptyString.
Proof.
  unfold strip_ordinal.
  destruct (trim raw) as [|c t] eqn:Hline; [discriminate|].
  destruct (is_digit c); [|discriminate].
  destruct (drop_while_suffix is_digit (String c t)) as [pre Hpre].
  destruct (drop_while is_digit (String c t)) as [|d [|w r]]; try discriminate.
  destruct (_ && is_space w) eqn:Hc; [|discriminate].
  apply andb_true_iff in Hc. destruct Hc as [_ Hw].
  intros H. injection H as <-. intros ->.
  assert (Hlast : last_char (trim raw) = Some w).
  { rewrite Hline, Hpre, last_char_app; [reflexivity | discriminate]. }
  apply last_char_trim in Hlast. congruence.
Qed.

(** X3: an item of the direct-draw parser that is not a separator has a
    text that is not empty. *)
Theorem parsed_text_not_empty (raw : string) (item : ParsedContent) :
  parseLine raw = Some item ->
  type item <> separator ->
  content item <> EmptyString.
Proof.
  unfold parseLine.
  destruct (String.eqb (trim raw) EmptyString) eqn:Hne; [discriminate|].
  apply String.eqb_neq in Hne.
  intros H. injection H as <-.
  destruct (strip_prefix_spaces "###" (trim raw)) as [rest|] eqn:H3.
  { intros _. exact (proj1 (strip_prefix_spaces_trimmed _ _ _ H3)). }
  destruct (strip_prefix_spaces "##" (trim raw)) as [rest|] eqn:H2.
  { intros _. exact (proj1 (strip_prefix_spaces_trimmed _ _ _ H2)). }
  destruct (strip_prefix_spaces "#" (trim raw)) as [rest|] eqn:H1.
  { destruct (negb _); intros _;
      [exact (proj1 (strip_prefix_spaces_trimmed _ _ _ H1)) | exact Hne]. }
  destruct (_ || _); [intros H; now contradiction H|].
  destruct (_ || _); intros _; [|exact Hne].
  cbn [content]. unfold strip_list_marker.
  destruct (strip_bullet (trim raw)) as [rest|] eqn:Hb;
    [exact (strip_bullet_trimmed _ _ Hb)|].
  destruct (strip_ordinal (trim raw)) as [rest|] eqn:Ho;
    [exact (strip_ordinal_trimmed _ _ Ho) | exact Hne].
Qed.

End ParserText.

Section EnhancedHeaders.
Import JsString EnhancedPDF.

Lemma all_chars_app p a b :
  all_chars p (a ++ b) = all_chars p a && all_chars p b.
Proof.
  induction a as [|c a IH]; [reflexivity|]. cbn. now rewrite IH, andb_assoc.
Qed.

Lemma not_terminator_not_cr c :
  is_line_terminator c = false -> Ascii.eqb c "013"%char = false.
Proof.
  intros H. destruct (Ascii.eqb c "013"%char) eqn:E; [|reflexivity].
  apply Ascii.eqb_eq in E. subst. discriminate H.
Qed.

Lemma replace_crlf_oneLine s : oneLine s = true -> replace_crlf s = s.
Proof.
  unfold oneLine. induction s as [|c s IH]; [reflexivity|].
  cbn [all_chars]. intros H. apply andb_true_iff in H. destruct H as [Hc Hs].
  apply negb_true_iff, not_terminator_not_cr in Hc.
  cbn [replace_crlf]. destruct s as [|d s]; [reflexivity|].
  rewrite Hc. cbn [andb]. now rewrite (IH Hs).
Qed.

Lemma replace_cr_oneLine s : oneLine s = true -> replace_cr s = s.
Proof.
  unfold oneLine. induction s as [|c s IH]; [reflexivity|].
  cbn [all_chars]. intros H. apply andb_true_iff in H. destruct H as [Hc Hs].
  apply negb_true_iff, not_terminator_not_cr in Hc.
  cbn [replace_cr]. now rewrite Hc, (IH Hs).
Qed.

Lemma replace_inline rule n o c s :
  oneLine s = true -> replace_header rule n o c InLine s = s.
Proof.
  unfold oneLine. induction s as [|a s IH]; [reflexivity|].
  cbn [all_chars]. intros H. apply andb_true_iff in H. destruct H as [Ha Hs].
  apply negb_true_iff in Ha.
  cbn [replace_header]. unfold next_plain. now rewrite Ha, (IH Hs).
Qed.

Lemma replace_capture rule n o c s :
  oneLine s = true -> replace_header rule n o c Capture s = (s ++ c)%string.
Proof.
  unfold oneLine. induction s as [|a s IH]; [reflexivity|].
  cbn [all_chars]. intros H. apply andb_true_iff in H. destruct H as [Ha Hs].
  apply negb_true_iff in Ha.
  cbn [replace_header]. now rewrite Ha, (IH Hs).
Qed.

Lemma replace_skip_spaces rule n o c s :
  oneLine s = true -> startsPlain s = true ->
  replace_header rule n o c SkipSpaces s = (s ++ c)%string.
Proof.
  destruct s as [|a s]; [reflexivity|].
  unfold oneLine. cbn [all_chars startsPlain].
  intros H Hp. apply andb_true_iff in H. destruct H as [_ Hs].
  apply andb_true_iff in Hp. destruct Hp as [_ Hsp]. apply negb_true_iff in Hsp.
  cbn [replace_header]. rewrite Hsp.
  now rewrite (replace_capture rule n o c s Hs).
Qed.

(** No match at the start of a line without terminator: the replacement
    leaves it as it is. *)
Lemma replace_no_match rule n s :
  oneLine s = true -> matches_here rule n s = false -> replace_h rule n s = s.
Proof.
  unfold replace_h. destruct s as [|a s]; [reflexivity|].
  intros Hl Hm. cbn [replace_header]. rewrite Hm.
  unfold oneLine in Hl. cbn [all_chars] in Hl.
  apply andb_true_iff in Hl. destruct Hl as [Ha Hs]. apply negb_true_iff in Ha.
  unfold next_plain. rewrite Ha. now rewrite replace_inline.
Qed.

Lemma strip_prefix_more_hashes (m n : nat) (t : string) :
  (n < m)%nat ->
  match t with String c _ => is_hash c = false | EmptyString => True end ->
  strip_prefix (hashes m) (hashes n ++ t) = None.
Proof.
  revert m. induction n as [|n IH]; intros m Hlt Ht.
  - destruct m as [|m]; [lia|]. cbn [hashes append strip_prefix].
    destruct t as [|c t]; [reflexivity|].
    unfold is_hash in Ht. rewrite Ascii.eqb_sym, Ht. reflexivity.
  - destruct m as [|m]; [lia|]. cbn [hashes append strip_prefix].
    rewrite Ascii.eqb_refl. apply IH; [lia | exact Ht].
Qed.

Lemma no_match_more_hashes rule (m n : nat) (t : string) :
  (n < m)%nat ->
  match t with String c _ => is_hash c = false | EmptyString => True end ->
  matches_here rule m (hashes n ++ t) = false.
Proof.
  intros Hlt Ht. unfold matches_here.
  now rewrite strip_prefix_more_hashes.
Qed.

Lemma strip_prefix_app p t : strip_prefix p (p ++ t) = Some t.
Proof.
  induction p as [|a p IH]; [reflexivity|].
  cbn. now rewrite Ascii.eqb_refl.
Qed.

Lemma replace_after_hashes n o c k t t' :
  replace_header SpaceStar n o c SkipSpaces t' = (t ++ c)%string ->
  replace_header SpaceStar n o c (after_hashes SpaceStar k) (hashes k ++ t')
  = (t ++ c)%string.
Proof.
  intros Ht. induction k as [|k IH]; [exact Ht|].
  cbn [hashes append after_hashes replace_header Nat.pred]. exact IH.
Qed.

(** The rule [/^#{n}\s*(.*$)/gm] on a line of [n] hashes, white space or
    none, and a text. *)
Lemma replace_exact n t t' :
  (0 < n)%nat ->
  replace_header SpaceStar n (h_open n) (h_close n) SkipSpaces t'
    = (t ++ h_close n)%string ->
  replace_h SpaceStar n (hashes n ++ t') = (h_open n ++ t ++ h_close n)%string.
Proof.
  intros Hn Ht. unfold replace_h.
  destruct n as [|n]; [lia|].
  change (hashes (S n) ++ t')%string with (String "#"%char (hashes n ++ t')).
  cbn [replace_header].
  assert (Hm : matches_here SpaceStar (S n) (String "#"%char (hashes n ++ t')) = true).
  { unfold matches_here.
    change (String "#"%char (hashes n ++ t')) with (hashes (S n) ++ t')%string.
    now rewrite strip_prefix_app. }
  rewrite Hm. cbn [Nat.pred].
  now rewrite (replace_after_hashes (S n) _ _ n t t' Ht).
Qed.

Lemma no_match_tag rule m n s :
  (0 < m)%nat -> matches_here rule m (h_open n ++ s) = false.
Proof.
  intros Hm. destruct m as [|m]; [lia|]. reflexivity.
Qed.

Lemma oneLine_hashes n : oneLine (hashes n) = true.
Proof. induction n as [|n IH]; [reflexivity | exact IH]. Qed.

Lemma oneLine_tagged n t :
  (1 <= n <= 4)%nat ->
  oneLine t = true -> oneLine (h_open n ++ t ++ h_close n) = true.
Proof.
  intros Hn Ht. unfold oneLine in *.
  rewrite !all_chars_app, Ht.
  assert (Hc : (n = 1 \/ n = 2 \/ n = 3 \/ n = 4)%nat) by lia.
  destruct Hc as [-> | [-> | [-> | ->]]]; reflexivity.
Qed.

Lemma hashes_then_text rule (m n : nat) (t : string) :
  (n < m)%nat -> oneLine t = true ->
  match t with String c _ => is_hash c = false | EmptyString => True end ->
  replace_h rule m (hashes n ++ t) = (hashes n ++ t)%string.
Proof.
  intros Hlt Hl Ht. apply replace_no_match.
  - pose proof (oneLine_hashes n) as Hh. unfold oneLine in *.
    now rewrite all_chars_app, Hl, Hh.
  - now apply no_match_more_hashes.
Qed.

Lemma tagged_stays rule (m n : nat) (t : string) :
  (0 < m)%nat -> (1 <= n <= 4)%nat -> oneLine t = true ->
  replace_h rule m (h_open n ++ t ++ h_close n)
  = (h_open n ++ t ++ h_close n)%string.
Proof.
  intros Hm Hn Hl. apply replace_no_match.
  - now apply oneLine_tagged.
  - now apply no_match_tag.
Qed.

(** The header stage on one line made of [n] hashes and [t']. *)
Lemma header_line n text t' :
  (1 <= n <= 4)%nat ->
  oneLine text = true -> oneLine t' = true ->
  match t' with String c _ => is_hash c = false | EmptyString => True end ->
  replace_header SpaceStar n (h_open n) (h_close n) SkipSpaces t'
    = (text ++ h_close n)%string ->
  markdownToHTML_headers (hashes n ++ t') = (h_open n ++ text ++ h_close n)%string.
Proof.
  intros Hn Hl Hl' Hh Hskip. unfold markdownToHTML_headers.
  assert (Hline : oneLine (hashes n ++ t') = true).
  { pose proof (oneLine_hashes n) as Hhs. unfold oneLine in *.
    now rewrite all_chars_app, Hl', Hhs. }
  rewrite (replace_crlf_oneLine _ Hline), (replace_cr_oneLine _ Hline).
  assert (Hc : (n = 1 \/ n = 2 \/ n = 3 \/ n = 4)%nat) by lia.
  destruct Hc as [-> | [-> | [-> | ->]]];
    repeat (rewrite hashes_then_text by (try lia; assumption));
    rewrite (replace_exact _ text t') by (try lia; assumption);
    repeat (rewrite tagged_stays by (try lia; assumption));
    reflexivity.
Qed.

(** X4: the HTML backend turns a line of one to four hashes followed by
    a text into the header of that level with that text, whether or not
    a space separates the hashes from the text. *)
Theorem enhanced_header_any_text (n : nat) (text : string) :
  (1 <= n <= 4)%nat ->
  oneLine text = true ->
  startsPlain text = true ->
  markdownToHTML_headers (hashes n ++ text) = (h_open n ++ text ++ h_close n)%string
  /\ markdownToHTML_headers (hashes n ++ " " ++ text)
     = (h_open n ++ text ++ h_close n)%string.
Proof.
  intros Hn Hl Hp.
  assert (Hskip : forall o c k,
            replace_header SpaceStar k o c SkipSpaces text = (text ++ c)%string).
  { intros o c k. now apply replace_skip_spaces. }
  split.
  - apply header_line; auto.
    destruct text as [|c t]; [exact I|].
    cbn [startsPlain] in Hp. apply andb_true_iff in Hp.
    now apply negb_true_iff.
  - apply header_line; [exact Hn | exact Hl | exact Hl | reflexivity |].
    cbn [append replace_header]. apply Hskip.
Qed.

End EnhancedHeaders.

Section DocumentServiceProperties.
Import JsString DocumentService.

Lemma rev_string_nil acc s :
  rev_string acc s = EmptyString -> acc = EmptyString /\ s = EmptyString.
Proof.
  revert acc. induction s as [|c s IH]; intros acc; cbn; [auto|].
  intros H. destruct (IH _ H) as [Hacc _]. discriminate Hacc.
Qed.

Lemma all_chars_rev_string p acc s :
  all_chars p (rev_string acc s) = all_chars p s && all_chars p acc.
Proof.
  revert acc. induction s as [|c s IH]; intros acc; cbn [rev_string all_chars].
  - reflexivity.
  - rewrite IH. cbn [all_chars].
    destruct (p c), (all_chars p s), (all_chars p acc); reflexivity.
Qed.

(** A text that starts with a character other than white space is not
    blank. *)
Lemma trim_not_blank c s : is_space c = false -> trim (String c s) <> EmptyString.
Proof.
  intros Hc. unfold trim, trimStart. cbn [drop_while]. rewrite Hc.
  unfold trimEnd. intros H.
  apply rev_string_nil in H. destruct H as [_ H].
  apply drop_while_all in H. rewrite all_chars_rev_string in H.
  cbn [all_chars] in H. rewrite Hc in H. discriminate H.
Qed.

Lemma starts_with_hash_not_blank p text :
  startsWith (String "#" p) text = true -> trim text <> EmptyString.
Proof.
  intros Hpre. unfold startsWith in Hpre. destruct text as [|c s]; [discriminate|].
  cbn [strip_prefix] in Hpre.
  destruct (Ascii.eqb "#" c) eqn:Hc; [|discriminate].
  apply Ascii.eqb_eq in Hc. subst c. now apply trim_not_blank.
Qed.

Lemma fallback_tasks_not_blank E data text :
  getFallbackTasks E data = inr text -> trim text <> EmptyString.
Proof.
  intros H. eapply starts_with_hash_not_blank.
  exact (fallback_tasks_starts E data text H).
Qed.

Lemma fallback_arranger_not_blank E data text :
  getFallbackArrangerTasks E data = inr text -> trim text <> EmptyString.
Proof.
  intros H. eapply starts_with_hash_not_blank.
  exact (fallback_arranger_starts E data text H).
Qed.

(** What the [catch] of [generateDocument] returns is not blank. *)
Lemma fallback_not_blank E type data e text w w' :
  match type with
  | arranger_tasks => lift (getFallbackArrangerTasks E data)
  | tasks => lift (getFallbackTasks E data)
  | _ => throw ("Failed to generate " ++ docTypeName type ++ " document: " ++ e)
  end w = (inr text, w') ->
  trim text <> EmptyString.
Proof.
  destruct type; unfold throw, lift; intros H; try discriminate;
    injection H as H _.
  - now apply (fallback_tasks_not_blank E data).
  - now apply (fallback_arranger_not_blank E data).
Qed.

(** X5: whatever it is given and whatever the model answers,
    [generateDocument] returns a text only if the text is not blank: the
    answer of the model when it is not blank, or the hardcoded list of
    the two task types. *)
Theorem generateDocument_never_blank E type data transcript styles w text w' :
  generateDocument E type data transcript styles w = (inr text, w') ->
  trim text <> EmptyString.
Proof.
  unfold generateDocument, try_catch, bind.
  destruct (getPromptForType E type data transcript styles) as [e|prompt];
    unfold lift at 1.
  { apply fallback_not_blank. }
  unfold generateContent.
  destruct (llm E (llmCalls w) prompt (maxOutputTokens type)) as [m| |c];
    unfold throw at 1; try apply fallback_not_blank.
  destruct (String.eqb (trim c) EmptyString) eqn:Hc.
  - unfold throw at 1. apply fallback_not_blank.
  - unfold ret. intros H. injection H as Ht _. subst text.
    now apply String.eqb_neq.
Qed.

(** The world [generateDocument] leaves: the one it found, or that one
    after one request. *)
Lemma generateDocument_world E type data transcript styles w :
  snd (generateDocument E type data transcript styles w) = w
  \/ snd (generateDocument E type data transcript styles w) = afterOneCall w.
Proof.
  destruct (generateDocument E type data transcript styles w) as [r w'] eqn:Hrun.
  cbn [snd]. revert Hrun.
  unfold generateDocument, try_catch, bind, lift, generateContent, throw, ret,
    afterOneCall.
  destruct (getPromptForType E type data transcript styles) as [e|prompt].
  { destruct type; intros H; injection H as _ <-; now left. }
  destruct (llm E (llmCalls w) prompt (maxOutputTokens type)) as [m| |c];
    try match goal with
        | |- context [String.eqb ?x EmptyString] =>
            destruct (String.eqb x EmptyString)
        end;
    destruct type; intros H; injection H as _ <-; now right.
Qed.

(** X6: [generateDocument] writes neither to the database nor to the
    outbox and makes one request to the model at most: the world it
    leaves is the one it found, or that one after one request. *)
Theorem generateDocument_one_request_at_most E type data transcript styles w :
  let w' := snd (generateDocument E type data transcript styles w) in
  (w' = w \/ w' = afterOneCall w)
  /\ store w' = store w /\ outbox w' = outbox w
  /\ (llmCalls w <= llmCalls w' <= S (llmCalls w))%nat.
Proof.
  cbn zeta.
  pose proof (generateDocument_world E type data transcript styles w) as H.
  split; [exact H|].
  destruct H as [-> | ->]; cbn; repeat split; lia.
Qed.

(** On arrangement data that is [null] or [undefined] every type throws,
    the two task types too, whose hardcoded list reads the data as well;
    no request is made. *)
Lemma generateDocument_without_data E type transcript styles w :
  (exists e, generateDocument E type Null transcript styles w = (inl e, w))
  /\ (exists e, generateDocument E type Undefined transcript styles w = (inl e, w)).
Proof.
  split; destruct type; eexists; reflexivity.
Qed.

End DocumentServiceProperties.

Section Accounting.
Import Routes DocumentService.

Lemma seq_from (m a : nat) : seq a m = map (fun k => (a + k)%nat) (seq 0 m).
Proof.
  revert a. induction m as [|m IH]; intros a; [reflexivity|].
  cbn [seq map]. rewrite Nat.add_0_r. f_equal.
  rewrite (IH (S a)), (IH 1%nat), map_map.
  apply map_ext. intros k. lia.
Qed.

Lemma idsFrom_app start n m :
  idsFrom start (n + m) = (idsFrom start n ++ idsFrom (start + Z.of_nat n) m)%list.
Proof.
  unfold idsFrom. rewrite seq_app, map_app. f_equal.
  rewrite (seq_from m (0 + n)), map_map.
  apply map_ext. intros k. lia.
Qed.

Lemma quiet_refl w : quiet 0 w w.
Proof. unfold quiet. repeat split; lia. Qed.

Lemma quiet_trans c1 c2 w w1 w2 :
  quiet c1 w w1 -> quiet c2 w1 w2 -> quiet (c1 + c2) w w2.
Proof.
  intros (Hs1 & Ho1 & Hc1) (Hs2 & Ho2 & Hc2). unfold quiet.
  rewrite Hs2, Hs1, Ho2, Ho1. repeat split; lia.
Qed.

Lemma quiet_more c c' w w' : (c <= c')%nat -> quiet c w w' -> quiet c' w w'.
Proof. intros Hle (Hs & Ho & Hc). unfold quiet. repeat split; auto; lia. Qed.

Lemma quietly_ret {A} (a : A) : quietly 0 (ret a).
Proof. intros w. apply quiet_refl. Qed.

Lemma quietly_throw {A} e : quietly 0 (@throw A e).
Proof. intros w. apply quiet_refl. Qed.

Lemma quietly_lift {A} (r : Err + A) : quietly 0 (lift r).
Proof. intros w. apply quiet_refl. Qed.

Lemma quietly_bind {A B} c1 c2 (m : M A) (k : A -> M B) :
  quietly c1 m -> (forall a, quietly c2 (k a)) -> quietly (c1 + c2) (bind m k).
Proof.
  intros Hm Hk w. unfold bind. specialize (Hm w).
  destruct (m w) as [[e|a] w1]; cbn [snd] in *.
  - eapply quiet_more; [|exact Hm]. lia.
  - eapply quiet_trans; [exact Hm | apply Hk].
Qed.

Lemma quietly_generateDocument E type data transcript styles :
  quietly 1 (generateDocument E type data transcript styles).
Proof.
  intros w.
  destruct (generateDocument_world E type data transcript styles w) as [H | H];
    rewrite H; unfold quiet, afterOneCall; cbn; repeat split; lia.
Qed.

Lemma quietly_parseExtractedData E a : quietly 0 (parseExtractedData E a).
Proof. unfold parseExtractedData. apply quietly_lift. Qed.

Lemma quietly_generatePDF E type data transcript :
  quietly 1 (generatePDF E type data transcript).
Proof.
  unfold generatePDF. change 1%nat with (1 + 0)%nat.
  apply quietly_bind; [apply quietly_generateDocument|].
  intros t. apply quietly_lift.
Qed.

Lemma metered_none uid s s' :
  users s' = users s -> userUsageMetrics s' = userUsageMetrics s ->
  metered uid 0 s s'.
Proof.
  intros Hu Hm. unfold metered. destruct (Storage.getUser s uid); [|exact Hm].
  exists []. rewrite Hm, app_nil_r. auto.
Qed.

Lemma metered_trans uid n1 n2 s s1 s2 :
  users s1 = users s ->
  metered uid n1 s s1 -> metered uid n2 s1 s2 -> metered uid (n1 + n2) s s2.
Proof.
  intros Hu. unfold metered. rewrite (getUser_same s s1 uid Hu).
  destruct (Storage.getUser s uid) as [usr|].
  - intros (m1 & Hr1 & Hl1 & Hf1) (m2 & Hr2 & Hl2 & Hf2).
    exists (m1 ++ m2)%list. rewrite Hr2, Hr1, app_assoc, length_app, Hl1, Hl2.
    split; [reflexivity|]. split; [reflexivity|].
    apply Forall_app. now split.
  - intros H1 H2. now rewrite H2.
Qed.

Lemma quiet_ran uid c w w' : quiet c w w' -> ran uid [] c w w'.
Proof.
  intros (Hs & Ho & Hc). unfold ran. rewrite Hs.
  split; [apply added_same; exact Hs|].
  split; [apply metered_none; reflexivity|].
  cbn. rewrite Z.add_0_r. repeat split; auto; lia.
Qed.

Lemma ran_trans uid l1 l2 c1 c2 w w1 w2 :
  ran uid l1 c1 w w1 -> ran uid l2 c2 w1 w2 ->
  ran uid (l1 ++ l2) (c1 + c2) w w2.
Proof.
  intros (Ha1 & Hm1 & Ht1 & Hp1 & Hb1 & Ho1 & Hc1 & Hs1 & Hi1)
         (Ha2 & Hm2 & Ht2 & Hp2 & Hb2 & Ho2 & Hc2 & Hs2 & Hi2).
  unfold ran. rewrite length_app.
  split; [eapply added_trans; eassumption|].
  split.
  { eapply metered_trans; [|eassumption|eassumption].
    exact (proj1 (proj2 (proj2 Ha1))). }
  rewrite Ht2, Ht1, Hp2, Hp1, Hb2, Hb1, Ho2, Ho1, Hs2, Hs1.
  repeat split; auto; try lia.
  rewrite map_app, Hi1, Hi2, Hs1, idsFrom_app. reflexivity.
Qed.

Lemma ran_more uid docs c c' w w' :
  (c <= c')%nat -> ran uid docs c w w' -> ran uid docs c' w w'.
Proof.
  intros Hle (Ha & Hm & Ht & Hp & Hb & Ho & Hc & Hs & Hi).
  unfold ran. repeat split; auto; try lia; apply Ha.
Qed.

Lemma attempt_after uid c1 c2 r w w1 w2 :
  quiet c1 w w1 -> attempt uid c2 r w1 w2 -> attempt uid (c1 + c2) r w w2.
Proof.
  intros Hq. destruct r as [e|d]; cbn [attempt].
  - now apply quiet_trans.
  - intros Hr. change [d] with ([] ++ [d])%list.
    eapply ran_trans; [apply quiet_ran; exact Hq | exact Hr].
Qed.

Lemma attempt_bind {A} uid c1 c2 (m : M A) (k : A -> M Document.t) :
  quietly c1 m ->
  (forall a w1, attempt uid c2 (fst (k a w1)) w1 (snd (k a w1))) ->
  forall w, attempt uid (c1 + c2) (fst (bind m k w)) w (snd (bind m k w)).
Proof.
  intros Hm Hk w. unfold bind. specialize (Hm w).
  destruct (m w) as [[e|a] w1]; cbn [fst snd attempt] in *.
  - eapply quiet_more; [|exact Hm]. lia.
  - eapply attempt_after; [exact Hm | apply Hk].
Qed.

(** Storing one document and tracking it. *)
Lemma store_and_track_ran E uid aid type title content plain status w :
  let m := bind (liftS (fun s => Storage.createDocument E s aid type title
                                   content plain status))
                (fun document => bind (trackDocumentGenerated E uid)
                                      (fun _ => ret document)) in
  attempt uid 0 (fst (m w)) w (snd (m w)).
Proof.
  cbn zeta. unfold bind, liftS, trackDocumentGenerated, modifyStore, liftS, ret.
  cbn -[Storage.trackUsageMetric]. unfold ran.
  set (s1 := Storage.with_documents (store w) _).
  assert (Hu1 : users s1 = users (store w)) by reflexivity.
  destruct (trackUsageMetric_frame E s1 uid "document_generated")
    as (Hd & Ha & Hu & Ht & Hf). cbn zeta in Hd, Ha, Hu, Ht, Hf.
  split.
  { unfold added. cbn [store]. rewrite Hd, Ha, Hu, Ht. cbn. auto. }
  split.
  { unfold metered. cbn [store List.length].
    destruct (Storage.getUser (store w) uid) as [usr|] eqn:Hget.
    - assert (Hget1 : Storage.getUser s1 uid = Some usr)
        by (rewrite (getUser_same (store w) s1 uid Hu1); exact Hget).
      destruct (track_found E s1 uid "document_generated" usr Hget1)
        as (m & Hm & Hrows & _).
      exists [m]. rewrite Hrows. split; [reflexivity|]. split; [reflexivity|].
      now constructor.
    - unfold Storage.trackUsageMetric.
      rewrite (getUser_same (store w) s1 uid Hu1), Hget. reflexivity. }
  cbn [store outbox llmCalls]. rewrite Hf, Hd.
  assert (Hrest : passwordResets (Storage.trackUsageMetric E s1 uid "document_generated")
                  = passwordResets (store w)
                  /\ userBillingPeriods (Storage.trackUsageMetric E s1 uid "document_generated")
                     = userBillingPeriods (store w)).
  { unfold Storage.trackUsageMetric. destruct (Storage.getUser s1 uid); cbn; auto. }
  destruct Hrest as [-> ->].
  cbn. unfold idsFrom. cbn. rewrite Z.add_0_r.
  repeat split; auto; lia.
Qed.

Lemma generateWithPDF_attempt E uid aid a t type w :
  attempt uid 2 (fst (generateWithPDF E uid aid a t type w)) w
          (snd (generateWithPDF E uid aid a t type w)).
Proof.
  unfold generateWithPDF.
  change 2%nat with (0 + (1 + (0 + (1 + (0 + 0)))))%nat.
  apply attempt_bind; [apply quietly_parseExtractedData|]. intros data1 w1.
  apply attempt_bind; [apply quietly_generateDocument|]. intros plain w2.
  apply attempt_bind; [apply quietly_parseExtractedData|]. intros data2 w3.
  apply attempt_bind; [apply quietly_generatePDF|]. intros pdf w4.
  apply attempt_bind; [apply quietly_parseExtractedData|]. intros data3 w5.
  apply store_and_track_ran.
Qed.

Lemma generateTextOnly_attempt E uid aid a t type w :
  attempt uid 1 (fst (generateTextOnly E uid aid a t type w)) w
          (snd (generateTextOnly E uid aid a t type w)).
Proof.
  unfold generateTextOnly.
  change 1%nat with (0 + (1 + 0))%nat.
  apply attempt_bind; [apply quietly_parseExtractedData|]. intros data1 w1.
  apply attempt_bind; [apply quietly_generateDocument|]. intros text w2.
  apply store_and_track_ran.
Qed.

Lemma approveOne_ran E uid aid a t acc type w :
  exists docs fails w',
    approveOne E uid aid a t acc type w
      = (inr ((fst acc ++ docs)%list, (snd acc ++ fails)%list), w')
    /\ ran uid docs 3 w w'.
Proof.
  unfold approveOne, try_catch, bind.
  pose proof (generateWithPDF_attempt E uid aid a t type w) as H1.
  destruct (generateWithPDF E uid aid a t type w) as [[e|d] w1];
    cbn [fst snd attempt] in H1.
  - pose proof (generateTextOnly_attempt E uid aid a t type w1) as H2.
    destruct (generateTextOnly E uid aid a t type w1) as [[e2|d] w2];
      cbn [fst snd attempt] in H2; cbn.
    + exists [], [{| failedType := docTypeName type; failedError := e |}], w2.
      rewrite app_nil_r. split; [reflexivity|].
      apply quiet_ran. apply (quiet_trans 2 1 w w1 w2); assumption.
    + exists [d], [{| failedType := docTypeName type; failedError := e |}], w2.
      split; [reflexivity|].
      exact (attempt_after uid 2 1 (inr d) w w1 w2 H1 H2).
  - cbn. exists [d], [], w1. rewrite app_nil_r. split; [reflexivity|].
    eapply ran_more; [|exact H1]. lia.
Qed.

Lemma approveLoop_ran E uid aid a t types :
  forall acc w, exists docs fails w',
    approveLoop E uid aid a t types acc w
      = (inr ((fst acc ++ docs)%list, (snd acc ++ fails)%list), w')
    /\ ran uid docs (3 * List.length types) w w'.
Proof.
  induction types as [|type rest IH]; intros acc w.
  - exists [], [], w. cbn. rewrite !app_nil_r. split; [now destruct acc|].
    apply quiet_ran, quiet_refl.
  - cbn [approveLoop]. unfold bind.
    destruct (approveOne_ran E uid aid a t acc type w)
      as (docs & fails & w1 & Hrun & Hran).
    rewrite Hrun.
    destruct (IH ((fst acc ++ docs)%list, (snd acc ++ fails)%list) w1)
      as (docs2 & fails2 & w2 & Hrun2 & Hran2).
    exists (docs ++ docs2)%list, (fails ++ fails2)%list, w2.
    rewrite Hrun2. cbn [fst snd]. rewrite !app_assoc. split; [reflexivity|].
    eapply ran_more; [|eapply ran_trans; eassumption].
    cbn [List.length]. lia.
Qed.

End Accounting.

Section ApprovalEffects.
Import Routes DocumentService.

Lemma createFollowUpTask_effect E aid a t w :
  exists w', createFollowUpTask E aid a t w = (inr tt, w')
             /\ followedUp E aid a w w'.
Proof.
  unfold createFollowUpTask, try_catch, bind.
  pose proof (quietly_generateDocument E tasks (rawExtractedData a)
                (Transcript.content t) None w) as (Hs & Ho & Hc).
  pose proof (generateDocument_without_data E tasks (Transcript.content t) None w)
    as [[e Hnull] _].
  unfold rawExtractedData in *.
  destruct (generateDocument E tasks _ (Transcript.content t) None w)
    as [[e1|tasksContent] w1] eqn:Hrun; cbn [snd] in *; cbn.
  - exists w1. split; [reflexivity|]. unfold followedUp.
    repeat split; auto; try lia.
    intros Hnone. rewrite Hnone in Hrun. congruence.
  - eexists. split; [reflexivity|]. unfold followedUp. cbn.
    repeat split; auto; try lia.
    + right. exists tasksContent. rewrite Hs. reflexivity.
    + intros Hnone. rewrite Hnone in Hrun. congruence.
Qed.

(** The generation that follows the marking: the loop, then the task. *)
Lemma generateAll_effects E uid aid a t w :
  exists docs fails w1 w',
    generateAll E uid aid a t w
      = (inr (approvedResponse docs fails
                (Storage.getArrangementById (store w') aid)), w')
    /\ ran uid docs 18 w w1
    /\ followedUp E aid a w1 w'.
Proof.
  unfold generateAll, bind.
  destruct (approveLoop_ran E uid aid a t documentTypes ([], []) w)
    as (docs & fails & w1 & Hrun & Hran).
  rewrite Hrun. cbn [fst snd app].
  destruct (createFollowUpTask_effect E aid a t w1) as (w2 & Hrun2 & Hf).
  rewrite Hrun2. exists docs, fails, w1, w2. split; [reflexivity|].
  split; [exact Hran | exact Hf].
Qed.

Lemma followedUp_frame E aid a w1 w' :
  followedUp E aid a w1 w' ->
  users (store w') = users (store w1)
  /\ transcripts (store w') = transcripts (store w1)
  /\ arrangements (store w') = arrangements (store w1)
  /\ passwordResets (store w') = passwordResets (store w1)
  /\ documents (store w') = documents (store w1)
  /\ userUsageMetrics (store w') = userUsageMetrics (store w1)
  /\ userBillingPeriods (store w') = userBillingPeriods (store w1).
Proof.
  intros (_ & _ & [Hs | [c Hs]] & _); rewrite Hs; repeat split.
Qed.

Lemma metered_ext uid n s0 s1 s s' :
  users s0 = users s -> userUsageMetrics s0 = userUsageMetrics s ->
  userUsageMetrics s' = userUsageMetrics s1 ->
  metered uid n s0 s1 -> metered uid n s s'.
Proof.
  intros Hu Hm Hm'. unfold metered.
  rewrite (getUser_same s s0 uid Hu), Hm, Hm'. auto.
Qed.

(** What a successful approval is made of: the marking, the loop, the
    task. *)
Lemma approve_effects E req w (u : TokenPayload) aid a t :
  user req = Some u ->
  parseInt (param req "id") = Some aid ->
  Storage.getArrangementById (store w) aid = Some a ->
  Storage.getTranscriptById (store w) (Arrangement.transcriptId a) (userId u) = Some t ->
  exists docs fails w1 w',
    approve E req w
      = (inr (approvedResponse docs fails
                (Some (Storage.setApproval "approved" (now E) a))), w')
    /\ ran (userId u) docs 18 (markedWorld E aid w) w1
    /\ followedUp E aid a w1 w'.
Proof.
  intros Hu Hid Ha Ht.
  rewrite (approve_run E req w u aid a t Hu Hid Ha Ht).
  destruct (generateAll_effects E (userId u) aid a t (markedWorld E aid w))
    as (docs & fails & w1 & w' & Hrun & Hran & Hf).
  exists docs, fails, w1, w'. unfold guarded, try_catch. rewrite Hrun.
  split; [|split; assumption].
  destruct (followedUp_frame _ _ _ _ _ Hf) as (_ & _ & Harr & _).
  destruct Hran as ((_ & Harr1 & _) & _).
  rewrite (getArrangementById_same _ _ aid Harr),
          (getArrangementById_same _ _ aid Harr1),
          (approved_in_marked E aid w a Ha).
  reflexivity.
Qed.

(** X7: a successful approval tracks one usage metric for each document
    of its answer: the rows appended to the usage metrics are as many as
    the documents stored, each of the requesting user, of its billing
    period and of type document_generated; a user without a row is
    tracked nothing. *)
Theorem approve_tracks_each_document E req w (u : TokenPayload) aid a t :
  user req = Some u ->
  parseInt (param req "id") = Some aid ->
  Storage.getArrangementById (store w) aid = Some a ->
  Storage.getTranscriptById (store w) (Arrangement.transcriptId a) (userId u) = Some t ->
  exists docs fails w',
    approve E req w
      = (inr (approvedResponse docs fails
                (Some (Storage.setApproval "approved" (now E) a))), w')
    /\ rows (documents (store w')) = (rows (documents (store w)) ++ docs)%list
    /\ metered (userId u) (List.length docs) (store w) (store w').
Proof.
  intros Hu Hid Ha Ht.
  destruct (approve_effects E req w u aid a t Hu Hid Ha Ht)
    as (docs & fails & w1 & w' & Hrun & Hran & Hf).
  exists docs, fails, w'. split; [exact Hrun|].
  destruct (followedUp_frame _ _ _ _ _ Hf) as (_ & _ & _ & _ & Hd & Hm & _).
  destruct Hran as ((Hrows & _) & Hmet & _).
  split; [rewrite Hd; exact Hrows|].
  eapply metered_ext; [| |exact Hm|exact Hmet]; reflexivity.
Qed.

(** X8: a successful approval makes 19 requests to the model at most
    (three for each of the six types and one for the task), stores one
    task record at most, sends no mail and leaves the users, the
    transcripts, the password resets and the billing periods as they
    were. *)
Theorem approve_bounded E req w (u : TokenPayload) aid a t :
  user req = Some u ->
  parseInt (param req "id") = Some aid ->
  Storage.getArrangementById (store w) aid = Some a ->
  Storage.getTranscriptById (store w) (Arrangement.transcriptId a) (userId u) = Some t ->
  let w' := snd (approve E req w) in
  (llmCalls w <= llmCalls w' <= llmCalls w + 19)%nat
  /\ outbox w' = outbox w
  /\ (rows (funeralTasks (store w')) = rows (funeralTasks (store w))
      \/ exists tasksContent,
           rows (funeralTasks (store w'))
           = (rows (funeralTasks (store w))
                ++ [followUpTask E aid (serial (funeralTasks (store w))) tasksContent])%list)
  /\ users (store w') = users (store w)
  /\ transcripts (store w') = transcripts (store w)
  /\ passwordResets (store w') = passwordResets (store w)
  /\ userBillingPeriods (store w') = userBillingPeriods (store w).
Proof.
  intros Hu Hid Ha Ht.
  destruct (approve_effects E req w u aid a t Hu Hid Ha Ht)
    as (docs & fails & w1 & w' & Hrun & Hran & Hf).
  rewrite Hrun. cbn [snd].
  destruct (followedUp_frame _ _ _ _ _ Hf) as (Hu' & Ht' & _ & Hp' & _ & _ & Hb').
  destruct Hf as (Ho & Hc & Hst & _).
  destruct Hran as ((_ & _ & Hu1 & Ht1) & _ & Hf1 & Hp1 & Hb1 & Ho1 & Hc1 & _).
  cbn [markedWorld llmCalls outbox] in Hc1, Ho1.
  rewrite Hu', Ht', Hp', Hb', Hu1, Ht1, Hp1, Hb1, Ho, Ho1.
  split; [lia|]. split; [reflexivity|]. split; [|repeat split].
  destruct Hst as [Hs | [c Hs]]; rewrite Hs.
  - left. rewrite Hf1. reflexivity.
  - right. exists c. cbn. rewrite Hf1. reflexivity.
Qed.

(** X9: an arrangement whose extracted data is [null] gets no follow-up
    task when it is approved: the task list is asked for the raw column,
    reading which throws, and the failure is only logged. *)
Theorem approve_without_data_creates_no_task E req w (u : TokenPayload) aid a t :
  user req = Some u ->
  parseInt (param req "id") = Some aid ->
  Storage.getArrangementById (store w) aid = Some a ->
  Storage.getTranscriptById (store w) (Arrangement.transcriptId a) (userId u) = Some t ->
  Arrangement.extractedData a = None ->
  funeralTasks (store (snd (approve E req w))) = funeralTasks (store w)
  /\ exists resp, fst (approve E req w) = inr resp /\ status resp = 200%nat.
Proof.
  intros Hu Hid Ha Ht Hnone.
  destruct (approve_effects E req w u aid a t Hu Hid Ha Ht)
    as (docs & fails & w1 & w' & Hrun & Hran & Hf).
  rewrite Hrun. cbn [fst snd]. split; [|eexists; split; reflexivity].
  destruct Hf as (_ & _ & _ & Hsame). rewrite (Hsame Hnone).
  destruct Hran as (_ & _ & Hf1 & _). exact Hf1.
Qed.

End ApprovalEffects.

Section Retrieval.
Import Routes DocumentService.

Lemma in_idsFrom start n x :
  In x (idsFrom start n) <-> start <= x < start + Z.of_nat n.
Proof.
  unfold idsFrom. rewrite in_map_iff. split.
  - intros (k & <- & Hk). apply in_seq in Hk. lia.
  - intros Hx. exists (Z.to_nat (x - start)). split; [lia|].
    apply in_seq. lia.
Qed.

Lemma NoDup_idsFrom start n : NoDup (idsFrom start n).
Proof.
  induction n as [|n IH]; [constructor|].
  replace (S n) with (n + 1)%nat by lia. rewrite idsFrom_app.
  apply NoDup_app; [exact IH | |].
  - cbn. constructor; [intros [] | constructor].
  - intros x Hx [Hy|[]]. apply in_idsFrom in Hx. cbn in Hy. lia.
Qed.

Lemma first_of_unique (l : list Document.t) (d : Document.t) :
  NoDup (map Document.id l) -> In d l ->
  Storage.first (filter (fun x => Document.id x =? Document.id d) l) = Some d.
Proof.
  induction l as [|x l IH]; intros Hnd Hin; [contradiction|].
  inversion Hnd as [|? ? Hnotin Hnd']; subst. cbn [filter].
  destruct Hin as [->|Hin].
  - rewrite Z.eqb_refl. reflexivity.
  - destruct (Document.id x =? Document.id d) eqn:Heq.
    + apply Z.eqb_eq in Heq. exfalso. apply Hnotin. rewrite Heq. now apply in_map.
    + now apply IH.
Qed.

(** Storing documents keeps their ids distinct, and each of them is then
    found by its id. *)
Lemma fresh_after_ran uid docs c w w' :
  documentIdsFresh (store w) -> ran uid docs c w w' ->
  documentIdsFresh (store w')
  /\ forall d, In d docs ->
               Storage.getDocumentById (store w') (Document.id d) = Some d.
Proof.
  intros [Hnd Hlt] ((Hrows & _) & _ & _ & _ & _ & _ & _ & Hserial & Hids).
  assert (Hnd' : NoDup (map Document.id (rows (documents (store w'))))).
  { rewrite Hrows, map_app, Hids. apply NoDup_app; [exact Hnd | apply NoDup_idsFrom |].
    intros x Hx Hy. apply in_idsFrom in Hy. apply in_map_iff in Hx.
    destruct Hx as (d & <- & Hd). rewrite Forall_forall in Hlt.
    specialize (Hlt d Hd). lia. }
  split; [split; [exact Hnd'|] |].
  - rewrite Hrows, Hserial. apply Forall_app. split.
    + eapply Forall_impl; [|exact Hlt]. cbn. intros d Hd. lia.
    + apply Forall_forall. intros d Hd.
      assert (Hin : In (Document.id d) (map Document.id docs)) by now apply in_map.
      rewrite Hids in Hin. apply in_idsFrom in Hin. lia.
  - intros d Hd. unfold Storage.getDocumentById.
    apply first_of_unique; [exact Hnd'|]. rewrite Hrows. apply in_or_app. now right.
Qed.

Lemma download_found E req w id d :
  parseInt (param req "id") = Some id ->
  Storage.getDocumentById (store w) id = Some d ->
  download E req w = (inr (attachment E d), w).
Proof.
  intros Hid Hget. unfold download, guarded, try_catch, bind, dbId, getStore.
  rewrite Hid. cbn. rewrite Hget. reflexivity.
Qed.

(** X10: when the ids of the documents are distinct and below the next
    value of their sequence, they are so after an approval, and every
    document of the answer is the row found under its id: a download of
    that id answers with that document. *)
Theorem approved_documents_are_retrievable E req w (u : TokenPayload) aid a t :
  user req = Some u ->
  parseInt (param req "id") = Some aid ->
  Storage.getArrangementById (store w) aid = Some a ->
  Storage.getTranscriptById (store w) (Arrangement.transcriptId a) (userId u) = Some t ->
  documentIdsFresh (store w) ->
  exists docs fails w',
    approve E req w
      = (inr (approvedResponse docs fails
                (Some (Storage.setApproval "approved" (now E) a))), w')
    /\ documentIdsFresh (store w')
    /\ map Document.id docs
       = idsFrom (serial (documents (store w))) (List.length docs)
    /\ forall d, In d docs ->
         Storage.getDocumentById (store w') (Document.id d) = Some d
         /\ forall req', parseInt (param req' "id") = Some (Document.id d) ->
                         download E req' w' = (inr (attachment E d), w').
Proof.
  intros Hu Hid Ha Ht Hfresh.
  destruct (approve_effects E req w u aid a t Hu Hid Ha Ht)
    as (docs & fails & w1 & w' & Hrun & Hran & Hf).
  exists docs, fails, w'. split; [exact Hrun|].
  destruct (followedUp_frame _ _ _ _ _ Hf) as (_ & _ & _ & _ & Hd & _).
  destruct (fresh_after_ran _ _ _ (markedWorld E aid w) w1 Hfresh Hran)
    as [Hfresh1 Hfound].
  assert (Hget : forall id, Storage.getDocumentById (store w') id
                            = Storage.getDocumentById (store w1) id).
  { intros id. unfold Storage.getDocumentById. now rewrite Hd. }
  split; [unfold documentIdsFresh; rewrite Hd; exact Hfresh1|].
  split; [apply Hran|].
  intros d Hin. rewrite Hget. split; [now apply Hfound|].
  intros req' Hid'. apply (download_found E req' w' _ d Hid').
  rewrite Hget. now apply Hfound.
Qed.

(** X11: whatever the request, the approval answers, and with a status
    other than 200 (404 or 500) only when it has changed nothing: neither
    the database nor the count of requests nor the outbox. *)
Theorem approve_answers_or_leaves E req w :
  exists resp,
    fst (approve E req w) = inr resp
    /\ (status resp = 200%nat
        \/ ((status resp = 404%nat \/ status resp = 500%nat)
            /\ snd (approve E req w) = w)).
Proof.
  destruct (parseInt (param req "id")) as [aid|] eqn:Hid.
  2:{ unfold approve, guarded, try_catch, bind, dbId. rewrite Hid. cbn.
      eexists. split; [reflexivity|]. right. auto. }
  destruct (Storage.getArrangementById (store w) aid) as [a|] eqn:Ha.
  2:{ unfold approve, guarded, try_catch, bind, dbId, getStore. rewrite Hid. cbn.
      rewrite Ha. cbn. eexists. split; [reflexivity|]. right. auto. }
  destruct (user req) as [u|] eqn:Hu.
  2:{ unfold approve, guarded, try_catch, bind, dbId, getStore, reqUserId.
      rewrite Hid, Hu. cbn. rewrite Ha. cbn.
      eexists. split; [reflexivity|]. right. auto. }
  destruct (Storage.getTranscriptById (store w) (Arrangement.transcriptId a) (userId u))
    as [t|] eqn:Ht.
  2:{ unfold approve, guarded, try_catch, bind, dbId, getStore, reqUserId.
      rewrite Hid, Hu. cbn. rewrite Ha. cbn. rewrite Ht. cbn.
      eexists. split; [reflexivity|]. right. auto. }
  destruct (approve_effects E req w u aid a t Hu Hid Ha Ht)
    as (docs & fails & w1 & w' & Hrun & _).
  rewrite Hrun. eexists. split; [reflexivity|]. now left.
Qed.

End Retrieval.

Section Regeneration.
Import Routes DocumentService Handlers.

Lemma quietly_improvedGeneratePDF E render type data transcript :
  quietly 1 (improvedGeneratePDF E render type data transcript).
Proof.
  unfold improvedGeneratePDF. change 1%nat with (1 + 0)%nat.
  apply quietly_bind; [apply quietly_generateDocument|].
  intros t. apply quietly_lift.
Qed.

Lemma regenerateOne_attempt E render uid aid a t type w :
  attempt uid 2 (fst (regenerateOne E render uid aid a t type w)) w
          (snd (regenerateOne E render uid aid a t type w)).
Proof.
  unfold regenerateOne.
  change 2%nat with (0 + (1 + (0 + (1 + (0 + 0)))))%nat.
  apply attempt_bind; [apply quietly_parseExtractedData|]. intros data1 w1.
  apply attempt_bind; [apply quietly_generateDocument|]. intros plain w2.
  apply attempt_bind; [apply quietly_parseExtractedData|]. intros data2 w3.
  apply attempt_bind; [apply quietly_improvedGeneratePDF|]. intros pdf w4.
  apply attempt_bind; [apply quietly_parseExtractedData|]. intros data3 w5.
  apply store_and_track_ran.
Qed.

Lemma regenerateLoop_ran E render uid aid a t types :
  forall acc w, exists docs w',
    regenerateLoop E render uid aid a t types acc w = (inr (acc ++ docs)%list, w')
    /\ ran uid docs (2 * List.length types) w w'
    /\ (List.length docs <= List.length types)%nat.
Proof.
  induction types as [|type rest IH]; intros acc w.
  - exists [], w. cbn. rewrite app_nil_r. split; [reflexivity|].
    split; [apply quiet_ran, quiet_refl | lia].
  - cbn [regenerateLoop]. unfold bind, try_catch.
    pose proof (regenerateOne_attempt E render uid aid a t type w) as H1.
    destruct (regenerateOne E render uid aid a t type w) as [[e|d] w1];
      cbn [fst snd attempt] in H1; cbn [ret].
    + destruct (IH acc w1) as (docs & w2 & Hrun & Hran & Hlen).
      exists docs, w2. unfold ret. rewrite Hrun. split; [reflexivity|].
      split; [|cbn [List.length]; lia].
      eapply ran_more; [|eapply (ran_trans uid [] docs); [apply quiet_ran; exact H1 | exact Hran]].
      cbn [List.length]. lia.
    + destruct (IH (acc ++ [d])%list w1) as (docs & w2 & Hrun & Hran & Hlen).
      exists (d :: docs), w2. unfold ret. rewrite Hrun, <- app_assoc.
      split; [reflexivity|]. split; [|cbn [List.length]; lia].
      eapply ran_more; [|eapply (ran_trans uid [d] docs); eassumption].
      cbn [List.length]. lia.
Qed.

Lemma regenerateAll_run E render req w (u : TokenPayload) aid a t :
  user req = Some u ->
  parseInt (param req "id") = Some aid ->
  Storage.getArrangementById (store w) aid = Some a ->
  Storage.getTranscriptById (store w) (Arrangement.transcriptId a) (userId u) = Some t ->
  regenerateAll E render req w
  = guarded
      (bind (regenerateLoop E render (userId u) aid a t documentTypes [])
            (fun generatedDocuments =>
               ret (json 200 (JsonApproved "All documents regenerated successfully"
                                generatedDocuments None None)))) w.
Proof.
  intros Hu Hid Ha Ht.
  unfold regenerateAll, guarded, try_catch, bind, dbId, getStore, reqUserId.
  rewrite Hid, Hu. cbn. rewrite Ha. cbn. rewrite Ht. reflexivity.
Qed.

(** X12: a regeneration that finds the arrangement and the transcript of
    the requesting user answers with status 200 whatever fails, appends
    the documents of its answer, six at most, after the rows there were
    (it replaces and deletes none), tracks one usage metric for each,
    makes twelve requests to the model at most, and leaves the
    arrangements, their approval with them, and the tasks as they
    were. *)
Theorem regenerate_appends_documents E render req w (u : TokenPayload) aid a t :
  user req = Some u ->
  parseInt (param req "id") = Some aid ->
  Storage.getArrangementById (store w) aid = Some a ->
  Storage.getTranscriptById (store w) (Arrangement.transcriptId a) (userId u) = Some t ->
  exists docs w',
    regenerateAll E render req w
      = (inr (json 200 (JsonApproved "All documents regenerated successfully"
                          docs None None)), w')
    /\ rows (documents (store w')) = (rows (documents (store w)) ++ docs)%list
    /\ (List.length docs <= 6)%nat
    /\ arrangements (store w') = arrangements (store w)
    /\ funeralTasks (store w') = funeralTasks (store w)
    /\ metered (userId u) (List.length docs) (store w) (store w')
    /\ (llmCalls w <= llmCalls w' <= llmCalls w + 12)%nat.
Proof.
  intros Hu Hid Ha Ht.
  rewrite (regenerateAll_run E render req w u aid a t Hu Hid Ha Ht).
  unfold guarded, try_catch, bind.
  destruct (regenerateLoop_ran E render (userId u) aid a t documentTypes [] w)
    as (docs & w' & Hrun & Hran & Hlen).
  rewrite Hrun. exists docs, w'. split; [reflexivity|].
  destruct Hran as ((Hrows & Harr & _) & Hmet & Htasks & _ & _ & _ & Hcalls & _).
  cbn in Hlen, Hcalls. auto 8.
Qed.

End Regeneration.

Section Middleware.
Import JsString Routes.

Lemma authenticateToken_rejects E req rej :
  authenticateToken E req = inl rej ->
  status rej = 401%nat \/ status rej = 403%nat.
Proof.
  unfold authenticateToken.
  destruct (match authorization req with
            | Some authHeader =>
                if String.eqb authHeader EmptyString then None
                else nth_error (split " "%char authHeader) 1
            | None => None
            end) as [tok|].
  - destruct (String.eqb tok EmptyString).
    + intros H. injection H as <-. now left.
    + destruct (jwt_verify E tok); [discriminate|].
      intros H. injection H as <-. now right.
  - intros H. injection H as <-. now left.
Qed.

Lemma authenticateToken_passes E req req' :
  authenticateToken E req = inr req' ->
  exists tok u, bearer req tok /\ jwt_verify E tok = Some u
                /\ req' = with_user req u.
Proof.
  unfold authenticateToken, bearer.
  destruct (authorization req) as [authHeader|]; [|discriminate].
  destruct (String.eqb authHeader EmptyString); [discriminate|].
  destruct (nth_error (split " "%char authHeader) 1) as [tok|] eqn:Hnth;
    [|discriminate].
  destruct (String.eqb tok EmptyString) eqn:Htok; [discriminate|].
  apply String.eqb_neq in Htok.
  destruct (jwt_verify E tok) as [u|] eqn:Hv; [|discriminate].
  intros H. injection H as <-. exists tok, u.
  split; [exists authHeader; repeat split; (reflexivity || assumption) | auto].
Qed.

(** X13: a request passes the middleware of a protected route only with
    a token that verifies, and then [req.user] is the payload of that
    token; it passes the middleware of an administrator's route only if
    the role in that payload is admin. *)
Theorem guards_let_only_verified_tokens_pass E guards req req' :
  guards = auth \/ guards = admin ->
  runGuards E guards req = inr req' ->
  exists tok u,
    bearer req tok
    /\ jwt_verify E tok = Some u
    /\ req' = with_user req u
    /\ (guards = admin -> tokenRole u = "admin").
Proof.
  intros [-> | ->]; cbn [runGuards auth admin];
    destruct (authenticateToken E req) as [rej|req1] eqn:Hauth; try discriminate;
    destruct (authenticateToken_passes E req req1 Hauth) as (tok & u & Hb & Hv & ->).
  - intros H. injection H as <-. exists tok, u. repeat split; auto.
    intros Habs. discriminate Habs.
  - unfold requireAdmin. cbn [user with_user].
    destruct (String.eqb (tokenRole u) "admin") eqn:Hrole; [|discriminate].
    apply String.eqb_eq in Hrole.
    intros H. injection H as <-. exists tok, u. repeat split; auto.
Qed.

Lemma authenticateToken_with_params E req ps rej :
  authenticateToken E req = inl rej ->
  authenticateToken E (with_params req ps) = inl rej.
Proof.
  unfold authenticateToken. cbn [authorization with_params].
  destruct (match authorization req with
            | Some authHeader =>
                if String.eqb authHeader EmptyString then None
                else nth_error (split " "%char authHeader) 1
            | None => None
            end) as [tok|]; [|auto].
  destruct (String.eqb tok EmptyString); [auto|].
  destruct (jwt_verify E tok); [discriminate | auto].
Qed.

(** Every route is behind [authenticateToken], apart from the public
    routes of the authentication, of which one is modelled. *)
Lemma routes_are_guarded r :
  In r routeTable ->
  (exists rest, r_guards r = authenticateToken :: rest)
  \/ (r_guards r = [] /\ r_handler r = None)
  \/ r = route POST "/api/auth/forgot-password" [] (Some forgotPassword).
Proof.
  unfold routeTable. cbn [In].
  intros H.
  repeat (destruct H as [<- | H];
          [first [ left; eexists; reflexivity
                 | right; left; split; reflexivity
                 | right; right; reflexivity ] |]).
  contradiction.
Qed.

Lemma matches_literal3 req m a b c h g :
  matches req (route m ("/" ++ a ++ "/" ++ b ++ "/" ++ c) g h) = true ->
  segments ("/" ++ a ++ "/" ++ b ++ "/" ++ c) = [a; b; c] ->
  (forall x, In x [a; b; c] -> match x with String ":"%char _ => False | _ => True end) ->
  path req = [a; b; c].
Proof.
  unfold matches. cbn [r_method r_path route]. intros H Hseg Hlit.
  apply andb_true_iff in H. destruct H as [_ H]. rewrite Hseg in H.
  assert (Hone : forall p x rest,
            match p with String ":"%char _ => False | _ => True end ->
            is_some (matchPath (p :: rest) x) = true ->
            exists y l, x = y :: l /\ p = y /\ is_some (matchPath rest l) = true).
  { intros p x rest Hp Hm. destruct x as [|y l]; [discriminate|].
    cbn [matchPath] in Hm. exists y, l. split; [reflexivity|].
    destruct p as [|ch name]; [|destruct (Ascii.eqb ch ":"%char) eqn:Hch;
      [apply Ascii.eqb_eq in Hch; subst ch; contradiction|]].
    - destruct (String.eqb EmptyString y) eqn:He; [|discriminate].
      apply String.eqb_eq in He. auto.
    - assert (Hm' : is_some (if String.eqb (String ch name) y
                              then matchPath rest l else None) = true).
      { revert Hm. destruct ch as [[] [] [] [] [] [] [] []]; try exact (fun H => H);
          discriminate Hch. }
      destruct (String.eqb (String ch name) y) eqn:He; [|discriminate].
      apply String.eqb_eq in He. auto. }
  destruct (Hone a (path req) [b; c]) as (y1 & l1 & -> & <- & H1);
    [apply Hlit; cbn; auto | exact H |].
  destruct (Hone b l1 [c]) as (y2 & l2 & -> & <- & H2);
    [apply Hlit; cbn; auto | exact H1 |].
  destruct (Hone c l2 []) as (y3 & l3 & -> & <- & H3);
    [apply Hlit; cbn; auto | exact H2 |].
  destruct l3; [reflexivity | discriminate].
Qed.

(** X14: a request the token check rejects (no token: 401; a token that
    does not verify: 403) is answered with that rejection and changes
    nothing, whichever route it names; the one modelled route it can
    reach is the public request for a password reset. *)
Theorem rejected_token_stops_the_request E req w rej out :
  authenticateToken E req = inl rej ->
  serve E req w = Some out ->
  (out = (rej, w) /\ (status rej = 401%nat \/ status rej = 403%nat))
  \/ (method req = POST /\ path req = ["api"; "auth"; "forgot-password"]).
Proof.
  intros Hrej. unfold serve.
  destruct (find (matches req) routeTable) as [r|] eqn:F; [|discriminate].
  apply find_some in F. destruct F as [Hin Hmatch].
  destruct (routes_are_guarded r Hin) as [[rest Hg] | [[Hg Hh] | ->]].
  - rewrite Hg. cbn [runGuards].
    rewrite (authenticateToken_with_params E req _ rej Hrej).
    intros H. injection H as <-. left. split; [reflexivity|].
    exact (authenticateToken_rejects E req rej Hrej).
  - rewrite Hg, Hh. cbn [runGuards]. discriminate.
  - intros _. right. split.
    + unfold matches in Hmatch. cbn [r_method route] in Hmatch.
      apply andb_true_iff in Hmatch. destruct Hmatch as [Hm _].
      destruct (method req); try discriminate Hm. reflexivity.
    + apply (matches_literal3 req POST "api" "auth" "forgot-password" _ _ Hmatch);
        [reflexivity|].
      intros x [<- | [<- | [<- | []]]]; exact I.
Qed.

End Middleware.

Section Shadowing.
Import JsString Routes.

Lemma matchPath_more_general (p q a : list string) :
  Forall2 (fun x y => match y with
                      | String ":"%char _ => True
                      | _ => x = y
                      end) p q ->
  is_some (matchPath p a) = true -> is_some (matchPath q a) = true.
Proof.
  intros Hpq. revert a. induction Hpq as [|x y p q Hxy _ IH]; intros a.
  - destruct a; auto.
  - destruct a as [|z a]; [destruct x as [|[[] [] [] [] [] [] [] []] ?]; discriminate|].
    intros Hm.
    assert (Hrest : is_some (matchPath p a) = true).
    { revert Hm. cbn [matchPath].
      destruct x as [|ch name]; [destruct (String.eqb EmptyString z); [auto|discriminate]|].
      destruct (Ascii.eqb ch ":"%char) eqn:Hch.
      - apply Ascii.eqb_eq in Hch. subst ch.
        destruct (matchPath p a); [reflexivity | discriminate].
      - assert (Hsame : forall A (u v : A),
                  match ch with
                  | ":"%char => u
                  | _ => v
                  end = v).
        { intros A u v. destruct ch as [[] [] [] [] [] [] [] []];
            try reflexivity; discriminate Hch. }
        rewrite Hsame.
        destruct (String.eqb (String ch name) z); [auto | discriminate]. }
    specialize (IH a Hrest). cbn [matchPath].
    destruct y as [|ch name].
    + subst x. revert Hm. cbn [matchPath].
      destruct (String.eqb EmptyString z); [intros _; exact IH | discriminate].
    + destruct (Ascii.eqb ch ":"%char) eqn:Hch.
      * apply Ascii.eqb_eq in Hch. subst ch.
        destruct (matchPath q a); [reflexivity | discriminate].
      * assert (Hsame : forall A (u v : A),
                  match ch with
                  | ":"%char => u
                  | _ => v
                  end = v).
        { intros A u v. destruct ch as [[] [] [] [] [] [] [] []];
            try reflexivity; discriminate Hch. }
        assert (Hxy' : x = String ch name).
        { revert Hxy. destruct ch as [[] [] [] [] [] [] [] []];
            try exact (fun H => H); discriminate Hch. }
        subst x. revert Hm. cbn [matchPath]. rewrite !Hsame.
        destruct (String.eqb (String ch name) z); [intros _; exact IH | discriminate].
Qed.

Lemma search_is_shadowed req :
  matches req (route GET "/api/transcripts/search" auth None) = true ->
  matches req (route GET "/api/transcripts/:id" auth None) = true.
Proof.
  unfold matches. cbn [r_method r_path route]. intros H.
  apply andb_true_iff in H. destruct H as [Hm Hp]. rewrite Hm. cbn [andb].
  change (segments "/api/transcripts/search") with ["api"; "transcripts"; "search"] in Hp.
  change (segments "/api/transcripts/:id") with ["api"; "transcripts"; ":id"].
  revert Hp. apply matchPath_more_general.
  repeat constructor.
Qed.

Lemma second_role_route_is_shadowed req :
  matches req (route PUT "/api/admin/users/:userId/role" admin
                     (Some updateRoleAndResetBilling)) = true ->
  matches req (route PUT "/api/admin/users/:id/role" admin (Some updateRole)) = true.
Proof.
  unfold matches. cbn [r_method r_path route]. intros H.
  apply andb_true_iff in H. destruct H as [Hm Hp]. rewrite Hm. cbn [andb].
  change (segments "/api/admin/users/:userId/role")
    with ["api"; "admin"; "users"; ":userId"; "role"] in Hp.
  change (segments "/api/admin/users/:id/role")
    with ["api"; "admin"; "users"; ":id"; "role"].
  revert Hp. apply matchPath_more_general.
  repeat constructor.
Qed.

(** X15: two of the registered routes are never served, because a route
    registered before them matches every request they match: the search
    of the transcripts, behind [/api/transcripts/:id], and the second
    registration of the role change. *)
Theorem shadowed_routes_are_never_served req r :
  find (matches req) routeTable = Some r ->
  r_path r <> "/api/transcripts/search"
  /\ r_path r <> "/api/admin/users/:userId/role".
Proof.
  unfold routeTable. cbn [find]. intros F.
  repeat match type of F with
         | (if matches req ?x then _ else _) = _ =>
             let H := fresh "H" in
             destruct (matches req x) eqn:H;
             [ injection F as <-;
               first [ split; discriminate
                     | exfalso;
                       first [ apply search_is_shadowed in H
                             | apply second_role_route_is_shadowed in H ];
                       congruence ]
             | ]
         end.
  discriminate F.
Qed.

End Shadowing.

Section Usage.
Import Routes.

Lemma first_map {A B} (g : A -> B) (l : list A) :
  Storage.first (map g l) = option_map g (Storage.first l).
Proof. destruct l; reflexivity. Qed.

Lemma filter_update_where (g : User.t -> User.t) (hit : User.t -> bool) (uid : Z)
      (l : list User.t) :
  (forall x, User.id (g x) = User.id x) ->
  filter (fun x => User.id x =? uid) (Storage.update_where hit g l)
  = map (fun x => if hit x then g x else x) (filter (fun x => User.id x =? uid) l).
Proof.
  intros Hid. unfold Storage.update_where.
  induction l as [|x l IH]; [reflexivity|]. cbn [map filter].
  assert (Hx : User.id (if hit x then g x else x) = User.id x)
    by (destruct (hit x); [apply Hid | reflexivity]).
  rewrite Hx. destruct (User.id x =? uid); cbn [map]; now rewrite IH.
Qed.

(** The user read after an update of the rows of one id. *)
Lemma getUser_updated s (g : User.t -> User.t) (target uid : Z) :
  (forall x, User.id (g x) = User.id x) ->
  Storage.getUser
    (Storage.with_users s
       (with_rows (users s)
          (Storage.update_where (fun x => User.id x =? target) g (rows (users s)))))
    uid
  = option_map (fun x => if User.id x =? target then g x else x)
               (Storage.getUser s uid).
Proof.
  intros Hid. unfold Storage.getUser. cbn [users Storage.with_users with_rows rows].
  rewrite (filter_update_where g _ uid _ Hid). apply first_map.
Qed.

Lemma usage_stats_ext E s s' uid sd ed sd' ed' :
  option_map User.billingPeriodStart (Storage.getUser s' uid)
  = option_map User.billingPeriodStart (Storage.getUser s uid) ->
  userUsageMetrics s' = userUsageMetrics s ->
  Storage.getUserUsageStats E s' uid sd' ed' = Storage.getUserUsageStats E s uid sd ed.
Proof.
  intros Hu Hm. unfold Storage.getUserUsageStats. rewrite Hm.
  destruct (Storage.getUser s' uid) as [u'|], (Storage.getUser s uid) as [u|];
    cbn in Hu; try discriminate; [|reflexivity].
  injection Hu as ->. reflexivity.
Qed.

(** X16: the role change that is served never resets the usage of
    anyone: for every request and every user, the usage statistics read
    after it are those read before it, whatever the date range asked
    for. *)
Theorem served_role_change_keeps_usage E req w uid sd ed sd' ed' :
  Storage.getUserUsageStats E (store (snd (updateRole E req w))) uid sd' ed'
  = Storage.getUserUsageStats E (store w) uid sd ed.
Proof.
  assert (Hsame : forall w', store w' = store w ->
            Storage.getUserUsageStats E (store w') uid sd' ed'
            = Storage.getUserUsageStats E (store w) uid sd ed).
  { intros w' ->. apply usage_stats_ext; reflexivity. }
  unfold updateRole, guarded, try_catch, bind.
  destruct (body_role req) as [role|]; [|now apply Hsame].
  destruct (_ || _); [now apply Hsame|].
  unfold reqUserId. destruct (user req) as [u|]; [|now apply Hsame].
  cbn. destruct (_ && _); [now apply Hsame|].
  unfold dbId. destruct (parseInt (param req "id")) as [id|]; [|now apply Hsame].
  cbn.
  assert (Hupd : Storage.getUserUsageStats E
                   (snd (Storage.updateUserRole E (store w) id role)) uid sd' ed'
                 = Storage.getUserUsageStats E (store w) uid sd ed).
  { apply usage_stats_ext; [|reflexivity].
    unfold Storage.updateUserRole. cbn [snd].
    rewrite getUser_updated by reflexivity.
    destruct (Storage.getUser (store w) uid) as [x|]; [|reflexivity].
    cbn. destruct (User.id x =? id); reflexivity. }
  destruct (Storage.first _); exact Hupd.
Qed.

(** X17: an administrator whose row says admin is still an administrator
    after any request it makes to the role change that is served: its
    own demotion is refused, and changing another user leaves its row
    alone. *)
Theorem admin_stays_admin E req w (u : TokenPayload) (row : User.t) :
  user req = Some u ->
  Storage.getUser (store w) (userId u) = Some row ->
  User.role row = "admin" ->
  option_map User.role
    (Storage.getUser (store (snd (updateRole E req w))) (userId u))
  = Some "admin".
Proof.
  intros Hu Hrow Hadmin.
  assert (Hsame : forall w', store w' = store w ->
            option_map User.role (Storage.getUser (store w') (userId u))
            = Some "admin").
  { intros w' ->. rewrite Hrow. cbn. now rewrite Hadmin. }
  unfold updateRole, guarded, try_catch, bind.
  destruct (body_role req) as [role|]; [|now apply Hsame].
  destruct (_ || _); [now apply Hsame|].
  unfold reqUserId. rewrite Hu. cbn.
  destruct (same_number (parseInt (param req "id")) (userId u)
            && negb (String.eqb role "admin")) eqn:Hself; [now apply Hsame|].
  unfold dbId. destruct (parseInt (param req "id")) as [id|]; [|now apply Hsame].
  cbn.
  assert (Hupd : option_map User.role
                   (Storage.getUser (snd (Storage.updateUserRole E (store w) id role))
                      (userId u))
                 = Some "admin").
  { unfold Storage.updateUserRole. cbn [snd].
    rewrite getUser_updated by reflexivity. rewrite Hrow. cbn.
    assert (Hid : User.id row = userId u).
    { unfold Storage.getUser, Storage.first in Hrow.
      assert (Hin : In row (filter (fun x => User.id x =? userId u)
                                   (rows (users (store w))))).
      { destruct (filter _ _) as [|y l]; [discriminate|].
        injection Hrow as ->. now left. }
      apply filter_In in Hin. now apply Z.eqb_eq. }
    rewrite Hid. destruct (userId u =? id) eqn:Heq; [|cbn; now rewrite Hadmin].
    apply Z.eqb_eq in Heq. subst id.
    cbn [same_number] in Hself. rewrite Z.eqb_refl in Hself. cbn in Hself.
    apply negb_false_iff, String.eqb_eq in Hself. subst role. reflexivity. }
  destruct (Storage.first _); exact Hupd.
Qed.

Lemma sumOfType_app metricType l1 l2 :
  Storage.sumOfType metricType (l1 ++ l2)
  = Storage.sumOfType metricType l1 + Storage.sumOfType metricType l2.
Proof.
  unfold Storage.sumOfType. rewrite filter_app, fold_left_app.
  generalize (filter (fun m => String.eqb (UsageMetric.metricType m) metricType) l1) as a.
  generalize (filter (fun m => String.eqb (UsageMetric.metricType m) metricType) l2) as b.
  intros b a.
  assert (Hshift : forall l x y,
            fold_left (fun sum m => sum + UsageMetric.metricValue m) l (x + y)
            = x + fold_left (fun sum m => sum + UsageMetric.metricValue m) l y).
  { induction l as [|m l IH]; intros x y; cbn; [reflexivity|].
    rewrite <- Z.add_assoc. apply IH. }
  rewrite <- (Hshift b _ 0), Z.add_0_r. reflexivity.
Qed.

Lemma sumOfType_single metricType m :
  Storage.sumOfType metricType [m]
  = if String.eqb (UsageMetric.metricType m) metricType
    then UsageMetric.metricValue m else 0.
Proof.
  unfold Storage.sumOfType. cbn [filter].
  destruct (String.eqb (UsageMetric.metricType m) metricType); reflexivity.
Qed.

(** X18: tracking a metric for a user who has a row raises the count of
    that type in the usage statistics of the user by one and leaves the
    count of the other type as it was. *)
Theorem tracking_counts_once E s uid metricType (row : User.t) sd ed :
  Storage.getUser s uid = Some row ->
  let before := Storage.getUserUsageStats E s uid sd ed in
  let after := Storage.getUserUsageStats E
                 (Storage.trackUsageMetric E s uid metricType) uid sd ed in
  Storage.transcriptsProcessed after
  = Storage.transcriptsProcessed before
    + (if String.eqb metricType "transcript_processed" then 1 else 0)
  /\ Storage.documentsGenerated after
     = Storage.documentsGenerated before
       + (if String.eqb metricType "document_generated" then 1 else 0).
Proof.
  intros Hget. cbn zeta.
  destruct (track_found E s uid metricType row Hget)
    as (m & (Hmu & Hmb & Hmt) & Hrows & Hu & _).
  unfold Storage.getUserUsageStats.
  rewrite (getUser_same s _ uid Hu), Hget, Hrows, filter_app.
  cbn [filter]. rewrite Hmu, Hmb, !Z.eqb_refl. cbn [andb].
  cbn [Storage.transcriptsProcessed Storage.documentsGenerated].
  assert (Hval : UsageMetric.metricValue m = 1).
  { unfold Storage.trackUsageMetric in Hrows. rewrite Hget in Hrows.
    cbn in Hrows. apply app_inv_head in Hrows. injection Hrows as <-. reflexivity. }
  rewrite !sumOfType_app, !sumOfType_single, Hmt, Hval. auto.
Qed.

End Usage.

Section BillingReset.
Import Routes.





End BillingReset.

Section TranscriptDeletion.
Import Routes.

(** X20: when the id of the request and the id of the requesting user
    lie within the range of the integer columns, the deletion of a
    transcript removes the rows that carry both ids, and no other: the
    transcripts of other users stay, and the answer is the same 200
    whether or not a row went.  An id out of range is refused by the
    database: the answer is 500 with the message of that error, and
    nothing has changed. *)
Theorem deleteTranscript_only_own E outOfRange req w (u : TokenPayload) id :
  user req = Some u ->
  parseInt (param req "id") = Some id ->
  (Handlers.int4 id = true -> Handlers.int4 (userId u) = true ->
   exists w',
     Handlers.deleteTranscript E outOfRange req w
       = (inr (json 200 (JsonMessage "Transcript deleted successfully")), w')
     /\ (forall t, In t (rows (transcripts (store w')))
                   <-> In t (rows (transcripts (store w)))
                       /\ ~ (Transcript.id t = id /\ Transcript.userId t = userId u))
     /\ Storage.getTranscriptById (store w') id (userId u) = None
     /\ documents (store w') = documents (store w)
     /\ arrangements (store w') = arrangements (store w)
     /\ users (store w') = users (store w))
  /\ (Handlers.int4 id = false ->
      Handlers.deleteTranscript E outOfRange req w
      = (inr (json 500 (JsonMessage (outOfRange id))), w))
  /\ (Handlers.int4 id = true -> Handlers.int4 (userId u) = false ->
      Handlers.deleteTranscript E outOfRange req w
      = (inr (json 500 (JsonMessage (outOfRange (userId u)))), w)).
Proof.
  intros Hu Hid.
  unfold Handlers.deleteTranscript, guarded, try_catch, bind, reqUserId, dbId,
    Handlers.integerParameter.
  rewrite Hu, Hid. cbn [ret]. split; [|split].
  - intros Hin Huin. rewrite Hin, Huin. cbn. eexists. split; [reflexivity|]. cbn.
    split.
    { intros t. rewrite filter_In, negb_true_iff, andb_false_iff, !Z.eqb_neq.
      intuition lia. }
    split; [|auto].
    unfold Storage.getTranscriptById. cbn.
    induction (rows (transcripts (store w))) as [|x l IH]; [reflexivity|].
    cbn [filter].
    destruct ((Transcript.id x =? id) && (Transcript.userId x =? userId u)) eqn:Hx;
      cbn [negb filter]; [exact IH|]. rewrite Hx. exact IH.
  - intros Hout. rewrite Hout. reflexivity.
  - intros Hin Hout. rewrite Hin, Hout. reflexivity.
Qed.

End TranscriptDeletion.

Section ResetTokens.
Import Routes.

Lemma getPasswordReset_deleted s token :
  Storage.getPasswordReset (Storage.deletePasswordReset s token) token = None.
Proof.
  unfold Storage.getPasswordReset, Storage.deletePasswordReset. cbn.
  induction (rows (passwordResets s)) as [|x l IH]; [reflexivity|]. cbn [filter].
  destruct (String.eqb (PasswordReset.token x) token) eqn:Hx; cbn [negb filter];
    [exact IH|]. rewrite Hx. exact IH.
Qed.

(** X21: a reset token works once: after a reset that succeeded, a second
    request with the same token is refused with status 400, whatever
    password it brings, and changes nothing. *)
Theorem reset_token_works_once E hash token password password' w :
  fst (Handlers.resetPassword E hash token password w)
    = inr (json 200 (JsonMessage "Password has been reset successfully")) ->
  let w1 := snd (Handlers.resetPassword E hash token password w) in
  exists message,
    Handlers.resetPassword E hash token password' w1
    = (inr (json 400 (JsonMessage message)), w1).
Proof.
  unfold Handlers.resetPassword at 1 2, guarded, try_catch, bind, getStore.
  destruct token as [token|]; [|discriminate].
  destruct password as [password|]; [|discriminate].
  destruct (String.eqb token EmptyString || String.eqb password EmptyString) eqn:He;
    [discriminate|].
  apply orb_false_iff in He. destruct He as [Htok _].
  cbn. destruct (Storage.getPasswordReset (store w) token) as [r|]; [|discriminate].
  destruct (now E >? PasswordReset.expiresAt r); [discriminate|].
  destruct (Storage.getUserByEmail (store w) (PasswordReset.email r)) as [usr|];
    [|discriminate].
  cbn. intros _.
  unfold Handlers.resetPassword, guarded, try_catch, bind, getStore.
  destruct password' as [password'|]; [|eexists; reflexivity].
  rewrite Htok. cbn [orb].
  destruct (String.eqb password' EmptyString); [eexists; reflexivity|].
  cbn [store]. rewrite getPasswordReset_deleted. eexists. reflexivity.
Qed.

End ResetTokens.

Section ResetRoundTrip.
Import Routes.

Lemma filter_after_update {A} (p hit : A -> bool) (g : A -> A) (l : list A) :
  (forall x, p (g x) = p x) ->
  filter p (Storage.update_where hit g l)
  = map (fun x => if hit x then g x else x) (filter p l).
Proof.
  intros Hp. unfold Storage.update_where.
  induction l as [|x l IH]; [reflexivity|]. cbn [map filter].
  assert (Hx : p (if hit x then g x else x) = p x)
    by (destruct (hit x); [apply Hp | reflexivity]).
  rewrite Hx. destruct (p x); cbn [map]; now rewrite IH.
Qed.

Lemma getUserByEmail_email s email row :
  Storage.getUserByEmail s email = Some row -> User.email row = email.
Proof.
  unfold Storage.getUserByEmail, Storage.first. intros H.
  assert (Hin : In row (filter (fun x => String.eqb (User.email x) email)
                               (rows (users s)))).
  { destruct (filter _ _) as [|y l]; [discriminate|]. injection H as ->. now left. }
  apply filter_In in Hin. now apply String.eqb_eq.
Qed.

(** The world a request for a reset leaves when the address has an
    account. *)
Lemma forgotPassword_stores E req email w row :
  body_email req = Some email ->
  email <> EmptyString ->
  Storage.getUserByEmail (store w) email = Some row ->
  store (snd (forgotPassword E req w))
  = snd (Storage.createPasswordReset E (store w) email (random_token E)
           (now E + 60 * 60 * 1000)).
Proof.
  intros Hbody Hne Hget.
  pose proof (getUserByEmail_email _ _ _ Hget) as Hemail.
  unfold forgotPassword, guarded, try_catch, bind, getStore.
  rewrite Hbody. apply String.eqb_neq in Hne. rewrite Hne. cbn. rewrite Hget. cbn.
  unfold sendPasswordResetEmail. rewrite Hemail.
  destruct (mail_accepted E email); reflexivity.
Qed.

(** X22: the token a request for a reset stores for an account is
    accepted by a reset made within the hour, that is while the clock of
    the reset reads no more than the clock of the request plus one hour:
    the password of the account becomes the hash of the new one and the
    token is deleted.  Once the clock reads more, the reset is refused
    with status 400 and changes nothing.  The token must not be one a
    stored reset already carries.  [E1] is the outside world at the
    request, [E2] at the reset. *)
Theorem forgot_then_reset E1 E2 hash req email password w (row : User.t) :
  body_email req = Some email ->
  email <> EmptyString ->
  password <> EmptyString ->
  random_token E1 <> EmptyString ->
  Storage.getUserByEmail (store w) email = Some row ->
  Storage.getPasswordReset (store w) (random_token E1) = None ->
  let w1 := snd (forgotPassword E1 req w) in
  (now E2 <= now E1 + 60 * 60 * 1000 ->
   exists w2,
     Handlers.resetPassword E2 hash (Some (random_token E1)) (Some password) w1
     = (inr (json 200 (JsonMessage "Password has been reset successfully")), w2)
     /\ option_map User.password (Storage.getUserByEmail (store w2) email)
        = Some (hash password)
     /\ Storage.getPasswordReset (store w2) (random_token E1) = None)
  /\ (now E1 + 60 * 60 * 1000 < now E2 ->
      Handlers.resetPassword E2 hash (Some (random_token E1)) (Some password) w1
      = (inr (json 400 (JsonMessage "Invalid or expired reset token")), w1)).
Proof.
  intros Hbody Hne Hpw Htok Hget Hfresh. cbn zeta.
  pose proof (forgotPassword_stores E1 req email w row Hbody Hne Hget) as Hstore.
  unfold Handlers.resetPassword, guarded, try_catch, bind, getStore.
  apply String.eqb_neq in Htok, Hpw. rewrite Htok, Hpw. cbn [orb].
  rewrite Hstore.
  assert (Hreset : Storage.getPasswordReset
                     (snd (Storage.createPasswordReset E1 (store w) email
                             (random_token E1) (now E1 + 60 * 60 * 1000)))
                     (random_token E1)
                   = Some {| PasswordReset.id := serial (passwordResets (store w));
                             PasswordReset.email := email;
                             PasswordReset.token := random_token E1;
                             PasswordReset.expiresAt := now E1 + 60 * 60 * 1000;
                             PasswordReset.createdAt := now E1 |}).
  { unfold Storage.getPasswordReset in *. cbn. rewrite filter_app.
    unfold Storage.first in Hfresh.
    destruct (filter _ (rows (passwordResets (store w)))); [|discriminate].
    cbn. rewrite String.eqb_refl. reflexivity. }
  rewrite Hreset. cbn [PasswordReset.expiresAt PasswordReset.email].
  split.
  - intros Hintime.
    assert (Hclock : (now E2 >? now E1 + 60 * 60 * 1000) = false)
      by (rewrite Z.gtb_ltb; apply Z.ltb_ge; lia).
    rewrite Hclock.
    assert (Huser : Storage.getUserByEmail
                      (snd (Storage.createPasswordReset E1 (store w) email
                              (random_token E1) (now E1 + 60 * 60 * 1000))) email
                    = Some row) by exact Hget.
    rewrite Huser. cbn. eexists. split; [reflexivity|]. cbn [store]. split.
    + unfold Storage.getUserByEmail in *. cbn.
      rewrite (filter_after_update (fun u => String.eqb (User.email u) email))
        by reflexivity.
      rewrite first_map, Hstore, Huser. cbn. rewrite Z.eqb_refl. reflexivity.
    + apply getPasswordReset_deleted.
  - intros Hlate.
    assert (Hclock : (now E2 >? now E1 + 60 * 60 * 1000) = true)
      by (rewrite Z.gtb_ltb; apply Z.ltb_lt; lia).
    rewrite Hclock. unfold ret. now destruct (forgotPassword E1 req w).
Qed.

End ResetRoundTrip.

Section InlineFormatting.
Import JsString ImprovedLayout.

Lemma take_while_all p s : all_chars p (take_while p s) = true.
Proof.
  induction s as [|c s IH]; [reflexivity|]. cbn.
  destruct (p c) eqn:Hc; [|reflexivity]. cbn. now rewrite Hc.
Qed.

Lemma flush_inline before : Forall inlineSegment (flush before).
Proof.
  unfold flush. destruct (String.eqb _ EmptyString) eqn:Hb; constructor; [|constructor].
  apply String.eqb_neq in Hb. unfold inlineSegment. cbn. auto.
Qed.

Lemma bold_here_inline s cap :
  bold_here s = Some cap -> inlineSegment (boldSegment cap).
Proof.
  unfold bold_here. destruct s as [|a [|b rest]]; try discriminate.
  destruct (is_star a && is_star b); [|discriminate].
  pose proof (take_while_all (fun c => negb (is_star c)) rest) as Hall.
  destruct (take_while (fun c => negb (is_star c)) rest) as [|c cap'] eqn:Hcap;
    [discriminate|].
  destruct (drop_while _ rest) as [|x [|y r]]; try discriminate.
  destruct (is_star x && is_star y); [|discriminate].
  intros H. injection H as <-. unfold inlineSegment. cbn [segItalic segUnderline
    segBold text boldSegment]. repeat split; [discriminate | exact Hall].
Qed.

Lemma scanBold_inline s : forall skip before, Forall inlineSegment (scanBold skip before s).
Proof.
  induction s as [|c s IH]; intros skip before; cbn [scanBold].
  - apply flush_inline.
  - destruct skip as [|k]; [|apply IH].
    destruct (bold_here (String c s)) as [cap|] eqn:Hb; [|apply IH].
    apply Forall_app. split; [apply flush_inline|].
    constructor; [exact (bold_here_inline _ _ Hb) | apply IH].
Qed.

Lemma parseInlineFormatting_inline t : Forall inlineSegment (parseInlineFormatting t).
Proof.
  unfold parseInlineFormatting.
  pose proof (scanBold_inline t 0%nat EmptyString) as H.
  destruct (scanBold 0 EmptyString t) as [|seg segs]; [|exact H].
  destruct (String.eqb (trim t) EmptyString) eqn:Hb; constructor; [|constructor].
  apply String.eqb_neq in Hb. unfold inlineSegment. cbn. auto.
Qed.

Lemma upright_emit o d :
  uprightOp o = true -> forallb uprightOp (ops d) = true ->
  forallb uprightOp (ops (emit o d)) = true.
Proof.
  intros Ho Hd. unfold emit. cbn [ops]. rewrite forallb_app, Hd. cbn. now rewrite Ho.
Qed.

Lemma upright_renderWords C startX maxWidth lh seg ws :
  segUnderline seg = false ->
  forall p, forallb uprightOp (ops (doc p)) = true ->
            forallb uprightOp
              (ops (doc (renderWords C startX maxWidth lh seg ws p))) = true.
Proof.
  intros Hu. induction ws as [|word rest IH]; intros p Hp; [exact Hp|].
  cbn [renderWords]. apply IH. unfold renderWord. rewrite Hu. cbn [doc].
  now apply upright_emit.
Qed.

Lemma upright_renderSegment C startX maxWidth lh p seg :
  inlineSegment seg ->
  forallb uprightOp (ops (doc p)) = true ->
  forallb uprightOp (ops (doc (renderSegment C startX maxWidth lh p seg))) = true.
Proof.
  intros (Hi & Hu & _) Hp. unfold renderSegment.
  destruct (String.eqb _ EmptyString); [exact Hp|].
  apply upright_renderWords; [exact Hu|]. cbn [doc].
  unfold setFont. cbn [ops]. rewrite forallb_app, Hp. cbn.
  unfold segmentFont. rewrite Hi. destruct (segBold seg); reflexivity.
Qed.

(** X23: the direct-draw backend knows bold only.  The inline parser
    gives no italic and no underlined segment, whatever the text holds
    ([*x*] and [__x__] with it); so the text of a paragraph or of a list
    item is drawn without an underline and without an italic font. *)
Theorem inline_text_is_never_italic_or_underlined C d t startX maxWidth y lh :
  Forall inlineSegment (parseInlineFormatting t)
  /\ (forallb uprightOp (ops d) = true ->
      forallb uprightOp
        (ops (fst (renderFormattedText C d (parseInlineFormatting t)
                     startX maxWidth y lh))) = true).
Proof.
  split; [apply parseInlineFormatting_inline|].
  intros Hd. unfold renderFormattedText. cbn [fst].
  pose proof (parseInlineFormatting_inline t) as Hsegs.
  set (p0 := {| currentX := startX; currentY := y; doc := d |}).
  assert (Hp0 : forallb uprightOp (ops (doc p0)) = true) by exact Hd.
  clearbody p0. revert p0 Hp0.
  induction Hsegs as [|seg segs Hseg _ IH]; intros p0 Hp0; [exact Hp0|].
  cbn [fold_left]. apply IH. now apply upright_renderSegment.
Qed.

End InlineFormatting.

Section PlainLayout.
Import JsString ImprovedLayout PlainPDF.
Local Open Scope Q_scope.

Lemma placedYs_app l1 l2 : placedYs (l1 ++ l2) = (placedYs l1 ++ placedYs l2)%list.
Proof.
  induction l1 as [|o l1 IH]; [reflexivity|].
  destruct o; cbn; rewrite IH; reflexivity.
Qed.

Lemma gt_false a b : gt a b = false -> a <= b.
Proof.
  unfold gt. intros H. apply negb_false_iff in H. now apply Qle_bool_iff.
Qed.

Lemma newPage_within margin pageHeight st :
  margin <= pageHeight - margin ->
  withinPage margin pageHeight st ->
  withinPage margin pageHeight (newPageIfBelow margin pageHeight st)
  /\ fst (newPageIfBelow margin pageHeight st) <= pageHeight - margin.
Proof.
  unfold withinPage, newPageIfBelow. intros Hfit H.
  destruct (gt (fst st) (pageHeight - margin)) eqn:Hgt; cbn [fst snd].
  - split; [|exact Hfit]. unfold emit. cbn [ops].
    rewrite placedYs_app. cbn. now rewrite app_nil_r.
  - split; [exact H | now apply gt_false].
Qed.

Lemma drawLine_within margin pageHeight lineHeight leftMargin st line :
  margin <= pageHeight - margin ->
  withinPage margin pageHeight st ->
  withinPage margin pageHeight
    (drawLine margin pageHeight lineHeight leftMargin st line).
Proof.
  intros Hfit H. unfold drawLine.
  destruct (newPage_within margin pageHeight st Hfit H) as [Hw Hy].
  destruct (newPageIfBelow margin pageHeight st) as [y d]. cbn [fst snd] in *.
  unfold withinPage in *. cbn [snd]. unfold emit. cbn [ops].
  rewrite placedYs_app. apply Forall_app. split; [exact Hw|].
  cbn. constructor; [exact Hy | constructor].
Qed.

Lemma drawLines_within margin pageHeight lineHeight leftMargin lines :
  margin <= pageHeight - margin ->
  forall st, withinPage margin pageHeight st ->
             withinPage margin pageHeight
               (fold_left (drawLine margin pageHeight lineHeight leftMargin)
                          lines st).
Proof.
  intros Hfit. induction lines as [|line rest IH]; intros st H; [exact H|].
  cbn [fold_left]. apply IH. now apply drawLine_within.
Qed.

Lemma partFont_placed part d : placedYs (ops (partFont part d)) = placedYs (ops d).
Proof.
  unfold partFont, setFont, setFontSize.
  destruct (isHeader part); [|destruct (partBold part); [|destruct (partItalic part)]];
    cbn [ops]; rewrite !placedYs_app; cbn; now rewrite !app_nil_r.
Qed.

Lemma addPart_within C margin maxWidth lineHeight pageHeight st part :
  margin <= pageHeight - margin ->
  withinPage margin pageHeight st ->
  withinPage margin pageHeight
    (addPart C margin maxWidth lineHeight pageHeight st part).
Proof.
  intros Hfit H. unfold addPart.
  destruct (newPage_within margin pageHeight st Hfit H) as [Hw _].
  destruct (newPageIfBelow margin pageHeight st) as [y d]. cbn [fst snd] in Hw.
  assert (Hfont : withinPage margin pageHeight (y, partFont part d)).
  { unfold withinPage in *. cbn [snd] in *. now rewrite partFont_placed. }
  destruct (_ || _).
  - destruct (String.eqb (partText part) nl); exact Hfont.
  - pose proof (drawLines_within margin pageHeight lineHeight
                  (margin + inject_Z (Z.of_nat (indent part)) * 10)
                  (splitTextToSize C (font (partFont part d))
                     (fontSize (partFont part d)) (partText part)
                     (maxWidth - inject_Z (Z.of_nat (indent part)) * 10))
                  Hfit (y, partFont part d) Hfont) as Hlines.
    destruct (fold_left _ _ _) as [y' d'].
    destruct (isHeader part); exact Hlines.
Qed.

(** X24: the layout of [PDFService] tests for a new page before every
    line it draws: on a page that has room between its two margins, no
    line of text is placed below the page height less the margin,
    however long the parts are and wherever the content starts. *)
Theorem plain_layout_keeps_lines_on_the_page
        C d parts (margin maxWidth y lineHeight pageHeight : Q) :
  margin <= pageHeight - margin ->
  Forall (fun y => y <= pageHeight - margin) (placedYs (ops d)) ->
  Forall (fun y => y <= pageHeight - margin)
         (placedYs (ops (snd (addFormattedParts C d parts margin maxWidth y
                                lineHeight pageHeight)))).
Proof.
  intros Hfit Hd. unfold addFormattedParts.
  assert (Hstart : withinPage margin pageHeight (y, d)) by exact Hd.
  revert Hstart. generalize (y, d) as st.
  induction parts as [|part rest IH]; intros st H; [exact H|].
  cbn [fold_left]. apply IH. now apply addPart_within.
Qed.

End PlainLayout.

Section DocumentSections.
Import JsString PlainPDF.

Lemma append_nil_r (s : string) : (s ++ EmptyString)%string = s.
Proof. induction s as [|c s IH]; [reflexivity|]. cbn. now rewrite IH. Qed.

Lemma append_assoc (a b c : string) :
  ((a ++ b) ++ c)%string = (a ++ (b ++ c))%string.
Proof. induction a as [|x a IH]; [reflexivity|]. cbn. now rewrite IH. Qed.

Lemma rev_string_acc s : forall acc,
  rev_string acc s = (rev_string EmptyString s ++ acc)%string.
Proof.
  induction s as [|c s IH]; intros acc; [reflexivity|].
  cbn [rev_string]. rewrite (IH (String c acc)), (IH (String c EmptyString)).
  rewrite append_assoc. reflexivity.
Qed.

Lemma split_on_one_piece sep t : forall cur,
  all_chars (fun c => negb (Ascii.eqb c sep)) t = true ->
  split_on sep cur t = [(rev_string EmptyString cur ++ t)%string].
Proof.
  induction t as [|c t IH]; intros cur H; cbn [split_on].
  - now rewrite append_nil_r.
  - cbn [all_chars] in H. apply andb_true_iff in H. destruct H as [Hc Ht].
    apply negb_true_iff in Hc. rewrite Hc, (IH _ Ht). cbn [rev_string].
    rewrite (rev_string_acc cur (String c EmptyString)), append_assoc.
    reflexivity.
Qed.

Lemma split_on_app sep a t : forall cur,
  split_on sep cur (a ++ String sep t)
  = (split_on sep cur a ++ split_on sep EmptyString t)%list.
Proof.
  induction a as [|c a IH]; intros cur; cbn [append split_on].
  - now rewrite Ascii.eqb_refl.
  - destruct (Ascii.eqb c sep); [cbn [app]; f_equal|]; apply IH.
Qed.

Lemma split_on_pieces sep s : forall cur,
  all_chars (fun c => negb (Ascii.eqb c sep)) cur = true ->
  Forall (fun piece => all_chars (fun c => negb (Ascii.eqb c sep)) piece = true)
         (split_on sep cur s).
Proof.
  induction s as [|c s IH]; intros cur Hcur; cbn [split_on].
  - constructor; [|constructor]. now rewrite all_chars_rev_string, Hcur.
  - destruct (Ascii.eqb c sep) eqn:Hc.
    + constructor; [now rewrite all_chars_rev_string, Hcur | now apply IH].
    + apply IH. cbn [all_chars]. now rewrite Hc, Hcur.
Qed.

Lemma split_on_not_nil sep s cur : split_on sep cur s <> [].
Proof.
  revert cur. induction s as [|c s IH]; intros cur; cbn [split_on]; [discriminate|].
  destruct (Ascii.eqb c sep); [discriminate | apply IH].
Qed.

Lemma all_chars_drop_while p q s :
  all_chars p s = true -> all_chars p (drop_while q s) = true.
Proof.
  induction s as [|c s IH]; [auto|]. cbn. intros H.
  destruct (q c); [|exact H].
  apply andb_true_iff in H. now apply IH.
Qed.

Lemma all_chars_trim p s : all_chars p s = true -> all_chars p (trim s) = true.
Proof.
  intros H. unfold trim, trimEnd, trimStart.
  rewrite all_chars_rev_string, andb_true_r.
  apply all_chars_drop_while. rewrite all_chars_rev_string, andb_true_r.
  now apply all_chars_drop_while.
Qed.

Lemma drop_while_head_false p s :
  all_chars p (drop_while p s) = true -> drop_while p s = EmptyString.
Proof.
  induction s as [|c s IH]; [reflexivity|]. cbn.
  destruct (p c) eqn:Hc; [exact IH|]. cbn. rewrite Hc. discriminate.
Qed.

Lemma blank_all_space s : trim s = EmptyString -> all_chars is_space s = true.
Proof.
  unfold trim, trimEnd, trimStart. intros H.
  apply rev_string_nil in H. destruct H as [_ H].
  apply drop_while_all in H. rewrite all_chars_rev_string, andb_true_r in H.
  apply drop_while_head_false in H. now apply drop_while_all.
Qed.

(** A trimmed line that is not empty holds a character that is not
    white space; so does every text that ends with it. *)
Lemma ends_with_trimmed_not_blank prefix raw :
  trim raw <> EmptyString -> nonBlank (prefix ++ trim raw) = true.
Proof.
  intros Hne. unfold nonBlank. apply negb_true_iff, String.eqb_neq. intros Hblank.
  apply blank_all_space in Hblank. rewrite all_chars_app in Hblank.
  apply andb_true_iff in Hblank. destruct Hblank as [_ Hall].
  destruct (last_char_some _ Hne) as [c Hc].
  pose proof (last_char_all _ _ _ Hall Hc) as Hsp.
  apply last_char_trim in Hc. congruence.
Qed.

Lemma nonBlank_not_empty s : nonBlank s = true -> String.eqb s EmptyString = false.
Proof.
  unfold nonBlank. intros H. apply String.eqb_neq. intros ->. discriminate H.
Qed.

Lemma concat_snoc {A} (l : list (list A)) (x : list A) :
  List.concat (l ++ [x]) = (List.concat l ++ x)%list.
Proof. rewrite concat_app. cbn. now rewrite app_nil_r. Qed.

Lemma sectionStep_inv done st line :
  all_chars (fun c => negb (Ascii.eqb c "010"%char)) line = true ->
  sectionsInv done st -> sectionsInv (done ++ [line]) (sectionStep st line).
Proof.
  intros Hline (Hlines & Hpushed & Hcur). destruct st as [sections cur].
  cbn [fst snd] in *. unfold sectionsInv, sectionStep.
  rewrite map_app, filter_app. cbn [map filter]. unfold kept at 2.
  destruct (isSectionTitle (trim line)) eqn:Htitle.
  - rewrite andb_false_r. cbn [fst snd]. rewrite ?app_nil_r.
    destruct (nonBlank (PlainPDF.content cur)) eqn:Hnb.
    + split; [|split; [|now left]].
      * rewrite map_app. cbn [map]. rewrite concat_snoc, <- Hlines.
        unfold curLines. now rewrite (nonBlank_not_empty _ Hnb).
      * apply Forall_app. split; [exact Hpushed | now constructor].
    + split; [|split; [exact Hpushed | now left]].
      rewrite <- Hlines. destruct Hcur as [Hc | Hc]; [|congruence].
      unfold curLines. rewrite Hc. cbn. now rewrite app_nil_r.
  - rewrite andb_true_r.
    destruct (String.eqb (trim line) EmptyString) eqn:Hempty; cbn [negb].
    + rewrite app_nil_r. cbn [fst snd]. auto.
    + cbn [fst snd]. apply String.eqb_neq in Hempty.
      pose proof (all_chars_trim _ _ Hline) as Htrim.
      split; [|split; [exact Hpushed|]].
      * rewrite <- Hlines, <- app_assoc. f_equal.
        unfold curLines, sectionLines. cbn [PlainPDF.content].
        destruct (String.eqb (PlainPDF.content cur) EmptyString) eqn:Hc.
        -- cbn [append].
           destruct (String.eqb (trim line) EmptyString) eqn:He;
             [apply String.eqb_eq in He; contradiction|].
           unfold split. now rewrite split_on_one_piece.
        -- assert (Hne : String.eqb ((PlainPDF.content cur ++ nl) ++ trim line)
                                    EmptyString = false).
           { apply String.eqb_neq. intros H.
             destruct (PlainPDF.content cur); [discriminate Hc | discriminate H]. }
           rewrite Hne. unfold split, nl.
           rewrite append_assoc. cbn [append].
           rewrite split_on_app. f_equal. now rewrite split_on_one_piece.
      * right. cbn [PlainPDF.content]. now apply ends_with_trimmed_not_blank.
Qed.

Lemma sections_fold_inv lines : forall done st,
  Forall (fun l => all_chars (fun c => negb (Ascii.eqb c "010"%char)) l = true) lines ->
  sectionsInv done st ->
  sectionsInv (done ++ lines) (fold_left sectionStep lines st).
Proof.
  induction lines as [|line rest IH]; intros done st Hall Hinv.
  - now rewrite app_nil_r.
  - inversion Hall as [|? ? Hline Hrest]; subst. cbn [fold_left].
    replace (done ++ line :: rest)%list with ((done ++ [line]) ++ rest)%list
      by now rewrite <- app_assoc.
    apply IH; [exact Hrest | now apply sectionStep_inv].
Qed.

(** X25: [parseSections] loses no line of content and adds none.  When
    the text has a line that is not blank and is not read as a title,
    the lines of the sections, taken in order, are exactly those lines of
    the text, trimmed, and every section has content; when it has none,
    the result is the one section that holds the whole text. *)
Theorem parseSections_keeps_every_content_line (text : string) :
  (contentLines text = [] /\ parseSections text = [wholeText text])
  \/ (contentLines text <> []
      /\ List.concat (map sectionLines (parseSections text)) = contentLines text
      /\ Forall (fun s => nonBlank (PlainPDF.content s) = true) (parseSections text)).
Proof.
  unfold parseSections, contentLines.
  pose proof (sections_fold_inv (split "010"%char text) []
                ([], {| PlainPDF.title := EmptyString; PlainPDF.content := EmptyString |})
                (split_on_pieces "010"%char text EmptyString eq_refl)) as Hinv.
  cbn [app] in Hinv. fold kept.
  destruct (fold_left sectionStep (split "010"%char text) _) as [sections cur].
  destruct Hinv as [Hlines Hrest]; [repeat split; auto; now left|].
  destruct Hrest as [Hpushed Hcur]. cbn [fst snd] in *.
  assert (Hall : exists all,
            all = (if nonBlank (PlainPDF.content cur)
                   then (sections ++ [cur])%list else sections)
            /\ List.concat (map sectionLines all) = filter kept (map trim (split "010"%char text))
            /\ Forall (fun s => nonBlank (PlainPDF.content s) = true) all).
  { eexists. split; [reflexivity|].
    destruct (nonBlank (PlainPDF.content cur)) eqn:Hnb.
    - split; [|apply Forall_app; split; [exact Hpushed | now constructor]].
      rewrite map_app. cbn [map]. rewrite concat_snoc, <- Hlines.
      unfold curLines. now rewrite (nonBlank_not_empty _ Hnb).
    - split; [|exact Hpushed]. rewrite <- Hlines.
      destruct Hcur as [Hc | Hc]; [|congruence].
      unfold curLines. rewrite Hc. cbn. now rewrite app_nil_r. }
  destruct Hall as (all & <- & Hconcat & Hnonblank).
  destruct all as [|s rest].
  - left. split; [now rewrite <- Hconcat | reflexivity].
  - right. split; [|split; assumption].
    rewrite <- Hconcat. cbn [map List.concat]. intros Hnil.
    apply app_eq_nil in Hnil. destruct Hnil as [Hs _].
    exact (split_on_not_nil _ _ _ Hs).
Qed.

End DocumentSections.

Section HeaderName.
Import JsString ImprovedLayout.

Lemma rev_string_app a b :
  rev_string EmptyString (a ++ b)
  = (rev_string EmptyString b ++ rev_string EmptyString a)%string.
Proof.
  induction a as [|c a IH]; cbn [append rev_string].
  - now rewrite append_nil_r.
  - rewrite (rev_string_acc (a ++ b)), (rev_string_acc a), IH.
    now rewrite append_assoc.
Qed.

Lemma rev_string_involutive s :
  rev_string EmptyString (rev_string EmptyString s) = s.
Proof.
  induction s as [|c s IH]; [reflexivity|].
  cbn [rev_string]. rewrite (rev_string_acc s), rev_string_app, IH. reflexivity.
Qed.

(** Dropping leading white space keeps a word that starts with another
    character, and all that follows it. *)
Lemma drop_while_keeps_word a c w rest :
  is_space c = false ->
  exists a', drop_while is_space (a ++ String c w ++ rest)
             = (a' ++ String c w ++ rest)%string.
Proof.
  intros Hc. induction a as [|x a [a' IH]]; cbn [append drop_while].
  - rewrite Hc. now exists EmptyString.
  - destruct (is_space x).
    + exists a'. exact IH.
    + now exists (String x a).
Qed.

Lemma trim_keeps_undefined a b : holds "undefined" (trim (a ++ "undefined" ++ b)).
Proof.
  unfold trim, trimStart, trimEnd.
  destruct (drop_while_keeps_word a "u"%char "ndefined" b eq_refl) as [a' Ha].
  change ("undefined" ++ b)%string with (String "u"%char ("ndefined" ++ b))%string.
  change (String "u" "ndefined" ++ b)%string
    with (String "u"%char ("ndefined" ++ b))%string in Ha.
  rewrite Ha.
  change (String "u"%char ("ndefined" ++ b))%string with ("undefined" ++ b)%string.
  rewrite !rev_string_app.
  change (rev_string EmptyString "undefined") with (String "d"%char "enifednu").
  rewrite append_assoc.
  destruct (drop_while_keeps_word (rev_string EmptyString b) "d"%char "enifednu"
              (rev_string EmptyString a') eq_refl) as [b' Hb].
  rewrite Hb, !rev_string_app, rev_string_involutive.
  change (rev_string EmptyString (String "d"%char "enifednu")) with "undefined".
  exists a', (rev_string EmptyString b'). now rewrite append_assoc.
Qed.

(** X26: the name in the header of the direct-draw backend is built with
    a template literal.  When the extracted data hold a name of which one
    of the four parts is missing, the function returns a name that holds
    the word undefined, as long as the four parts convert to strings (a
    missing part does); when one does not, it throws the [TypeError] of
    the conversion and no name is printed. *)
Theorem header_name_prints_undefined (data deceasedName : value) (part : string) :
  optGet (optGet (optGet data "arrangement") "basic_information") "deceased_name"
    = deceasedName ->
  truthy deceasedName = true ->
  In part ["first"; "middle"; "last"; "suffix"] ->
  optGet deceasedName part = Undefined ->
  (Forall prints (map (optGet deceasedName) ["first"; "middle"; "last"; "suffix"]) ->
   exists name, getDeceasedName data = inr name /\ holds "undefined" name)
  /\ (~ Forall prints (map (optGet deceasedName)
                          ["first"; "middle"; "last"; "suffix"]) ->
      getDeceasedName data = inl notPrimitive).
Proof.
  intros Hdn Htruthy Hpart Hmissing. unfold getDeceasedName.
  rewrite Hdn, Htruthy. cbn [negb map]. split.
  - intros Hall.
    inversion_clear Hall as [|? ? [first H1] Hall2].
    inversion_clear Hall2 as [|? ? [middle H2] Hall3].
    inversion_clear Hall3 as [|? ? [last H3] Hall4].
    inversion_clear Hall4 as [|? ? [suffix H4] _].
    rewrite H1, H2, H3, H4. eexists. split; [reflexivity|].
    destruct Hpart as [<- | [<- | [<- | [<- | []]]]]; rewrite Hmissing in *.
    + injection H1 as <-. apply (trim_keeps_undefined EmptyString).
    + injection H2 as <-.
      replace (first ++ " " ++ "undefined" ++ " " ++ last ++ " " ++ suffix)%string
        with ((first ++ " ") ++ "undefined" ++ " " ++ last ++ " " ++ suffix)%string
        by now rewrite append_assoc.
      apply trim_keeps_undefined.
    + injection H3 as <-.
      replace (first ++ " " ++ middle ++ " " ++ "undefined" ++ " " ++ suffix)%string
        with ((first ++ " " ++ middle ++ " ") ++ "undefined" ++ " " ++ suffix)%string
        by now rewrite !append_assoc.
      apply trim_keeps_undefined.
    + injection H4 as <-.
      replace (first ++ " " ++ middle ++ " " ++ last ++ " " ++ "undefined")%string
        with ((first ++ " " ++ middle ++ " " ++ last ++ " ") ++ "undefined"
              ++ EmptyString)%string
        by now rewrite !append_assoc.
      apply trim_keeps_undefined.
  - intros Hnot.
    destruct (toString (optGet deceasedName "first")) as [e1|t1] eqn:H1;
      [now rewrite (toString_error _ _ H1)|].
    destruct (toString (optGet deceasedName "middle")) as [e2|t2] eqn:H2;
      [now rewrite (toString_error _ _ H2)|].
    destruct (toString (optGet deceasedName "last")) as [e3|t3] eqn:H3;
      [now rewrite (toString_error _ _ H3)|].
    destruct (toString (optGet deceasedName "suffix")) as [e4|t4] eqn:H4;
      [now rewrite (toString_error _ _ H4)|].
    exfalso. apply Hnot. repeat constructor; eexists; eassumption.
Qed.

End HeaderName.

(** ** The theorems at concrete inputs *)

Section Witnesses.
Import JsString Routes DocumentService Fixtures ImprovedLayout.

Lemma generateDocument_fallback_witness :
  exists prompt,
    getPromptForType E_timeout tasks stringDate "Director: good morning." None
      = inr prompt
    /\ LLMFailed tasks (llm E_timeout (llmCalls world0) prompt (maxOutputTokens tasks))
                 timeoutMessage
    /\ Forall prints (printedByFallback tasks stringDate)
    /\ exists text,
         generateDocument E_timeout tasks stringDate "Director: good morning." None
           world0
           = (inr text, afterOneCall world0)
         /\ startsWith "# Funeral Director Task Checklist" text = true.
Proof.
  assert (Hprints : Forall prints (printedByFallback tasks stringDate))
    by (repeat constructor; eexists; reflexivity).
  eexists. split; [reflexivity|]. split; [apply failed_rejected|].
  split; [exact Hprints|].
  destruct (generateDocument_fallback E_timeout tasks stringDate
              "Director: good morning." None world0 _ timeoutMessage
              eq_refl (failed_rejected tasks timeoutMessage) Hprints)
    as (text & Hrun & _ & Hpre & _).
  exists text. split; [exact Hrun | exact Hpre].
Defined.

(** C2 as stated, for every arrangement data, fails on data whose date of
    service is an object with a property named [toString]: the prompt is
    built, the request times out, and the template literal of the
    hardcoded checklist throws out of the [catch]. *)
Lemma object_date_is_not_printed :
  exists prompt,
    getPromptForType E_timeout tasks objectDate "Director: good morning." None
      = inr prompt
    /\ LLMFailed tasks (llm E_timeout (llmCalls world0) prompt (maxOutputTokens tasks))
                 timeoutMessage
    /\ generateDocument E_timeout tasks objectDate "Director: good morning." None
         world0
       = (inl "Cannot convert object to primitive value", afterOneCall world0)
    /\ ~ fallsBackAsSpecified E_timeout objectDate "Director: good morning." world0.
Proof.
  eexists. split; [reflexivity|]. split; [apply failed_rejected|].
  split; [reflexivity|].
  intros H.
  destruct (H _ timeoutMessage eq_refl (failed_rejected tasks timeoutMessage))
    as (text & Hrun & _).
  discriminate Hrun.
Qed.

Lemma approve_generates_documents_witness :
  user approveRequest = Some alice_token
  /\ parseInt (param approveRequest "id") = Some 1
  /\ Storage.getArrangementById (store world0) 1 = Some arrangement1
  /\ Storage.getTranscriptById (store world0)
       (Arrangement.transcriptId arrangement1) (userId alice_token) = Some transcript1
  /\ everyPartyAnswers E_ok arrangement1 transcript1 (Obj [])
  /\ exists docs fails w',
       approve E_ok approveRequest world0
         = (inr (approvedResponse docs fails
                   (Some (Storage.setApproval "approved" (now E_ok) arrangement1))), w')
       /\ option_map Arrangement.approvalStatus
            (Storage.getArrangementById (store w') 1) = Some "approved"
       /\ rows (documents (store w')) = (rows (documents (store world0)) ++ docs)%list
       /\ fails = []
       /\ List.length docs = 6%nat
       /\ map Document.type docs
          = ["contract"; "summary"; "obituary"; "tasks"; "arranger_tasks";
             "death_cert"]
       /\ map Document.id docs = [3; 4; 5; 6; 7; 8]
       /\ Forall (fun d => Document.content d = Some "# Document"
                           /\ Document.plainTextContent d = Some "# Document") docs.
Proof.
  assert (Hall : everyPartyAnswers E_ok arrangement1 transcript1 (Obj [])).
  { split; [intros w; reflexivity|].
    split; [intros type; eexists; reflexivity|].
    split; [intros k prompt budget; exists "# Document"; split;
            [reflexivity | discriminate]|].
    intros type text. exists text. reflexivity. }
  do 4 (split; [reflexivity|]). split; [exact Hall|].
  destruct (approve_generates_documents E_ok approveRequest world0 alice_token 1
              arrangement1 transcript1 eq_refl eq_refl eq_refl eq_refl)
    as (docs & fails & w' & Hrun & Hrow & _ & _ & Hrows & _ & _ & _ & _ & Hexp).
  destruct (Hexp (Obj []) Hall) as (Hfails & Hdocs & Htypes & Hlen).
  exists docs, fails, w'. split; [exact Hrun|].
  split; [cbn zeta in Hrow; now rewrite Hrow|].
  split; [exact Hrows|]. split; [exact Hfails|]. split; [exact Hlen|].
  split; [exact Htypes|]. rewrite Hdocs.
  split; [reflexivity | repeat constructor].
Defined.


(** The reconciliation on a database with two users, one of which has a
    processed transcript and no metric row: status 500, and no row. *)
Lemma reconcile_answers_500 :
  reconcileMetrics E_ok reconcileRequest world0
  = (inr (json 500 (JsonMessage "db is not defined")), world0).
Proof. reflexivity. Qed.

Lemma forgotPassword_generic_witness :
  body_email resetRequest = Some "bob@example.org"
  /\ "bob@example.org" <> EmptyString
  /\ Storage.getUserByEmail (store world0) "bob@example.org" = Some bob
  /\ Storage.getUserByEmail (store emptyWorld) "bob@example.org" = None
  /\ fst (forgotPassword E_ok resetRequest world0)
     = fst (forgotPassword E_ok resetRequest emptyWorld).
Proof.
  split; [reflexivity|]. split; [discriminate|].
  split; [reflexivity|]. split; [reflexivity|].
  exact (proj2 (forgotPassword_generic E_ok resetRequest "bob@example.org"
                  world0 emptyWorld eq_refl
                  (fun H : "bob@example.org" = EmptyString =>
                     eq_ind "bob@example.org"
                            (fun s => match s with
                                      | EmptyString => False
                                      | String _ _ => True
                                      end) I EmptyString H))).
Defined.

Lemma deleteDocument_removes_only_that_row_witness :
  parseInt (param (bobOnDocument1 DELETE "/api/documents/1") "id") = Some 1
  /\ rows (documents (store (snd (Routes.deleteDocument E_ok
                                    (bobOnDocument1 DELETE "/api/documents/1") world0))))
     = [document2]
  /\ funeralTasks (store (snd (Routes.deleteDocument E_ok
                                 (bobOnDocument1 DELETE "/api/documents/1") world0)))
     = funeralTasks (store world0).
Proof.
  split; [reflexivity|].
  destruct (deleteDocument_removes_only_that_row E_ok
              (bobOnDocument1 DELETE "/api/documents/1") world0 1 eq_refl)
    as (Hrows & _ & _ & _ & Htasks & _).
  split; [rewrite Hrows; reflexivity | exact Htasks].
Defined.

Lemma document_endpoints_ignore_owner_witness :
  user (bobOnDocument1 GET "/api/documents/1/download") = Some bob_token
  /\ parseInt (param (bobOnDocument1 GET "/api/documents/1/download") "id") = Some 1
  /\ Storage.getDocumentById (store world0) 1 = Some document1
  /\ Storage.getTranscriptsByUserId (store world0) (userId bob_token) = []
  /\ fst (download E_ok (bobOnDocument1 GET "/api/documents/1/download") world0)
     = inr (json 200 (PdfAttachment
                        ("attachment; filename=" ++ dq ++ "Funeral Services Contract.pdf"
                           ++ dq)
                        "JVBERi0x")).
Proof.
  do 4 (split; [reflexivity|]).
  rewrite (proj1 (document_endpoints_ignore_owner E_ok
                    (bobOnDocument1 GET "/api/documents/1/download") world0
                    bob_token 1 document1 eq_refl eq_refl eq_refl)).
  reflexivity.
Defined.

(** Through the router and [authenticateToken]: Bob, who owns no
    transcript, downloads and then deletes the first document of Alice. *)
Lemma bob_reaches_the_document_of_alice :
  option_map fst (serve E_ok (request GET "/api/documents/1/download" (Some "bob")
                                None None) world0)
  = Some (json 200 (PdfAttachment
                      ("attachment; filename=" ++ dq ++ "Funeral Services Contract.pdf"
                         ++ dq)
                      "JVBERi0x"))
  /\ option_map (fun r => rows (documents (store (snd r))))
                (serve E_ok (request DELETE "/api/documents/1" (Some "bob") None None)
                   world0)
     = Some [document2].
Proof. split; reflexivity. Qed.

(** The reset route has no middleware: the router hands the request to
    the handler as it is. *)
Lemma serve_forgotPassword E req w :
  method req = POST ->
  path req = ["api"; "auth"; "forgot-password"] ->
  serve E req w = Some (respond (forgotPassword E (with_params req [])) w).
Proof.
  intros Hm Hp. unfold serve, matches. rewrite Hm, Hp. reflexivity.
Qed.

Local Open Scope Q_scope.

Lemma pages_break_between_items_witness :
  pageMargin + 20 <= a4Height - bottomMargin
  /\ (pageBreaks (ops (snd (addFormattedContent monospace freshDoc fiftyItems
                             pageMargin a4ContentWidth headerEnd a4Height)))
      <= pageBreaks (ops freshDoc) + List.length fiftyItems)%nat
  /\ Forall (fun y => y <= a4Height - bottomMargin)
            (startCursors monospace pageMargin a4ContentWidth a4Height
               (headerEnd, freshDoc) fiftyItems).
Proof.
  assert (Hfit : pageMargin + 20 <= a4Height - bottomMargin)
    by (unfold Qle; cbn; lia).
  split; [exact Hfit|].
  destruct (pages_break_between_items monospace freshDoc fiftyItems pageMargin
              a4ContentWidth headerEnd a4Height Hfit) as (_ & Hbound & Hstarts).
  split; [exact Hbound | exact Hstarts].
Defined.

(** C3 as stated fails on fifty list items laid out on an A4 page: they
    are 900 points high, more than the page, and the engine adds one page
    where [ceil(900 / 841.89)] is 2. *)
Lemma fifty_items_not_as_specified :
  a4Height < totalHeight monospace pageMargin a4ContentWidth fiftyItems
  /\ pageBreaks (ops (snd (addFormattedContent monospace freshDoc fiftyItems
                             pageMargin a4ContentWidth headerEnd a4Height))) = 1%nat
  /\ Qceiling (totalHeight monospace pageMargin a4ContentWidth fiftyItems / a4Height)
     = 2%Z
  /\ ~ paginatesAsSpecified monospace fiftyItems pageMargin a4ContentWidth
         headerEnd a4Height.
Proof.
  split; [vm_compute; reflexivity|]. split; [vm_compute; reflexivity|].
  split; [vm_compute; reflexivity|]. exact fifty_items_break_once.
Qed.

End Witnesses.

(** ** The further properties at concrete inputs *)

Section FurtherWitnesses.
Import JsString Routes DocumentService Fixtures ImprovedLayout.

Lemma parsed_header_shape_witness :
  ImprovedPDF.parseLine "##   Service  " = Some (ImprovedPDF.mkHeader 2 16 "Service")
  /\ ImprovedPDF.type (ImprovedPDF.mkHeader 2 16 "Service") = ImprovedPDF.header
  /\ ImprovedPDF.content (ImprovedPDF.mkHeader 2 16 "Service") <> EmptyString.
Proof.
  split; [reflexivity|]. split; [reflexivity|].
  exact (proj1 (proj2 (parsed_header_shape "##   Service  "
                         (ImprovedPDF.mkHeader 2 16 "Service") eq_refl eq_refl))).
Defined.

Lemma parsed_text_not_empty_witness :
  ImprovedPDF.parseLine "- Call the florist" = Some (listItem "Call the florist")
  /\ ImprovedPDF.content (listItem "Call the florist") <> EmptyString.
Proof.
  split; [reflexivity|].
  apply (parsed_text_not_empty "- Call the florist" (listItem "Call the florist")
           eq_refl).
  discriminate.
Defined.

Lemma enhanced_header_any_text_witness :
  (1 <= 3 <= 4)%nat
  /\ oneLine "Service" = true /\ startsPlain "Service" = true
  /\ EnhancedPDF.markdownToHTML_headers "###Service" = "<h3>Service</h3>"
  /\ EnhancedPDF.markdownToHTML_headers "### Service" = "<h3>Service</h3>".
Proof.
  assert (Hn : (1 <= 3 <= 4)%nat) by lia.
  split; [exact Hn|]. split; [reflexivity|]. split; [reflexivity|].
  exact (enhanced_header_any_text 3 "Service" Hn eq_refl eq_refl).
Defined.

Lemma generateDocument_never_blank_witness :
  generateDocument E_ok contract (Obj []) "Director: good morning." None world0
    = (inr "# Document", afterOneCall world0)
  /\ trim "# Document" <> EmptyString.
Proof.
  split; [reflexivity|].
  exact (generateDocument_never_blank E_ok contract (Obj [])
           "Director: good morning." None world0 "# Document"
           (afterOneCall world0) eq_refl).
Defined.

Lemma approve_tracks_each_document_witness :
  user approveRequest = Some alice_token
  /\ parseInt (param approveRequest "id") = Some 1
  /\ Storage.getArrangementById (store world0) 1 = Some arrangement1
  /\ Storage.getTranscriptById (store world0)
       (Arrangement.transcriptId arrangement1) (userId alice_token) = Some transcript1
  /\ exists docs w',
       snd (approve E_ok approveRequest world0) = w'
       /\ rows (documents (store w')) = (rows (documents (store world0)) ++ docs)%list
       /\ metered (userId alice_token) (List.length docs) (store world0) (store w').
Proof.
  do 4 (split; [reflexivity|]).
  destruct (approve_tracks_each_document E_ok approveRequest world0 alice_token 1
              arrangement1 transcript1 eq_refl eq_refl eq_refl eq_refl)
    as (docs & fails & w' & Hrun & Hrows & Hmet).
  exists docs, w'. rewrite Hrun. auto.
Defined.

Lemma approve_bounded_witness :
  user approveRequest = Some alice_token
  /\ parseInt (param approveRequest "id") = Some 1
  /\ Storage.getArrangementById (store world0) 1 = Some arrangement1
  /\ Storage.getTranscriptById (store world0)
       (Arrangement.transcriptId arrangement1) (userId alice_token) = Some transcript1
  /\ (llmCalls (snd (approve E_ok approveRequest world0)) <= llmCalls world0 + 19)%nat
  /\ outbox (snd (approve E_ok approveRequest world0)) = outbox world0.
Proof.
  do 4 (split; [reflexivity|]).
  destruct (approve_bounded E_ok approveRequest world0 alice_token 1
              arrangement1 transcript1 eq_refl eq_refl eq_refl eq_refl)
    as ((_ & Hcalls) & Hout & _).
  split; [exact Hcalls | exact Hout].
Defined.

Lemma approve_without_data_creates_no_task_witness :
  user approveRequest = Some alice_token
  /\ parseInt (param approveRequest "id") = Some 1
  /\ Storage.getArrangementById (store bareWorld) 1 = Some bareArrangement
  /\ Storage.getTranscriptById (store bareWorld)
       (Arrangement.transcriptId bareArrangement) (userId alice_token)
     = Some transcript1
  /\ Arrangement.extractedData bareArrangement = None
  /\ funeralTasks (store (snd (approve E_ok approveRequest bareWorld)))
     = funeralTasks (store bareWorld)
  /\ List.length (rows (documents (store (snd (approve E_ok approveRequest bareWorld)))))
     = 8%nat.
Proof.
  do 5 (split; [reflexivity|]).
  split; [|reflexivity].
  exact (proj1 (approve_without_data_creates_no_task E_ok approveRequest bareWorld
                  alice_token 1 bareArrangement transcript1
                  eq_refl eq_refl eq_refl eq_refl eq_refl)).
Defined.

Lemma documents_of_world0_fresh : documentIdsFresh (store world0).
Proof.
  split.
  - cbn. constructor; [intros [H|[]]; discriminate H|].
    constructor; [intros []|constructor].
  - cbn. repeat constructor.
Qed.

Lemma approved_documents_are_retrievable_witness :
  user approveRequest = Some alice_token
  /\ parseInt (param approveRequest "id") = Some 1
  /\ Storage.getArrangementById (store world0) 1 = Some arrangement1
  /\ Storage.getTranscriptById (store world0)
       (Arrangement.transcriptId arrangement1) (userId alice_token) = Some transcript1
  /\ documentIdsFresh (store world0)
  /\ exists docs w',
       snd (approve E_ok approveRequest world0) = w'
       /\ map Document.id docs = idsFrom 3 (List.length docs)
       /\ forall d, In d docs ->
                    Storage.getDocumentById (store w') (Document.id d) = Some d.
Proof.
  do 4 (split; [reflexivity|]). split; [exact documents_of_world0_fresh|].
  destruct (approved_documents_are_retrievable E_ok approveRequest world0 alice_token 1
              arrangement1 transcript1 eq_refl eq_refl eq_refl eq_refl
              documents_of_world0_fresh)
    as (docs & fails & w' & Hrun & _ & Hids & Hfound).
  exists docs, w'. rewrite Hrun. split; [reflexivity|]. split; [exact Hids|].
  intros d Hd. exact (proj1 (Hfound d Hd)).
Defined.

Lemma regenerate_appends_documents_witness :
  user approveRequest = Some alice_token
  /\ parseInt (param approveRequest "id") = Some 1
  /\ Storage.getArrangementById (store world0) 1 = Some arrangement1
  /\ Storage.getTranscriptById (store world0)
       (Arrangement.transcriptId arrangement1) (userId alice_token) = Some transcript1
  /\ exists docs w',
       Handlers.regenerateAll E_ok identityRender approveRequest world0
         = (inr (json 200 (JsonApproved "All documents regenerated successfully"
                             docs None None)), w')
       /\ rows (documents (store w')) = (rows (documents (store world0)) ++ docs)%list
       /\ arrangements (store w') = arrangements (store world0).
Proof.
  do 4 (split; [reflexivity|]).
  destruct (regenerate_appends_documents E_ok identityRender approveRequest world0
              alice_token 1 arrangement1 transcript1 eq_refl eq_refl eq_refl eq_refl)
    as (docs & w' & Hrun & Hrows & _ & Harr & _).
  exists docs, w'. auto.
Defined.

Lemma guards_let_only_verified_tokens_pass_witness :
  runGuards E_ok admin promoteBob = inr (with_user promoteBob alice_token)
  /\ exists tok u,
       bearer promoteBob tok /\ jwt_verify E_ok tok = Some u
       /\ tokenRole u = "admin".
Proof.
  split; [reflexivity|].
  destruct (guards_let_only_verified_tokens_pass E_ok admin promoteBob
              (with_user promoteBob alice_token) (or_intror eq_refl) eq_refl)
    as (tok & u & Hb & Hv & _ & Hrole).
  exists tok, u. split; [exact Hb|]. split; [exact Hv | exact (Hrole eq_refl)].
Defined.

Lemma rejected_token_stops_the_request_witness :
  authenticateToken E_ok anonymousDelete
    = inl (json 401 (JsonMessage "Access token required"))
  /\ serve E_ok anonymousDelete world0
     = Some (json 401 (JsonMessage "Access token required"), world0)
  /\ (status (json 401 (JsonMessage "Access token required")) = 401%nat
      \/ status (json 401 (JsonMessage "Access token required")) = 403%nat).
Proof.
  split; [reflexivity|]. split; [reflexivity|].
  destruct (rejected_token_stops_the_request E_ok anonymousDelete world0
              (json 401 (JsonMessage "Access token required"))
              (json 401 (JsonMessage "Access token required"), world0)
              eq_refl eq_refl) as [[_ Hstatus] | [Hm _]].
  - exact Hstatus.
  - discriminate Hm.
Defined.

Lemma shadowed_routes_are_never_served_witness :
  find (matches searchRequest) routeTable
    = Some (route GET "/api/transcripts/:id" auth None)
  /\ r_path (route GET "/api/transcripts/:id" auth None) <> "/api/transcripts/search".
Proof.
  split; [reflexivity|].
  exact (proj1 (shadowed_routes_are_never_served searchRequest
                  (route GET "/api/transcripts/:id" auth None) eq_refl)).
Defined.

Lemma admin_stays_admin_witness :
  user selfDemotion = Some alice_token
  /\ Storage.getUser (store world0) (userId alice_token) = Some alice
  /\ User.role alice = "admin"
  /\ fst (updateRole E_ok selfDemotion world0)
     = inr (json 400 (JsonMessage "Cannot change your own admin role"))
  /\ option_map User.role
       (Storage.getUser (store (snd (updateRole E_ok selfDemotion world0)))
          (userId alice_token))
     = Some "admin".
Proof.
  do 4 (split; [reflexivity|]).
  exact (admin_stays_admin E_ok selfDemotion world0 alice_token alice
           eq_refl eq_refl eq_refl).
Defined.

Lemma tracking_counts_once_witness :
  Storage.getUser store0 2 = Some bob
  /\ Storage.documentsGenerated
       (Storage.getUserUsageStats E_ok
          (Storage.trackUsageMetric E_ok store0 2 "document_generated") 2 None None)
     = Storage.documentsGenerated (Storage.getUserUsageStats E_ok store0 2 None None) + 1.
Proof.
  split; [reflexivity|].
  exact (proj2 (tracking_counts_once E_ok store0 2 "document_generated" bob None None
                  eq_refl)).
Defined.

Lemma deleteTranscript_only_own_witness :
  user bobOnTranscript1 = Some bob_token
  /\ parseInt (param bobOnTranscript1 "id") = Some 1
  /\ Handlers.int4 1 = true /\ Handlers.int4 (userId bob_token) = true
  /\ Transcript.userId transcript1 <> userId bob_token
  /\ (exists w',
        Handlers.deleteTranscript E_ok outOfRangeMessage bobOnTranscript1 world0
          = (inr (json 200 (JsonMessage "Transcript deleted successfully")), w')
        /\ In transcript1 (rows (transcripts (store w'))))
  /\ parseInt (param aliceOnTranscript99999999999 "id") = Some 99999999999
  /\ Handlers.deleteTranscript E_ok outOfRangeMessage aliceOnTranscript99999999999
       world0
     = (inr (json 500 (JsonMessage (outOfRangeMessage 99999999999))), world0).
Proof.
  split; [reflexivity|]. split; [reflexivity|]. split; [reflexivity|].
  split; [reflexivity|]. split; [discriminate|]. split.
  - destruct (proj1 (deleteTranscript_only_own E_ok outOfRangeMessage
                       bobOnTranscript1 world0 bob_token 1 eq_refl eq_refl)
                    eq_refl eq_refl) as (w' & Hrun & Hrows & _).
    exists w'. split; [exact Hrun|]. apply Hrows. split; [now left|].
    intros [_ Howner]. discriminate Howner.
  - split; [reflexivity|].
    exact (proj1 (proj2 (deleteTranscript_only_own E_ok outOfRangeMessage
                           aliceOnTranscript99999999999 world0 alice_token
                           99999999999 eq_refl eq_refl)) eq_refl).
Defined.

Lemma reset_token_works_once_witness :
  fst (Handlers.resetPassword E_ok sampleHash (Some "c0ffee") (Some "new password")
         (snd (forgotPassword E_ok resetRequest world0)))
    = inr (json 200 (JsonMessage "Password has been reset successfully"))
  /\ exists message,
       fst (Handlers.resetPassword E_ok sampleHash (Some "c0ffee") (Some "another one")
              (snd (Handlers.resetPassword E_ok sampleHash (Some "c0ffee")
                      (Some "new password")
                      (snd (forgotPassword E_ok resetRequest world0)))))
       = inr (json 400 (JsonMessage message)).
Proof.
  split; [reflexivity|].
  destruct (reset_token_works_once E_ok sampleHash (Some "c0ffee")
              (Some "new password") (Some "another one")
              (snd (forgotPassword E_ok resetRequest world0)) eq_refl)
    as [message Hrun].
  exists message. rewrite Hrun. reflexivity.
Defined.

Lemma forgot_then_reset_witness :
  body_email resetRequest = Some "bob@example.org"
  /\ Storage.getUserByEmail (store world0) "bob@example.org" = Some bob
  /\ Storage.getPasswordReset (store world0) (random_token E_ok) = None
  /\ now E_ok < now halfAnHourLater <= now E_ok + 60 * 60 * 1000
  /\ now E_ok + 60 * 60 * 1000 < now twoHoursLater
  /\ (exists w2,
        Handlers.resetPassword halfAnHourLater sampleHash (Some (random_token E_ok))
          (Some "new password") (snd (forgotPassword E_ok resetRequest world0))
        = (inr (json 200 (JsonMessage "Password has been reset successfully")), w2)
        /\ option_map User.password
             (Storage.getUserByEmail (store w2) "bob@example.org")
           = Some (sampleHash "new password"))
  /\ fst (Handlers.resetPassword twoHoursLater sampleHash (Some (random_token E_ok))
            (Some "new password") (snd (forgotPassword E_ok resetRequest world0)))
     = inr (json 400 (JsonMessage "Invalid or expired reset token")).
Proof.
  do 3 (split; [reflexivity|]).
  assert (Hsoon : now halfAnHourLater <= now E_ok + 60 * 60 * 1000)
    by (cbn; lia).
  assert (Hlate : now E_ok + 60 * 60 * 1000 < now twoHoursLater) by (cbn; lia).
  split; [split; [cbn; lia | exact Hsoon]|]. split; [exact Hlate|].
  assert (Hne : "bob@example.org" <> EmptyString) by discriminate.
  assert (Hpw : "new password" <> EmptyString) by discriminate.
  assert (Htok : random_token E_ok <> EmptyString) by discriminate.
  split.
  - destruct (proj1 (forgot_then_reset E_ok halfAnHourLater sampleHash resetRequest
                       "bob@example.org" "new password" world0 bob
                       eq_refl Hne Hpw Htok eq_refl eq_refl) Hsoon)
      as (w2 & Hrun & Hpass & _).
    exists w2. split; [exact Hrun | exact Hpass].
  - rewrite (proj2 (forgot_then_reset E_ok twoHoursLater sampleHash resetRequest
                      "bob@example.org" "new password" world0 bob
                      eq_refl Hne Hpw Htok eq_refl eq_refl) Hlate).
    reflexivity.
Defined.


Lemma header_name_prints_undefined_witness :
  ImprovedLayout.getDeceasedName twoPartName = inr "John undefined Doe undefined"
  /\ Forall prints
       (map (optGet (Js.Obj [("first", Js.Str "John"); ("last", Js.Str "Doe")]))
            ["first"; "middle"; "last"; "suffix"])
  /\ exists name,
       ImprovedLayout.getDeceasedName twoPartName = inr name
       /\ holds "undefined" name.
Proof.
  assert (Hprints : Forall prints
            (map (optGet (Js.Obj [("first", Js.Str "John"); ("last", Js.Str "Doe")]))
                 ["first"; "middle"; "last"; "suffix"]))
    by (repeat constructor; eexists; reflexivity).
  split; [reflexivity|]. split; [exact Hprints|].
  apply (proj1 (header_name_prints_undefined twoPartName
                  (Js.Obj [("first", Js.Str "John"); ("last", Js.Str "Doe")])
                  "middle" eq_refl eq_refl (or_intror (or_introl eq_refl)) eq_refl)).
  exact Hprints.
Defined.

Local Open Scope Q_scope.

Lemma plain_layout_keeps_lines_on_the_page_witness :
  20 <= 297 - 20
  /\ Forall (fun y => y <= 297 - 20) (placedYs (ops freshDoc))
  /\ Forall (fun y => y <= 297 - 20)
            (placedYs (ops (snd (PlainPDF.addFormattedParts monospace freshDoc
                                   sixtyParts 20 170 50 6 297))))
  /\ pageBreaks (ops (snd (PlainPDF.addFormattedParts monospace freshDoc
                             sixtyParts 20 170 50 6 297))) = 1%nat.
Proof.
  assert (Hfit : 20 <= 297 - 20) by (unfold Qle; cbn; lia).
  split; [exact Hfit|]. split; [constructor|]. split; [|vm_compute; reflexivity].
  exact (plain_layout_keeps_lines_on_the_page monospace freshDoc sixtyParts
           20 170 50 6 297 Hfit (Forall_nil _)).
Defined.

Lemma inline_text_is_never_italic_or_underlined_witness :
  parseInlineFormatting "Call *today* and __confirm__ the **time**"
    = [plainSegment "Call *today* and __confirm__ the "; boldSegment "time"]
  /\ forallb uprightOp (ops freshDoc) = true
  /\ forallb uprightOp
       (ops (fst (renderFormattedText monospace freshDoc
                    (parseInlineFormatting "Call *today* and __confirm__ the **time**")
                    50 495 140 15))) = true.
Proof.
  split; [reflexivity|]. split; [reflexivity|].
  exact (proj2 (inline_text_is_never_italic_or_underlined monospace freshDoc
                  "Call *today* and __confirm__ the **time**" 50 495 140 15)
               eq_refl).
Defined.

End FurtherWitnesses.
